(** * Intelligent-Query-Router: the adaptive cost/quality router

    A shallow embedding of the decision logic of
    - [src/routellm_oai.py]            (class [DirectOpenAIRouteLLM]),
    - [src/utils/metrics.py]           (class [MetricsCollector]),
    - [src/combined_comparison_oai.py] (class [OAIRouterComparison]),
    and the properties of the specification checked against it.

    Modelling conventions.
    - Python [float]s are modelled by exact rationals ([Q], compared with
      [==]); the rounding error of binary floating point is not modelled.
      [round(x, n)] is round-half-to-even at [n] decimals.
    - Queries are [string]s of 8-bit characters; [str.lower] acts on the
      ASCII letters.
    - Python dictionaries keyed by strings are [gmap string _]; a lookup of
      an absent key raises [KeyError].
    - Exceptions are values of [exn]; a call that may raise returns
      [exn + _], and the state reached before the raise is kept.
    - The external collaborators (the token encoder, the chat-completion
      client, the wall clock, the library calls of the constructor) are
      parameters; those that can raise return [exn + _]. *)

From Stdlib Require Import ZArith QArith Qround Qminmax Qabs Lqa Lia.
From Stdlib Require Import String Ascii List Bool.
From stdpp Require Import gmap strings list fin_maps sorting.
Import ListNotations.

Local Open Scope Q_scope.
Local Open Scope string_scope.

(** ** Python numerics *)

Module Py.

(** Nearest integer, ties to the even neighbour. *)
Definition round_half_even (q : Q) : Z :=
  let f := Qfloor q in
  match Qcompare (q - inject_Z f) (1 # 2) with
  | Lt => f
  | Gt => (f + 1)%Z
  | Eq => if Z.even f then f else (f + 1)%Z
  end.

Definition pow10 (ndigits : nat) : Q := inject_Z (10 ^ Z.of_nat ndigits).

(** [round(x, ndigits)] *)
Definition round (x : Q) (ndigits : nat) : Q :=
  inject_Z (round_half_even (x * pow10 ndigits)) / pow10 ndigits.

(** A multiple of 0.002: a decimal with three digits whose last one is even. *)
Definition even_milli (x : Q) : Prop :=
  exists k : Z, Z.even k = true /\ x == inject_Z k / pow10 3.

(** [int(x)] for [x >= 0] *)
Definition int (x : Q) : Z := Qfloor x.

(** [sum(xs)] *)
Definition sum (xs : list Q) : Q := fold_left Qplus xs 0.

(** [a < b], [a >= b] and [a > b] as tests *)
Definition ltb (a b : Q) : bool := negb (Qle_bool b a).
Definition geb (a b : Q) : bool := Qle_bool b a.
Definition gtb (a b : Q) : bool := negb (Qle_bool a b).

(** [str.lower] *)
Definition lower_ascii (c : ascii) : ascii :=
  let n := nat_of_ascii c in
  if ((65 <=? n) && (n <=? 90))%nat then ascii_of_nat (n + 32) else c.

Fixpoint lower (s : string) : string :=
  match s with
  | EmptyString => EmptyString
  | String c s' => String (lower_ascii c) (lower s')
  end.

(** [word in s]: [word] occurs in [s] as a contiguous substring. *)
Fixpoint contains (word s : string) : bool :=
  String.prefix word s ||
  match s with
  | EmptyString => false
  | String _ s' => contains word s'
  end.

(** [s.count(c)] for a one-character pattern *)
Fixpoint count_char (c : ascii) (s : string) : nat :=
  match s with
  | EmptyString => 0
  | String c' s' => (if Ascii.eqb c c' then 1 else 0) + count_char c s'
  end.

(** [sum(1 for w in words if w in s)] *)
Definition count_in (words : list string) (s : string) : nat :=
  List.length (List.filter (fun w => contains w s) words).

(** The exceptions the modelled code can meet. *)
Inductive exn : Type :=
| KeyError (key : string)
| IndexError
| ValueError (msg : string)
| ZeroDivisionError
| APIError (msg : string).

(** [str(e)] *)
Definition str (e : exn) : string :=
  match e with
  | KeyError k => "'" ++ k ++ "'"
  | IndexError => "list index out of range"
  | ValueError m => m
  | ZeroDivisionError => "division by zero"
  | APIError m => m
  end.

End Py.

(** ** [routellm_oai.py]: complexity classification *)

Module RouteLLM.

Inductive Level : Type := high | medium | low.

Record Indicator : Type := { keywords : list string; weight : Q }.

Definition complexity_indicators (l : Level) : Indicator :=
  match l with
  | high =>
      {| keywords := ["explain"; "analyze"; "compare"; "evaluate"; "design";
                      "architect"; "optimize"; "debug"; "refactor"; "implement";
                      "develop"; "build"; "create complex"; "algorithm"; "system"];
         weight := 8 # 10 |}
  | medium =>
      {| keywords := ["how"; "why"; "describe"; "list"; "summarize"; "create";
                      "generate"; "write"; "plan"; "outline"; "process"];
         weight := 5 # 10 |}
  | low =>
      {| keywords := ["what"; "when"; "where"; "who"; "define"; "name";
                      "count"; "find"; "show"; "get"; "is"; "are"];
         weight := 3 # 10 |}
  end.

Definition technical_terms : list string :=
  ["API"; "database"; "algorithm"; "architecture"; "framework";
   "optimization"; "performance"; "scalability"; "microservices"].

(** The local dictionary [scores]. *)
Definition scores (query_lower : string) (l : Level) : Q :=
  let config := complexity_indicators l in
  inject_Z (Z.of_nat (Py.count_in (keywords config) query_lower)) * weight config.

Record Factors : Type := {
  base_score : Q;
  length_factor : Q;
  tech_boost : Q;
  question_factor : Q
}.

Record KeywordMatches : Type := { km_high : Q; km_medium : Q; km_low : Q }.

(** The dictionary returned by [classify_complexity]. *)
Record Complexity : Type := {
  score : Q;
  level : Level;
  factors : Factors;
  keyword_matches : KeywordMatches
}.

(** The local variables of [classify_complexity], before any rounding. *)
Definition base_of (query : string) : Q * Level :=
  let query_lower := Py.lower query in
  if Py.gtb (scores query_lower high) 0 then (8 # 10, high)
  else if Py.gtb (scores query_lower medium) 0 then (5 # 10, medium)
  else (3 # 10, low).

Definition raw_length_factor (query : string) : Q :=
  Qmin (inject_Z (Z.of_nat (String.length query)) / 300) (2 # 10).

Definition raw_tech_boost (query : string) : Q :=
  Qmin (inject_Z (Z.of_nat
          (Py.count_in (List.map Py.lower technical_terms) (Py.lower query)))
        * (1 # 10))
       (2 # 10).

Definition question_marks (query : string) : nat := Py.count_char "?" query.

Definition raw_question_factor (query : string) : Q :=
  Qmin (inject_Z (Z.of_nat (question_marks query)) * (5 # 100)) (1 # 10).

Definition final_complexity (query : string) : Q :=
  Qmin (fst (base_of query) + raw_length_factor query
        + raw_tech_boost query + raw_question_factor query) 1.

Definition classify_complexity (query : string) : Complexity :=
  let query_lower := Py.lower query in
  {| score := Py.round (final_complexity query) 3;
     level := snd (base_of query);
     factors :=
       {| base_score := fst (base_of query);
          length_factor := Py.round (raw_length_factor query) 3;
          tech_boost := Py.round (raw_tech_boost query) 3;
          question_factor := Py.round (raw_question_factor query) 3 |};
     keyword_matches :=
       {| km_high := scores query_lower high;
          km_medium := scores query_lower medium;
          km_low := scores query_lower low |} |}.

(** ** [routellm_oai.py]: the router and its running statistics *)

(** One entry of the price table [self.costs] (per 1K tokens). *)
Record Price : Type := { input : Q; output : Q }.

(** [response.usage] and the part of the chat-completion response read by
    the router: the message contents of [response.choices] and the usage
    block, [None] when it is missing or empty. *)
Record Usage : Type := { prompt_tokens : nat; completion_tokens : nat }.

Record Response : Type := {
  choices : list (option string);
  usage : option Usage
}.

(** [self.client.chat.completions.create(model, user content, max_tokens)] *)
Definition Client : Type := string -> string -> nat -> Py.exn + Response.

(** The readings of [time.time()] during one call: at entry, after the
    [try] block, and for the [timestamp] field. *)
Record Clock : Type := { t_start : Q; t_end : Q; t_stamp : Q }.

(** The environment variables read by [__init__], as the strings
    [os.getenv] returns. *)
Record Env : Type := {
  OPENAI_API_KEY : option string;
  ROUTELLM_STRONG_MODEL : option string;
  ROUTELLM_WEAK_MODEL : option string;
  ROUTELLM_THRESHOLD : option string
}.

(** What [__init__] calls outside this repository: the constructor
    [OpenAI(api_key=...)] and [tiktoken.encoding_for_model(name)], each of
    which returns or raises, and the builtin [float] on a string, which
    raises [ValueError] on text that is no number (the infinities and
    NaN, which it also returns, have no counterpart in [Q]). *)
Record Platform : Type := {
  OpenAI : string -> option Py.exn;
  float : string -> Py.exn + Q;
  encoding_for_model : string -> option Py.exn
}.

Record ComplexityStats : Type := { cs_high : nat; cs_medium : nat; cs_low : nat }.

(** The attributes of a [DirectOpenAIRouteLLM] instance. *)
Record Router : Type := {
  api_key : string;
  strong_model : string;
  weak_model : string;
  threshold : Q;
  costs : gmap string Price;
  total_cost : Q;
  total_queries : nat;
  total_latency : Q;
  model_usage : gmap string nat;
  complexity_stats : ComplexityStats
}.

Record Tokens : Type := { tok_input : nat; tok_output : nat; tok_total : nat }.

(** The dictionary returned by [route_and_execute]. *)
Record Decision : Type := {
  d_query : string;
  d_response : option string;
  d_complexity : Complexity;
  d_model : string;
  d_tokens : Tokens;
  d_cost : Q;
  d_latency_ms : Q;
  d_saved : bool;
  d_success : bool;
  d_timestamp : Q
}.

Definition price_table : gmap string Price :=
  <["gpt-4o" := {| input := 5 # 1000; output := 15 # 1000 |}]>
  (<["gpt-4" := {| input := 3 # 100; output := 6 # 100 |}]>
  (<["gpt-4o-mini" := {| input := 15 # 100000; output := 6 # 10000 |}]>
  (<["gpt-4o-nano" := {| input := 15 # 1000000; output := 6 # 100000 |}]>
  (<["gpt-3.5-turbo" := {| input := 5 # 10000; output := 15 # 10000 |}]> ∅)))).

(** Truth value of an optional string: [None] and [""] are false. *)
Definition truthy (s : option string) : bool :=
  match s with
  | Some (String _ _) => true
  | _ => false
  end.

(** [DirectOpenAIRouteLLM.__init__].  The statements run in the order of
    the source: the credential check, the client, the three settings, the
    price table, the tokenizer, the counters; the first one that raises
    ends the construction. *)
Definition init (pf : Platform) (env : Env) (key : option string) : Py.exn + Router :=
  let key := if truthy key then key else OPENAI_API_KEY env in
  match key with
  | Some (String c k) =>
      match OpenAI pf (String c k) with
      | Some e => inl e
      | None =>
          let strong := default "gpt-4o-mini" (ROUTELLM_STRONG_MODEL env) in
          let weak := default "gpt-4o-nano" (ROUTELLM_WEAK_MODEL env) in
          match float pf (default "0.7" (ROUTELLM_THRESHOLD env)) with
          | inl e => inl e
          | inr threshold =>
              match encoding_for_model pf "gpt-4" with
              | Some e => inl e
              | None =>
                  inr {| api_key := String c k;
                         strong_model := strong;
                         weak_model := weak;
                         threshold := threshold;
                         costs := price_table;
                         total_cost := 0;
                         total_queries := 0;
                         total_latency := 0;
                         model_usage := <[weak := 0%nat]> (<[strong := 0%nat]> ∅);
                         complexity_stats :=
                           {| cs_high := 0; cs_medium := 0; cs_low := 0 |} |}
              end
          end
      end
  | _ =>
      inl (Py.ValueError
             "OpenAI API key not found. Set OPENAI_API_KEY environment variable or pass api_key parameter.")
  end.

(** Attribute assignments. *)
Definition set_total_cost (st : Router) (c : Q) : Router :=
  {| api_key := api_key st; strong_model := strong_model st;
     weak_model := weak_model st; threshold := threshold st;
     costs := costs st; total_cost := c;
     total_queries := total_queries st; total_latency := total_latency st;
     model_usage := model_usage st; complexity_stats := complexity_stats st |}.

Definition set_total_queries (st : Router) (n : nat) : Router :=
  {| api_key := api_key st; strong_model := strong_model st;
     weak_model := weak_model st; threshold := threshold st;
     costs := costs st; total_cost := total_cost st;
     total_queries := n; total_latency := total_latency st;
     model_usage := model_usage st; complexity_stats := complexity_stats st |}.

Definition set_total_latency (st : Router) (l : Q) : Router :=
  {| api_key := api_key st; strong_model := strong_model st;
     weak_model := weak_model st; threshold := threshold st;
     costs := costs st; total_cost := total_cost st;
     total_queries := total_queries st; total_latency := l;
     model_usage := model_usage st; complexity_stats := complexity_stats st |}.

Definition set_model_usage (st : Router) (m : gmap string nat) : Router :=
  {| api_key := api_key st; strong_model := strong_model st;
     weak_model := weak_model st; threshold := threshold st;
     costs := costs st; total_cost := total_cost st;
     total_queries := total_queries st; total_latency := total_latency st;
     model_usage := m; complexity_stats := complexity_stats st |}.

Definition set_complexity_stats (st : Router) (cs : ComplexityStats) : Router :=
  {| api_key := api_key st; strong_model := strong_model st;
     weak_model := weak_model st; threshold := threshold st;
     costs := costs st; total_cost := total_cost st;
     total_queries := total_queries st; total_latency := total_latency st;
     model_usage := model_usage st; complexity_stats := cs |}.

(** [self.complexity_stats[level] += 1] *)
Definition bump_level (cs : ComplexityStats) (l : Level) : ComplexityStats :=
  match l with
  | high => {| cs_high := S (cs_high cs); cs_medium := cs_medium cs; cs_low := cs_low cs |}
  | medium => {| cs_high := cs_high cs; cs_medium := S (cs_medium cs); cs_low := cs_low cs |}
  | low => {| cs_high := cs_high cs; cs_medium := cs_medium cs; cs_low := S (cs_low cs) |}
  end.

Definition system_prompt : string :=
  "You are a helpful AI assistant. Provide clear, concise responses.".

(** [input_tokens * price["input"] / 1000 + output_tokens * price["output"] / 1000] *)
Definition call_cost (price : Price) (input_tokens output_tokens : nat) : Q :=
  inject_Z (Z.of_nat input_tokens) * input price / 1000
  + inject_Z (Z.of_nat output_tokens) * output price / 1000.

(** [selected_model = self.strong_model if complexity_score >= self.threshold
     else self.weak_model] *)
Definition select_model (st : Router) (complexity_score : Q) : string :=
  if Py.geb complexity_score (threshold st) then strong_model st else weak_model st.

(** The model selected for a query. *)
Definition selected (st : Router) (q : string) : string :=
  select_model st (score (classify_complexity q)).

(** The usage counters of both tiers exist, and the counters agree with
    the number of queries. *)
Definition counted (st : Router) : Prop :=
  exists s w : nat,
    model_usage st !! strong_model st = Some s
    /\ model_usage st !! weak_model st = Some w
    /\ (strong_model st <> weak_model st -> (s + w)%nat = total_queries st)
    /\ (cs_high (complexity_stats st) + cs_medium (complexity_stats st)
        + cs_low (complexity_stats st))%nat = total_queries st.

Section Execution.

(** [self.tokenizer.encode], the external token encoder: it returns the
    tokens of a text or raises (tiktoken raises [ValueError] on text that
    contains a special token such as [<|endoftext|>]). *)
Variable encode : string -> Py.exn + list nat.

Definition count_tokens (text : string) : Py.exn + nat :=
  match encode text with
  | inl e => inl e
  | inr tokens => inr (List.length tokens)
  end.

(** The encoder returns the tokens of [text]. *)
Definition accepts (text : string) : Prop :=
  exists tokens, encode text = inr tokens.

(** What the [try] block leaves in the local variables
    [response_content], [input_tokens], [output_tokens] and [cost]. *)
Record Outcome : Type := {
  o_response : option string;
  o_input : nat;
  o_output : nat;
  o_cost : Q
}.

(** The body of the [try] block of [route_and_execute].  Every statement
    that can raise comes before the first assignment to [self.total_cost],
    so a raise leaves the router as it was on entry to the block. *)
Definition try_block (st : Router) (client : Client) (query : string)
    (max_tokens : nat) (selected_model : string) : Py.exn + Router * Outcome :=
  match client selected_model query max_tokens with
  | inl e => inl e
  | inr response =>
      match choices response with
      | [] => inl Py.IndexError
      | response_content :: _ =>
          match count_tokens (query ++ system_prompt) with
          | inl e => inl e
          | inr input_tokens =>
              match (if truthy response_content
                     then count_tokens (default "" response_content)
                     else inr 0%nat) with
              | inl e => inl e
              | inr output_tokens =>
                  match costs st !! selected_model with
                  | None => inl (Py.KeyError selected_model)
                  | Some price =>
                      let cost := call_cost price input_tokens output_tokens in
                      let st := set_total_cost st (total_cost st + cost) in
                      match usage response with
                      | Some u =>
                          let actual_input_tokens := prompt_tokens u in
                          let actual_output_tokens := completion_tokens u in
                          let actual_cost :=
                            call_cost price actual_input_tokens actual_output_tokens in
                          let cost := actual_cost in
                          let input_tokens := actual_input_tokens in
                          let output_tokens := actual_output_tokens in
                          let st :=
                            set_total_cost st (total_cost st - cost + actual_cost) in
                          inr (st, {| o_response := response_content;
                                      o_input := input_tokens;
                                      o_output := output_tokens;
                                      o_cost := cost |})
                      | None =>
                          inr (st, {| o_response := response_content;
                                      o_input := input_tokens;
                                      o_output := output_tokens;
                                      o_cost := cost |})
                      end
                  end
              end
          end
      end
  end.

(** The [except Exception] handler of [route_and_execute]: the error text
    becomes the response, and the query is tokenized again.  This second
    call of [count_tokens] stands outside every [try], so an exception of
    the encoder leaves the handler. *)
Definition handler (query : string) (e : Py.exn) : Py.exn + Outcome :=
  let response_content := "Error: " ++ Py.str e in
  match count_tokens query with
  | inl e' => inl e'
  | inr input_tokens =>
      inr {| o_response := Some response_content;
             o_input := input_tokens;
             o_output := 0%nat;
             o_cost := 0 |}
  end.

(** [DirectOpenAIRouteLLM.route_and_execute].  The result is the router
    after the call together with either the exception that escaped or the
    returned dictionary. *)
Definition route_and_execute (st : Router) (client : Client) (clock : Clock)
    (query : string) (max_tokens : nat) : Router * (Py.exn + Decision) :=
  let start_time := t_start clock in
  let complexity_analysis := classify_complexity query in
  let complexity_score := score complexity_analysis in
  let selected_model := select_model st complexity_score in
  let st := set_total_queries st (total_queries st + 1) in
  match model_usage st !! selected_model with
  | None => (st, inl (Py.KeyError selected_model))
  | Some n =>
      let st := set_model_usage st (<[selected_model := (n + 1)%nat]> (model_usage st)) in
      let st := set_complexity_stats st
                  (bump_level (complexity_stats st) (level complexity_analysis)) in
      let attempt : Py.exn + Router * Outcome * bool :=
        match try_block st client query max_tokens selected_model with
        | inr (st', o) => inr (st', o, true)
        | inl e =>
            match handler query e with
            | inl e' => inl e'
            | inr o => inr (st, o, false)
            end
        end in
      match attempt with
      | inl e => (st, inl e)
      | inr (st, o, success) =>
          let end_time := t_end clock in
          let latency_ms := (end_time - start_time) * 1000 in
          let st := set_total_latency st (total_latency st + latency_ms) in
          (st, inr {| d_query := query;
                      d_response := o_response o;
                      d_complexity := complexity_analysis;
                      d_model := selected_model;
                      d_tokens := {| tok_input := o_input o;
                                     tok_output := o_output o;
                                     tok_total := (o_input o + o_output o)%nat |};
                      d_cost := Py.round (o_cost o) 6;
                      d_latency_ms := Py.round latency_ms 2;
                      d_saved := String.eqb selected_model (weak_model st);
                      d_success := success;
                      d_timestamp := t_stamp clock |})
      end
  end.

(** One call made on a router: its arguments and the collaborators'
    behaviour during it. *)
Record Call : Type := {
  c_query : string;
  c_max_tokens : nat;
  c_client : Client;
  c_clock : Clock
}.

Definition step (st : Router) (c : Call) : Router * (Py.exn + Decision) :=
  route_and_execute st (c_client c) (c_clock c) (c_query c) (c_max_tokens c).

(** The router after a sequence of calls, and the results they gave. *)
Fixpoint run (st : Router) (calls : list Call) : Router :=
  match calls with
  | [] => st
  | c :: calls' => run (fst (step st c)) calls'
  end.

Fixpoint results (st : Router) (calls : list Call) : list (Py.exn + Decision) :=
  match calls with
  | [] => []
  | c :: calls' => snd (step st c) :: results (fst (step st c)) calls'
  end.

End Execution.

End RouteLLM.

(** ** [utils/metrics.py]: the metrics collector *)

#[global] Instance Qle_dec : RelDecision Qle.
Proof.
  intros x y. destruct (Qle_bool x y) eqn:E; [left | right].
  - apply Qle_bool_iff, E.
  - intros H. apply Qle_bool_iff in H. congruence.
Defined.

Module Metrics.

(** One recorded routing decision (the [metadata] dictionary is opaque to
    the collector and left out). *)
Record Sample : Type := {
  timestamp : string;
  query : string;
  route : string;
  latency_ms : Q;
  cost : Q
}.

(** The attributes of a [MetricsCollector]; the three [defaultdict]s give
    [[]], [0.0] and [0] for an absent key. *)
Record MetricsCollector : Type := {
  metrics : gmap string (list Sample);
  costs : gmap string Q;
  routes : gmap string nat;
  start_time : Q
}.

Definition init (now : Q) : MetricsCollector :=
  {| metrics := ∅; costs := ∅; routes := ∅; start_time := now |}.

(** [MetricsCollector.record_routing]; [now] is [datetime.now().isoformat()]. *)
Definition record_routing (mc : MetricsCollector) (now : string)
    (query route : string) (latency_ms cost : Q) : MetricsCollector :=
  let record := {| timestamp := now; query := query; route := route;
                   latency_ms := latency_ms; cost := cost |} in
  let m := metrics mc in
  let m := <["all" := (default [] (m !! "all") ++ [record])%list]> m in
  let m := <[route := (default [] (m !! route) ++ [record])%list]> m in
  {| metrics := m;
     costs := <[route := default 0 (costs mc !! route) + cost]> (costs mc);
     routes := <[route := (default 0%nat (routes mc !! route) + 1)%nat]> (routes mc);
     start_time := start_time mc |}.

(** [[m["latency_ms"] for m in self.metrics["all"]]] *)
Definition all_latencies (mc : MetricsCollector) : list Q :=
  List.map latency_ms (default [] (metrics mc !! "all")).

(** [sorted(xs)] *)
Definition sorted (xs : list Q) : list Q := merge_sort Qle xs.

(** [xs[i]] for an index [i >= 0] *)
Definition index (xs : list Q) (i : Z) : Py.exn + Q :=
  match xs !! Z.to_nat i with
  | Some x => inr x
  | None => inl Py.IndexError
  end.

(** [sorted(xs)[int(len(xs) * p)]] *)
Definition percentile (xs : list Q) (p : Q) : Py.exn + Q :=
  index (sorted xs) (Py.int (inject_Z (Z.of_nat (List.length xs)) * p)).

(** [statistics.mean], [statistics.median], [min] and [max] of a
    non-empty list. *)
Definition mean (xs : list Q) : Q :=
  Py.sum xs / inject_Z (Z.of_nat (List.length xs)).

Definition median (xs : list Q) : Q :=
  let s := sorted xs in
  let n := List.length xs in
  if Nat.even n
  then (nth (n / 2 - 1) s 0 + nth (n / 2) s 0) / 2
  else nth (n / 2) s 0.

Definition minimum (xs : list Q) : Q := fold_right Qmin (hd 0 xs) xs.
Definition maximum (xs : list Q) : Q := fold_right Qmax (hd 0 xs) xs.

Record LatencyStats : Type := {
  l_mean : Q;
  l_median : Q;
  l_min : Q;
  l_max : Q;
  p95 : Q;
  p99 : Q
}.

(** The dictionary returned by [get_statistics] when there are samples
    (the entries computed from the wall clock, the standard deviation and
    [most_used] are left out). *)
Record Statistics : Type := {
  total_queries : nat;
  latency : LatencyStats;
  costs_total : Q;
  costs_by_route : gmap string Q;
  routes_distribution : gmap string nat
}.

Inductive Report : Type :=
| NoMetrics (error : string)
| Stats (stats : Statistics).

(** [MetricsCollector.get_statistics] *)
Definition get_statistics (mc : MetricsCollector) : Py.exn + Report :=
  let all_latencies := all_latencies mc in
  match all_latencies with
  | [] => inr (NoMetrics "No metrics collected")
  | _ :: _ =>
      match percentile all_latencies (95 # 100) with
      | inl e => inl e
      | inr p95 =>
          match percentile all_latencies (99 # 100) with
          | inl e => inl e
          | inr p99 =>
              inr (Stats
                {| total_queries := List.length (default [] (metrics mc !! "all"));
                   latency := {| l_mean := mean all_latencies;
                                 l_median := median all_latencies;
                                 l_min := minimum all_latencies;
                                 l_max := maximum all_latencies;
                                 p95 := p95;
                                 p99 := p99 |};
                   costs_total := map_fold (fun _ c acc => acc + c) 0 (costs mc);
                   costs_by_route := costs mc;
                   routes_distribution := routes mc |})
          end
      end
  end.

End Metrics.

(** ** [combined_comparison_oai.py]: the summary table *)

Module Comparison.

(** The entries of a test result read by the analysis. *)
Record TestResult : Type := {
  method : string;
  latency_ms : Q;
  cost : Q;
  success : bool;
  model_used : string
}.

(** A table cell: a formatted number or a fixed text. *)
Inductive Cell : Type :=
| Millis (x : Q)
| Dollars (x : Q)
| Percent (x : Q)
| Text (s : string).

Record Row : Type := {
  metric : string;
  semantic_router : Cell;
  routellm : Cell;
  winner : string
}.

Definition semantic_wins : string := "Semantic Router ✓".
Definition routellm_wins : string := "RouteLLM ✓".

(** [sum(...) / len(results)] *)
Definition avg_latency (results : list TestResult) : Py.exn + Q :=
  match results with
  | [] => inl Py.ZeroDivisionError
  | _ :: _ =>
      inr (Py.sum (List.map latency_ms results)
           / inject_Z (Z.of_nat (List.length results)))
  end.

Definition total_cost (results : list TestResult) : Q :=
  Py.sum (List.map cost results).

Definition success_rate (results : list TestResult) : Py.exn + Q :=
  match results with
  | [] => inl Py.ZeroDivisionError
  | _ :: _ =>
      inr (inject_Z (Z.of_nat (List.length (List.filter success results)))
           / inject_Z (Z.of_nat (List.length results)) * 100)
  end.

(** The rows of [comparison_data] built by
    [OAIRouterComparison._generate_comparison_analysis], header row apart. *)
Definition comparison_data (semantic_results routellm_results : list TestResult)
    : Py.exn + list Row :=
  match avg_latency semantic_results with
  | inl e => inl e
  | inr sem_avg_latency =>
  match avg_latency routellm_results with
  | inl e => inl e
  | inr route_avg_latency =>
  let sem_total_cost := total_cost semantic_results in
  let route_total_cost := total_cost routellm_results in
  match success_rate semantic_results with
  | inl e => inl e
  | inr sem_success_rate =>
  match success_rate routellm_results with
  | inl e => inl e
  | inr route_success_rate =>
  inr
    [ {| metric := "Average Latency";
         semantic_router := Millis sem_avg_latency;
         routellm := Millis route_avg_latency;
         winner := if Py.ltb sem_avg_latency route_avg_latency
                   then semantic_wins else routellm_wins |};
      {| metric := "Total Cost";
         semantic_router := Dollars sem_total_cost;
         routellm := Dollars route_total_cost;
         winner := if Py.ltb sem_total_cost route_total_cost
                   then semantic_wins else routellm_wins |};
      {| metric := "Success Rate";
         semantic_router := Percent sem_success_rate;
         routellm := Percent route_success_rate;
         winner := if Py.geb sem_success_rate route_success_rate
                   then semantic_wins else routellm_wins |};
      {| metric := "Functionality";
         semantic_router := Text "Route classification only";
         routellm := Text "Full LLM responses";
         winner := routellm_wins |};
      {| metric := "Setup Complexity";
         semantic_router := Text "Simple";
         routellm := Text "Moderate";
         winner := semantic_wins |};
      {| metric := "Scalability";
         semantic_router := Text "High (embedding only)";
         routellm := Text "Medium (full inference)";
         winner := semantic_wins |};
      {| metric := "Response Quality";
         semantic_router := Text "Categories only";
         routellm := Text "Complete answers";
         winner := routellm_wins |} ]
  end end end end.

(** The "Winner" cell of the row for [name]. *)
Definition winner_of (name : string) (table : list Row) : option string :=
  winner <$> List.find (fun r => String.eqb (metric r) name) table.

End Comparison.

(** ** Concrete collaborators and configurations *)

Module Scenario.
Import RouteLLM.

(** An encoder that accepts every text and yields one token per
    character. *)
Definition one_per_char (s : string) : Py.exn + list nat :=
  inr (List.repeat 0%nat (String.length s)).

(** An encoder that refuses text containing the special token
    [<|endoftext|>], as tiktoken's [encode] does with its default
    arguments, and yields one token per character otherwise. *)
Definition strict (s : string) : Py.exn + list nat :=
  if Py.contains "<|endoftext|>" s
  then inl (Py.ValueError
              "Encountered text corresponding to disallowed special token '<|endoftext|>'.")
  else one_per_char s.

(** [float] on the decimal numerals [digits] and [digits.digits]; other
    text raises. *)
Definition digit (c : ascii) : option Z :=
  let n := nat_of_ascii c in
  if (48 <=? n)%nat && (n <=? 57)%nat then Some (Z.of_nat (n - 48)) else None.

Fixpoint decimal (s : string) (point : bool) (num : Z) (scale : positive)
    : option Q :=
  match s with
  | EmptyString => Some (num # scale)
  | String c s' =>
      match digit c with
      | Some d =>
          decimal s' point (10 * num + d)%Z (if point then (10 * scale)%positive else scale)
      | None =>
          if Ascii.eqb c "." && negb point then decimal s' true num scale else None
      end
  end.

Definition float (s : string) : Py.exn + Q :=
  match (if String.eqb s "" || String.eqb s "." then None else decimal s false 0 1) with
  | Some q => inr q
  | None => inl (Py.ValueError ("could not convert string to float: '" ++ s ++ "'"))
  end.

(** A platform on which the client and the tokenizer are available. *)
Definition platform : Platform :=
  {| RouteLLM.OpenAI := fun _ => None;
     RouteLLM.float := float;
     RouteLLM.encoding_for_model := fun _ => None |}.

(** The default configuration: only the credential is set. *)
Definition env_default : Env :=
  {| OPENAI_API_KEY := Some "sk-test-0000";
     ROUTELLM_STRONG_MODEL := None;
     ROUTELLM_WEAK_MODEL := None;
     ROUTELLM_THRESHOLD := None |}.

(** A configuration whose strong model has no entry in the price table. *)
Definition env_unpriced : Env :=
  {| OPENAI_API_KEY := Some "sk-test-0000";
     ROUTELLM_STRONG_MODEL := Some "gpt-5";
     ROUTELLM_WEAK_MODEL := None;
     ROUTELLM_THRESHOLD := None |}.

(** A client that answers every request with [content] and [u]. *)
Definition answering (content : string) (u : option Usage) : Client :=
  fun _ _ _ => inr {| choices := [Some content]; usage := u |}.

(** A client whose every request fails. *)
Definition failing (msg : string) : Client :=
  fun _ _ _ => inl (Py.APIError msg).

Definition clock0 : Clock := {| t_start := 0; t_end := 1 # 2; t_stamp := 1 |}.

(** The routers constructed from the two configurations. *)
Definition router_default : Router :=
  {| api_key := "sk-test-0000";
     strong_model := "gpt-4o-mini";
     weak_model := "gpt-4o-nano";
     threshold := 7 # 10;
     costs := price_table;
     total_cost := 0;
     total_queries := 0;
     total_latency := 0;
     model_usage := <["gpt-4o-nano" := 0%nat]> (<["gpt-4o-mini" := 0%nat]> ∅);
     complexity_stats := {| cs_high := 0; cs_medium := 0; cs_low := 0 |} |}.

Definition router_unpriced : Router :=
  {| api_key := "sk-test-0000";
     strong_model := "gpt-5";
     weak_model := "gpt-4o-nano";
     threshold := 7 # 10;
     costs := price_table;
     total_cost := 0;
     total_queries := 0;
     total_latency := 0;
     model_usage := <["gpt-4o-nano" := 0%nat]> (<["gpt-5" := 0%nat]> ∅);
     complexity_stats := {| cs_high := 0; cs_medium := 0; cs_low := 0 |} |}.

Definition init_default : init platform env_default None = inr router_default :=
  eq_refl.
Definition init_unpriced : init platform env_unpriced None = inr router_unpriced :=
  eq_refl.

Definition call (q : string) (client : Client) : Call :=
  {| c_query := q; c_max_tokens := 150; c_client := client; c_clock := clock0 |}.

(** Three recorded routings, and a single one. *)
Definition three_samples : Metrics.MetricsCollector :=
  Metrics.record_routing
    (Metrics.record_routing
       (Metrics.record_routing (Metrics.init 0)
          "2024-01-01T00:00:00" "What is Python?" "general" 420 (2 # 100000))
       "2024-01-01T00:00:01" "Explain REST API principles" "technical" 380 (2 # 100000))
    "2024-01-01T00:00:02" "Who created Linux?" "general" 510 (2 # 100000).

Definition one_sample : Metrics.MetricsCollector :=
  Metrics.record_routing (Metrics.init 0)
    "2024-01-01T00:00:00" "What is Python?" "general" 420 (2 # 100000).

(** Two result lists that tie on average latency and on total cost, and
    two on which the semantic router is strictly ahead on both. *)
Definition result (name model : string) (latency cost : Q) : Comparison.TestResult :=
  {| Comparison.method := name;
     Comparison.latency_ms := latency;
     Comparison.cost := cost;
     Comparison.success := true;
     Comparison.model_used := model |}.

Definition tie_semantic : list Comparison.TestResult :=
  [result "Semantic Router" "text-embedding-3-small" 500 (2 # 100000)].

Definition tie_routellm : list Comparison.TestResult :=
  [result "RouteLLM" "gpt-4o-nano" 500 (2 # 100000)].

Definition slow_routellm : list Comparison.TestResult :=
  [result "RouteLLM" "gpt-4o-mini" 1500 (6 # 100000)].

End Scenario.

(** ** Nearest integers *)

Module PyExtra.

(** [r] is within one half of [y], and even when it is exactly one half
    away: the integer that round-half-to-even picks. *)
Definition nearest_even (y : Q) (r : Z) : Prop :=
  (- (1 # 2) <= y - inject_Z r <= 1 # 2)
  /\ (y - inject_Z r == 1 # 2 \/ y - inject_Z r == - (1 # 2) -> Z.even r = true).

End PyExtra.

(** ** [routellm_oai.py]: batches and performance statistics *)

Module RouteLLMReport.
Import RouteLLM.

(** A keyword of the tier occurs in the lower-cased query. *)
Definition matched (l : Level) (q : string) : Prop :=
  exists w, In w (keywords (complexity_indicators l))
            /\ Py.contains w (Py.lower q) = true.

Record CostAnalysis : Type := {
  actual_cost : Q;
  hypothetical_all_strong : Q;
  hypothetical_all_weak : Q;
  savings_vs_all_strong : Q;
  savings_percent : Q
}.

Record Efficiency : Type := {
  weak_model_usage_percent : Q;
  strong_model_usage_percent : Q
}.

(** The dictionary returned by [get_performance_stats] once a query has
    been processed. *)
Record PerformanceStats : Type := {
  ps_total_queries : nat;
  ps_total_cost : Q;
  average_cost_per_query : Q;
  average_latency_ms : Q;
  ps_model_usage : gmap string nat;
  complexity_distribution : ComplexityStats;
  cost_analysis : CostAnalysis;
  efficiency : Efficiency
}.

Inductive PerformanceReport : Type :=
| NoQueries (error : string)
| Performance (stats : PerformanceStats).

(** [DirectOpenAIRouteLLM.get_performance_stats].  The quotients and
    products are exact here and computed in binary floating point by
    Python, so a reported figure can differ in its last digit where the
    exact value is a rounding tie: 23 weak calls out of 160 give the exact
    14.375, reported as 14.38, and the float 14.374999999999998, reported
    as 14.37. *)
Definition get_performance_stats (st : Router) : Py.exn + PerformanceReport :=
  if Nat.eqb (total_queries st) 0
  then inr (NoQueries "No queries processed yet")
  else
    let n := inject_Z (Z.of_nat (total_queries st)) in
    let avg_latency := total_latency st / n in
    let hypothetical_all_strong := n * (2 # 1000) in
    let hypothetical_all_weak := n * (1 # 10000) in
    let savings_vs_all_strong := hypothetical_all_strong - total_cost st in
    let savings_percent :=
      if Py.gtb hypothetical_all_strong 0
      then savings_vs_all_strong / hypothetical_all_strong * 100 else 0 in
    match model_usage st !! weak_model st with
    | None => inl (Py.KeyError (weak_model st))
    | Some weak_usage =>
        match model_usage st !! strong_model st with
        | None => inl (Py.KeyError (strong_model st))
        | Some strong_usage =>
            inr (Performance
              {| ps_total_queries := total_queries st;
                 ps_total_cost := Py.round (total_cost st) 6;
                 average_cost_per_query := Py.round (total_cost st / n) 6;
                 average_latency_ms := Py.round avg_latency 2;
                 ps_model_usage := model_usage st;
                 complexity_distribution := complexity_stats st;
                 cost_analysis :=
                   {| actual_cost := Py.round (total_cost st) 6;
                      hypothetical_all_strong := Py.round hypothetical_all_strong 6;
                      hypothetical_all_weak := Py.round hypothetical_all_weak 6;
                      savings_vs_all_strong := Py.round savings_vs_all_strong 6;
                      savings_percent := Py.round savings_percent 2 |};
                 efficiency :=
                   {| weak_model_usage_percent :=
                        Py.round (inject_Z (Z.of_nat weak_usage) / n * 100) 2;
                      strong_model_usage_percent :=
                        Py.round (inject_Z (Z.of_nat strong_usage) / n * 100) 2 |} |})
        end
    end.

Section Batch.

Variable encode : string -> Py.exn + list nat.

(** One query of a batch with what the collaborators do while it is
    processed. *)
Record BatchItem : Type := {
  b_query : string;
  b_client : Client;
  b_clock : Clock
}.

(** The loop of [batch_route_and_execute]: every query is routed with the
    default [max_tokens = 150] and its result appended to [results]. *)
Fixpoint batch_loop (st : Router) (queries : list BatchItem)
    : Router * (Py.exn + list Decision) :=
  match queries with
  | [] => (st, inr [])
  | item :: rest =>
      match route_and_execute encode st (b_client item) (b_clock item)
              (b_query item) 150 with
      | (st', inl e) => (st', inl e)
      | (st', inr result) =>
          match batch_loop st' rest with
          | (st'', inl e) => (st'', inl e)
          | (st'', inr results) => (st'', inr (result :: results))
          end
      end
  end.

(** [DirectOpenAIRouteLLM.batch_route_and_execute]: after the loop the
    average latency [batch_time / len(queries)] is computed for the
    progress message. *)
Definition batch_route_and_execute (st : Router) (queries : list BatchItem)
    : Router * (Py.exn + list Decision) :=
  match batch_loop st queries with
  | (st', inl e) => (st', inl e)
  | (st', inr results) =>
      match queries with
      | [] => (st', inl Py.ZeroDivisionError)
      | _ :: _ => (st', inr results)
      end
  end.

(** The calls of a history that returned a dictionary. *)
Fixpoint completed (st : Router) (calls : list Call) : list Call :=
  match calls with
  | [] => []
  | c :: calls' =>
      match step encode st c with
      | (st', inr _) => c :: completed st' calls'
      | (st', inl _) => completed st' calls'
      end
  end.

End Batch.

End RouteLLMReport.

(** ** [utils/metrics.py]: histories of recordings *)

Module MetricsRun.
Import Metrics.

(** [record_routing] called with the entries of a sample. *)
Definition record (mc : MetricsCollector) (s : Sample) : MetricsCollector :=
  record_routing mc (timestamp s) (query s) (route s) (latency_ms s) (cost s).

(** A fresh collector after the recordings [ss], oldest first. *)
Definition record_all (mc : MetricsCollector) (ss : list Sample) : MetricsCollector :=
  fold_left record ss mc.

(** The recordings made for route [r]. *)
Definition routed_to (r : string) (ss : list Sample) : list Sample :=
  List.filter (fun s => String.eqb (route s) r) ss.

(** What the list under the key ["all"] holds after the recordings [ss]:
    every sample once, and twice when its route is itself named "all". *)
Definition all_entries (ss : list Sample) : list Sample :=
  List.flat_map (fun s => if String.eqb (route s) "all" then [s; s] else [s]) ss.

(** [sum(self.costs.values())] *)
Definition cost_sum (m : gmap string Q) : Q :=
  map_fold (fun _ c acc => acc + c) 0 m.

End MetricsRun.

(** ** [combined_comparison_oai.py]: the model usage analysis *)

Module ComparisonReport.
Import Comparison.

(** The figures printed under "RouteLLM Model Usage Analysis"; the cost
    savings (amount and percentage) are printed only for a positive
    total cost. *)
Record UsageAnalysis : Type := {
  strong_model_usage : nat;
  weak_model_usage : nat;
  strong_percent : Q;
  weak_percent : Q;
  cost_savings : option (Q * Q)
}.

(** [sum(1 for r in routellm_results if 'gpt-4' in r.get('model_used', ''))] *)
Definition count_strong (routellm_results : list TestResult) : nat :=
  List.length (List.filter (fun r => Py.contains "gpt-4" (model_used r))
                 routellm_results).

(** The analysis that follows the table in
    [OAIRouterComparison._generate_comparison_analysis]; nothing is printed
    for an empty list. *)
Definition usage_analysis (routellm_results : list TestResult)
    : option UsageAnalysis :=
  let strong_model_usage := count_strong routellm_results in
  let weak_model_usage := (List.length routellm_results - strong_model_usage)%nat in
  let route_total_cost := total_cost routellm_results in
  match routellm_results with
  | [] => None
  | _ :: _ =>
      let n := inject_Z (Z.of_nat (List.length routellm_results)) in
      Some {| strong_model_usage := strong_model_usage;
              weak_model_usage := weak_model_usage;
              strong_percent := inject_Z (Z.of_nat strong_model_usage) / n * 100;
              weak_percent := inject_Z (Z.of_nat weak_model_usage) / n * 100;
              cost_savings :=
                if Py.gtb route_total_cost 0
                then
                  let hypothetical_all_strong := n * (2 # 1000) in
                  let savings := hypothetical_all_strong - route_total_cost in
                  let savings_percent :=
                    if Py.gtb hypothetical_all_strong 0
                    then savings / hypothetical_all_strong * 100 else 0 in
                  Some (savings, savings_percent)
                else None |}
  end.

End ComparisonReport.

(** ** [semantic_router_oai.py]: the fixed-category router's bookkeeping *)

Module SemanticRouter.

(** A route name as the code meets it: a string, or [None]. *)
Definition Key : Type := option string.

(** An insertion-ordered dictionary from route names to counts:
    [d.get(k)] and [d[k] = v]. *)
Fixpoint get (d : list (Key * nat)) (k : Key) : option nat :=
  match d with
  | [] => None
  | (k', v) :: d' => if decide (k = k') then Some v else get d' k
  end.

Fixpoint set (d : list (Key * nat)) (k : Key) (v : nat) : list (Key * nat) :=
  match d with
  | [] => [(k, v)]
  | (k', v') :: d' =>
      if decide (k = k') then (k, v) :: d' else (k', v') :: set d' k v
  end.

(** [max(d, key=d.get)] on a non-empty dictionary: the first key, in
    insertion order, whose count is maximal. *)
Definition first_max (best : Key * nat) (d : list (Key * nat)) : Key * nat :=
  fold_left (fun best kv => if (snd best <? snd kv)%nat then kv else best) d best.

Definition most_used (d : list (Key * nat)) : option Key :=
  match d with
  | [] => None
  | kv :: d' => Some (fst (first_max kv d'))
  end.

(** The object at [route_decision.route], as far as it is probed: its
    truth value, its [name] attribute when it has one, and [str] of it. *)
Record Inner : Type := {
  inner_truth : bool;
  inner_name : option Key;
  inner_repr : string
}.

(** A value returned by the route layer that is not [None], as far as
    [route_query] probes it: its truth value, the attribute [name] when it
    has one, the string it is when it is a [str], the attribute [route]
    when it has one, [str] of it, and the attribute [score] when it has
    one (a number or [None]). *)
Record Reply : Type := {
  truth : bool;
  name_attr : option Key;
  str_value : option string;
  route_attr : option Inner;
  repr : string;
  score_attr : option (option Q)
}.

(** [self.router(query)]: it raises, or returns [None] or an object. *)
Definition RouteLayer : Type := string -> Py.exn + option Reply.

(** The performance counters of a [DirectOpenAISemanticRouter]. *)
Record Router : Type := {
  total_queries : nat;
  total_latency : Q;
  route_usage : list (Key * nat)
}.

(** The counters as [__init__] sets them. *)
Definition fresh : Router :=
  {| total_queries := 0; total_latency := 0; route_usage := [] |}.

(** The dictionary returned by [route_query]; [confidence] is [None] when
    the key is absent. *)
Record Result : Type := {
  query : string;
  route : Key;
  latency_ms : Q;
  timestamp : Q;
  success : bool;
  confidence : option Q
}.

(** [round(None, 3)] raises [TypeError]. *)
Inductive exn : Type := TypeError (msg : string).

(** [if route_decision:] *)
Definition truthy (route_decision : option Reply) : bool :=
  match route_decision with
  | Some r => truth r
  | None => false
  end.

(** The name extracted from the decision ("Handle different response
    formats"). *)
Definition route_name_of (route_decision : option Reply) : Key :=
  match route_decision with
  | Some r =>
      if truth r then
        match name_attr r with
        | Some name => name
        | None =>
            match str_value r with
            | Some s => Some s
            | None =>
                match route_attr r with
                | Some inner =>
                    if inner_truth inner then
                      match inner_name inner with
                      | Some name => name
                      | None => Some (inner_repr inner)
                      end
                    else Some (repr r)
                | None => Some (repr r)
                end
            end
        end
      else Some "no_match"
  | None => Some "no_match"
  end.

(** [DirectOpenAISemanticRouter.route_query] *)
Definition route_query (st : Router) (router : RouteLayer) (clock : RouteLLM.Clock)
    (query : string) (include_confidence : bool) : Router * (exn + Result) :=
  let start_time := RouteLLM.t_start clock in
  let route_decision :=
    match router query with
    | inr decision => decision
    | inl e => None
    end in
  let end_time := RouteLLM.t_end clock in
  let latency_ms := (end_time - start_time) * 1000 in
  let route_name := route_name_of route_decision in
  let st :=
    {| total_queries := total_queries st + 1;
       total_latency := total_latency st + latency_ms;
       route_usage :=
         set (route_usage st) route_name
           (default 0%nat (get (route_usage st) route_name) + 1) |} in
  let result (confidence : option Q) :=
    {| query := query;
       route := route_name;
       latency_ms := Py.round latency_ms 2;
       timestamp := RouteLLM.t_stamp clock;
       success := match route_decision with Some _ => true | None => false end;
       confidence := confidence |} in
  if include_confidence && truthy route_decision then
    match route_decision with
    | Some {| score_attr := Some (Some score) |} =>
        (st, inr (result (Some (Py.round score 3))))
    | Some {| score_attr := Some None |} =>
        (st, inl (TypeError "type NoneType doesn't define __round__ method"))
    | _ => (st, inr (result None))
    end
  else (st, inr (result None)).

(** One call of [route_query] and what the route layer and the clock do
    during it. *)
Record Call : Type := {
  c_query : string;
  c_include_confidence : bool;
  c_router : RouteLayer;
  c_clock : RouteLLM.Clock
}.

Definition step (st : Router) (c : Call) : Router * (exn + Result) :=
  route_query st (c_router c) (c_clock c) (c_query c) (c_include_confidence c).

Fixpoint run (st : Router) (calls : list Call) : Router :=
  match calls with
  | [] => st
  | c :: calls' => run (fst (step st c)) calls'
  end.

(** [sum(d.values())] *)
Definition total (d : list (Key * nat)) : nat :=
  fold_right (fun kv acc => (snd kv + acc)%nat) 0%nat d.

(** The dictionary returned by [get_performance_stats] once a query has
    been routed. *)
Record PerformanceStats : Type := {
  ps_total_queries : nat;
  total_latency_ms : Q;
  average_latency_ms : Q;
  routes_used : nat;
  route_distribution : list (Key * nat);
  most_used_route : option Key;
  success_rate : Q
}.

Inductive PerformanceReport : Type :=
| NoQueries (error : string)
| Performance (stats : PerformanceStats).

(** [DirectOpenAISemanticRouter.get_performance_stats] *)
Definition get_performance_stats (st : Router) : PerformanceReport :=
  if Nat.eqb (total_queries st) 0
  then NoQueries "No queries processed yet"
  else
    let n := inject_Z (Z.of_nat (total_queries st)) in
    let avg_latency := total_latency st / n in
    Performance
      {| ps_total_queries := total_queries st;
         total_latency_ms := Py.round (total_latency st) 2;
         average_latency_ms := Py.round avg_latency 2;
         routes_used := List.length (route_usage st);
         route_distribution := route_usage st;
         most_used_route := most_used (route_usage st);
         success_rate :=
           Py.round
             ((1 - inject_Z (Z.of_nat
                       (default 0%nat (get (route_usage st) (Some "no_match"))))
                   / n) * 100) 2 |}.

(** The value bound to [route_decision] after the [try]. *)
Definition decision_of (router : RouteLayer) (query : string) : option Reply :=
  match router query with
  | inr decision => decision
  | inl _ => None
  end.

(** The bookkeeping invariant: the counts add up to the number of
    queries, no key is repeated and every count is at least 1. *)
Definition tallied (st : Router) : Prop :=
  total (route_usage st) = total_queries st
  /\ List.NoDup (List.map fst (route_usage st))
  /\ List.Forall (fun kv => (1 <= snd kv)%nat) (route_usage st).

End SemanticRouter.

(** ** [combined_comparison_oai.py]: running both routers *)

Module Harness.
Import Comparison.

(** What the two [except Exception] clauses can catch: an exception of
    the adaptive router, one of the fixed-category router, or the
    [TypeError] of [len(None)]. *)
Inductive exn : Type :=
| FromRouteLLM (e : Py.exn)
| FromSemanticRouter (e : SemanticRouter.exn)
| TypeError (msg : string).

(** [str(e)] *)
Definition str (e : exn) : string :=
  match e with
  | FromRouteLLM e => Py.str e
  | FromSemanticRouter (SemanticRouter.TypeError msg) => msg
  | TypeError msg => msg
  end.

(** A dictionary returned by [semantic_route_test] or [routellm_test]:
    the entries the analysis reads, and the others; the last three are
    [None] where the dictionary has no such key. *)
Record Entry : Type := {
  entry : TestResult;
  query : string;
  route : SemanticRouter.Key;
  response_type : string;
  complexity : option Q;
  tokens_used : option nat;
  response_preview : option string
}.

(** The attributes of an [OAIRouterComparison]. *)
Record State : Type := {
  semantic_router : SemanticRouter.Router;
  routellm : RouteLLM.Router
}.

(** [text[:100] + "..." if len(text) > 100 else text] *)
Definition preview (text : string) : string :=
  if (100 <? String.length text)%nat
  then String.substring 0 100 text ++ "..."
  else text.

(** [OAIRouterComparison.semantic_route_test]; [now] is the clock reading
    taken by the handler. *)
Definition semantic_route_test (st : SemanticRouter.Router)
    (router : SemanticRouter.RouteLayer) (clock : RouteLLM.Clock) (now : Q)
    (query : string) : SemanticRouter.Router * Entry :=
  let start := RouteLLM.t_start clock in
  match SemanticRouter.route_query st router clock query false with
  | (st', inr result) =>
      (st', {| entry :=
                 {| method := "Semantic Router";
                    latency_ms := SemanticRouter.latency_ms result;
                    cost := 2 # 100000;
                    success := SemanticRouter.success result;
                    model_used := "text-embedding-3-small" |};
               query := query;
               route := SemanticRouter.route result;
               response_type := "Route Classification Only";
               complexity := None;
               tokens_used := None;
               response_preview := None |})
  | (st', inl e) =>
      (st', {| entry :=
                 {| method := "Semantic Router";
                    latency_ms := (now - start) * 1000;
                    cost := 0;
                    success := false;
                    model_used := "text-embedding-3-small" |};
               query := query;
               route := Some "error";
               response_type := "Error: " ++ str (FromSemanticRouter e);
               complexity := None;
               tokens_used := None;
               response_preview := None |})
  end.

(** The dictionary built by the handler of [routellm_test]. *)
Definition routellm_error (query : string) (e : exn) : Entry :=
  {| entry :=
       {| method := "RouteLLM";
          latency_ms := 0;
          cost := 0;
          success := false;
          model_used := "unknown" |};
     query := query;
     route := Some "error";
     response_type := "Error: " ++ str e;
     complexity := Some 0;
     tokens_used := Some 0%nat;
     response_preview := Some "" |}.

Section Tests.

Variable encode : string -> Py.exn + list nat.

(** [OAIRouterComparison.routellm_test] *)
Definition routellm_test (st : RouteLLM.Router) (client : RouteLLM.Client)
    (clock : RouteLLM.Clock) (query : string) : RouteLLM.Router * Entry :=
  match RouteLLM.route_and_execute encode st client clock query 100 with
  | (st', inr result) =>
      match RouteLLM.d_response result with
      | Some text =>
          (st', {| entry :=
                     {| method := "RouteLLM";
                        latency_ms := RouteLLM.d_latency_ms result;
                        cost := RouteLLM.d_cost result;
                        success := RouteLLM.d_success result;
                        model_used := RouteLLM.d_model result |};
                   query := query;
                   route := Some (RouteLLM.d_model result);
                   response_type := "Full LLM Response";
                   complexity := Some (RouteLLM.score (RouteLLM.d_complexity result));
                   tokens_used := Some (RouteLLM.tok_total (RouteLLM.d_tokens result));
                   response_preview := Some (preview text) |})
      | None =>
          (st', routellm_error query
                  (TypeError "object of type 'NoneType' has no len()"))
      end
  | (st', inl e) => (st', routellm_error query (FromRouteLLM e))
  end.

(** One query of the comparison with what the collaborators do while the
    two routers process it. *)
Record Item : Type := {
  i_query : string;
  i_router : SemanticRouter.RouteLayer;
  i_semantic_clock : RouteLLM.Clock;
  i_now : Q;
  i_client : RouteLLM.Client;
  i_routellm_clock : RouteLLM.Clock
}.

(** The loop of [compare_routers_comprehensive]: both tests are run for
    every query and their results appended to the two lists. *)
Fixpoint compare_loop (st : State) (items : list Item)
    : State * (list Entry * list Entry) :=
  match items with
  | [] => (st, ([], []))
  | item :: rest =>
      let '(sem, semantic_result) :=
        semantic_route_test (semantic_router st) (i_router item)
          (i_semantic_clock item) (i_now item) (i_query item) in
      let '(rl, routellm_result) :=
        routellm_test (routellm st) (i_client item) (i_routellm_clock item)
          (i_query item) in
      let '(st', (semantic_results, routellm_results)) :=
        compare_loop {| semantic_router := sem; routellm := rl |} rest in
      (st', (semantic_result :: semantic_results,
             routellm_result :: routellm_results))
  end.

(** [compare_routers_comprehensive] up to the summary table. *)
Definition compare_routers (st : State) (items : list Item)
    : State * (Py.exn + list Row) :=
  let '(st', (semantic_results, routellm_results)) := compare_loop st items in
  (st', comparison_data (List.map entry semantic_results)
          (List.map entry routellm_results)).

End Tests.

End Harness.

(** ** More concrete collaborators *)

Module ScenarioExtra.
Import RouteLLM RouteLLMReport.

(** A client whose response has no choices. *)
Definition silent : Client :=
  fun _ _ _ => inr {| choices := []; usage := None |}.

Definition item (q : string) (client : Client) : BatchItem :=
  {| b_query := q; b_client := client; b_clock := Scenario.clock0 |}.

(** Results of a router with the default model names. *)
Definition default_results : list Comparison.TestResult :=
  [Scenario.result "RouteLLM" "gpt-4o-nano" 900 (1 # 1000000);
   Scenario.result "RouteLLM" "gpt-4o-mini" 1200 (9 # 1000000);
   Scenario.result "RouteLLM" "gpt-4o-nano" 800 (1 # 1000000)].

(** A client whose message has no content. *)
Definition empty_content : Client :=
  fun _ _ _ => inr {| choices := [None]; usage := None |}.

(** A history of two calls: one that fails and one that is answered. *)
Definition two_calls : list Call :=
  [Scenario.call "Who created Linux?" (Scenario.failing "quota");
   Scenario.call "Explain recursion" (Scenario.answering "ok" None)].

(** A history of three calls: the second fails on a query that contains a
    special token. *)
Definition three_calls : list Call :=
  [Scenario.call "Who created Linux?" (Scenario.failing "quota");
   Scenario.call "What does <|endoftext|> mean?" (Scenario.failing "rate limit");
   Scenario.call "Explain recursion" (Scenario.answering "ok" None)].

End ScenarioExtra.

(** * Properties *)

(** ** Rounding on exact rationals *)

Module PyFacts.
Import Py.

Lemma floor_unique (x : Q) (z : Z) :
  inject_Z z <= x -> x < inject_Z (z + 1) -> Qfloor x = z.
Proof.
  intros Hlo Hhi.
  assert (H1 : (z <= Qfloor x)%Z).
  { rewrite <- (Qfloor_Z z). apply Qfloor_resp_le, Hlo. }
  assert (H2 : (Qfloor x < z + 1)%Z).
  { rewrite Zlt_Qlt. eapply Qle_lt_trans; [apply Qfloor_le | exact Hhi]. }
  lia.
Qed.

Lemma floor_add_Z (k : Z) (q : Q) : Qfloor (inject_Z k + q) = (k + Qfloor q)%Z.
Proof.
  apply floor_unique.
  - rewrite inject_Z_plus. pose proof (Qfloor_le q). lra.
  - replace (k + Qfloor q + 1)%Z with (k + (Qfloor q + 1))%Z by lia.
    rewrite inject_Z_plus. pose proof (Qlt_floor q). lra.
Qed.

#[global] Instance round_half_even_comp : Proper (Qeq ==> eq) round_half_even.
Proof.
  intros x y E. unfold round_half_even.
  rewrite (Qfloor_comp _ _ E).
  assert (E' : x - inject_Z (Qfloor y) == y - inject_Z (Qfloor y)) by (rewrite E; reflexivity).
  rewrite (Qcompare_comp _ _ E' _ _ (Qeq_refl (1 # 2))). reflexivity.
Qed.

Lemma round_half_even_Z (z : Z) : round_half_even (inject_Z z) = z.
Proof.
  unfold round_half_even. rewrite Qfloor_Z.
  destruct (Qcompare_spec (inject_Z z - inject_Z z) (1 # 2)) as [H|H|H];
    [exfalso; lra | reflexivity | exfalso; lra].
Qed.

Lemma round_half_even_add_even (k : Z) (q : Q) :
  Z.even k = true ->
  round_half_even (inject_Z k + q) = (k + round_half_even q)%Z.
Proof.
  intros Hk. unfold round_half_even. rewrite floor_add_Z.
  assert (E : inject_Z k + q - inject_Z (k + Qfloor q) == q - inject_Z (Qfloor q)).
  { rewrite inject_Z_plus. ring. }
  rewrite (Qcompare_comp _ _ E _ _ (Qeq_refl (1 # 2))).
  rewrite Z.even_add, Hk.
  destruct (Qcompare (q - inject_Z (Qfloor q)) (1 # 2)); try lia.
  destruct (Z.even (Qfloor q)); simpl; lia.
Qed.

Lemma round_half_even_mono (x y : Q) :
  x <= y -> (round_half_even x <= round_half_even y)%Z.
Proof.
  intros Hxy. pose proof (Qfloor_resp_le _ _ Hxy) as Hf.
  unfold round_half_even.
  destruct (Z.eq_dec (Qfloor x) (Qfloor y)) as [Heq | Hne].
  - rewrite Heq.
    destruct (Qcompare_spec (x - inject_Z (Qfloor y)) (1 # 2)) as [H|H|H];
    destruct (Qcompare_spec (y - inject_Z (Qfloor y)) (1 # 2)) as [H'|H'|H'];
      try lia; try (exfalso; lra);
      destruct (Z.even (Qfloor y)); lia.
  - assert (Qfloor x + 1 <= Qfloor y)%Z by lia.
    destruct (Qcompare (x - inject_Z (Qfloor x)) (1 # 2));
    destruct (Qcompare (y - inject_Z (Qfloor y)) (1 # 2));
      try destruct (Z.even (Qfloor x)); try destruct (Z.even (Qfloor y)); lia.
Qed.

Lemma pow10_pos (n : nat) : 0 < pow10 n.
Proof.
  unfold pow10. change 0 with (inject_Z 0). rewrite <- Zlt_Qlt.
  apply Z.pow_pos_nonneg; lia.
Qed.

#[global] Instance round_comp : Proper (Qeq ==> eq ==> Qeq) round.
Proof.
  intros x y E n ? <-. unfold round.
  assert (E' : x * pow10 n == y * pow10 n) by (rewrite E; reflexivity).
  rewrite (round_half_even_comp _ _ E'). reflexivity.
Qed.

Lemma round_mono (x y : Q) (n : nat) : x <= y -> round x n <= round y n.
Proof.
  intros Hxy. unfold round. pose proof (pow10_pos n) as Hp.
  apply Qmult_le_compat_r.
  - rewrite <- Zle_Qle. apply round_half_even_mono.
    apply Qmult_le_compat_r; [exact Hxy | apply Qlt_le_weak, Hp].
  - apply Qlt_le_weak, Qinv_lt_0_compat, Hp.
Qed.

(** A decimal with at most [n] digits after the point is left as it is. *)
Lemma round_decimal (z : Z) (n : nat) :
  round (inject_Z z / pow10 n) n == inject_Z z / pow10 n.
Proof.
  unfold round. pose proof (pow10_pos n) as Hp.
  assert (E : inject_Z z / pow10 n * pow10 n == inject_Z z) by (field; lra).
  rewrite (round_half_even_comp _ _ E), round_half_even_Z. reflexivity.
Qed.

(** Adding an even number of units in the last place commutes with rounding. *)
Lemma round_add_even (k : Z) (y : Q) (n : nat) :
  Z.even k = true ->
  round (inject_Z k / pow10 n + y) n == inject_Z k / pow10 n + round y n.
Proof.
  intros Hk. unfold round. pose proof (pow10_pos n) as Hp.
  assert (E : (inject_Z k / pow10 n + y) * pow10 n == inject_Z k + y * pow10 n)
    by (field; lra).
  rewrite (round_half_even_comp _ _ E), round_half_even_add_even by exact Hk.
  rewrite inject_Z_plus. field. lra.
Qed.

Lemma round_min (x c : Q) (n : nat) :
  round (Qmin x c) n == Qmin (round x n) (round c n).
Proof.
  symmetry. apply (Q.min_mono (fun q => round q n)).
  - intros a b E. apply round_comp; [exact E | reflexivity].
  - intros a b Hab. apply round_mono, Hab.
Qed.

End PyFacts.

(** ** The complexity classifier *)

Module ClassifierProps.
Import Py PyFacts RouteLLM.

Lemma even_milli_plus (x y : Q) : even_milli x -> even_milli y -> even_milli (x + y).
Proof.
  intros (a & Ha & Ea) (b & Hb & Eb). exists (a + b)%Z. split.
  - rewrite Z.even_add, Ha, Hb. reflexivity.
  - rewrite Ea, Eb, inject_Z_plus. pose proof (pow10_pos 3). field. lra.
Qed.

Lemma even_milli_round (x : Q) : even_milli x -> round x 3 == x.
Proof.
  intros (k & _ & E). rewrite (round_comp _ _ E 3%nat 3%nat eq_refl), E.
  apply round_decimal.
Qed.

Lemma inject_nat_ge_2 (n : nat) : 2 <= inject_Z (Z.of_nat (S (S n))).
Proof. change 2 with (inject_Z 2). rewrite <- Zle_Qle. lia. Qed.

(** A capped count takes one of three values. *)
Lemma capped_count_cases (n : nat) (unit : Q) :
  0 <= unit ->
  Qmin (inject_Z (Z.of_nat n) * unit) (2 * unit) == 0
  \/ Qmin (inject_Z (Z.of_nat n) * unit) (2 * unit) == unit
  \/ Qmin (inject_Z (Z.of_nat n) * unit) (2 * unit) == 2 * unit.
Proof.
  intros Hu. destruct n as [| [| n]].
  - left. change (inject_Z (Z.of_nat 0)) with 0. rewrite Q.min_l; lra.
  - right; left. change (inject_Z (Z.of_nat 1)) with 1. rewrite Q.min_l; lra.
  - right; right. apply Q.min_r.
    pose proof (inject_nat_ge_2 n) as H2.
    apply Qmult_le_compat_r; assumption.
Qed.

Lemma raw_tech_boost_cases (q : string) :
  raw_tech_boost q == 0 \/ raw_tech_boost q == 1 # 10 \/ raw_tech_boost q == 2 # 10.
Proof.
  unfold raw_tech_boost.
  destruct (capped_count_cases
              (count_in (List.map lower technical_terms) (lower q)) (1 # 10))
    as [H | [H | H]]; [lra | | |].
  - left. rewrite <- H. apply Q.min_compat; reflexivity.
  - right; left. rewrite <- H at 2. apply Q.min_compat; reflexivity.
  - right; right. transitivity (2 * (1 # 10)); [| reflexivity].
    rewrite <- H. apply Q.min_compat; reflexivity.
Qed.

Lemma raw_question_factor_cases (q : string) :
  raw_question_factor q == 0 \/ raw_question_factor q == 5 # 100
  \/ raw_question_factor q == 1 # 10.
Proof.
  unfold raw_question_factor.
  destruct (capped_count_cases (question_marks q) (5 # 100)) as [H | [H | H]]; [lra | | |].
  - left. rewrite <- H. apply Q.min_compat; reflexivity.
  - right; left. rewrite <- H at 2. apply Q.min_compat; reflexivity.
  - right; right. transitivity (2 * (5 # 100)); [| reflexivity].
    rewrite <- H. apply Q.min_compat; reflexivity.
Qed.

Lemma base_cases (q : string) :
  base_of q = (8 # 10, high) \/ base_of q = (5 # 10, medium) \/ base_of q = (3 # 10, low).
Proof.
  unfold base_of.
  destruct (gtb (scores (lower q) high) 0); [auto |].
  destruct (gtb (scores (lower q) medium) 0); auto.
Qed.

Ltac even_milli_const k :=
  exists k; split; [reflexivity | first [assumption | reflexivity | idtac]].

Lemma even_milli_base (q : string) : even_milli (fst (base_of q)).
Proof.
  destruct (base_cases q) as [E | [E | E]]; rewrite E; cbn [fst].
  - even_milli_const 800%Z.
  - even_milli_const 500%Z.
  - even_milli_const 300%Z.
Qed.

Lemma even_milli_tech_boost (q : string) : even_milli (raw_tech_boost q).
Proof.
  destruct (raw_tech_boost_cases q) as [E | [E | E]].
  - exists 0%Z; split; [reflexivity | rewrite E; reflexivity].
  - exists 100%Z; split; [reflexivity | rewrite E; reflexivity].
  - exists 200%Z; split; [reflexivity | rewrite E; reflexivity].
Qed.

Lemma even_milli_question_factor (q : string) : even_milli (raw_question_factor q).
Proof.
  destruct (raw_question_factor_cases q) as [E | [E | E]].
  - exists 0%Z; split; [reflexivity | rewrite E; reflexivity].
  - exists 50%Z; split; [reflexivity | rewrite E; reflexivity].
  - exists 100%Z; split; [reflexivity | rewrite E; reflexivity].
Qed.

Lemma raw_length_factor_bounds (q : string) :
  0 <= raw_length_factor q <= 2 # 10.
Proof.
  unfold raw_length_factor. split; [| apply Q.le_min_r].
  apply Q.min_glb; [| lra].
  assert (0 <= inject_Z (Z.of_nat (String.length q))).
  { change 0 with (inject_Z 0). rewrite <- Zle_Qle. lia. }
  unfold Qdiv. apply Qmult_le_0_compat; [assumption | apply Qinv_le_0_compat; lra].
Qed.

Lemma round_within (x lo hi : Q) (n : nat) :
  round lo n == lo -> round hi n == hi -> lo <= x <= hi -> lo <= round x n <= hi.
Proof.
  intros Hlo Hhi [H1 H2]. split.
  - rewrite <- Hlo. apply round_mono, H1.
  - rewrite <- Hhi. apply round_mono, H2.
Qed.

Lemma round3_0 : round 0 3 == 0.
Proof. reflexivity. Qed.

Lemma round3_1 : round 1 3 == 1.
Proof. reflexivity. Qed.

(** Rounding the sum moves to the one summand that is not a multiple of
    0.002. *)
Lemma round_sum_shift (b l t u : Q) :
  even_milli (b + t + u) ->
  round (b + l + t + u) 3 == b + round l 3 + t + u.
Proof.
  intros (k & Hk & Ek).
  assert (E : b + l + t + u == inject_Z k / pow10 3 + l) by (rewrite <- Ek; ring).
  rewrite (round_comp _ _ E 3%nat 3%nat eq_refl), round_add_even by exact Hk.
  rewrite <- Ek. ring.
Qed.

(** The returned score in terms of the returned factors. *)
Lemma score_from_factors (q : string) :
  score (classify_complexity q)
  == Qmin (fst (base_of q) + round (raw_length_factor q) 3
           + raw_tech_boost q + raw_question_factor q) 1.
Proof.
  cbn [score classify_complexity]. unfold final_complexity.
  rewrite round_min.
  apply Q.min_compat; [| apply round3_1].
  apply round_sum_shift.
  apply even_milli_plus; [apply even_milli_plus |].
  - apply even_milli_base.
  - apply even_milli_tech_boost.
  - apply even_milli_question_factor.
Qed.

(** C2. For every query, the score returned by [classify_complexity]
    lies in [0,1] and is the minimum of 1.0 and the sum of the four factors
    of the returned breakdown; every factor is non-negative and capped:
    the base score at 0.8, the length factor at 0.2, the technical-term
    boost at 0.2 and the question factor at 0.1. *)
Theorem classify_score_is_capped_sum (q : string) :
  let c := classify_complexity q in
  let f := factors c in
  (0 <= score c <= 1)
  /\ score c
     == Qmin 1 (base_score f + length_factor f + tech_boost f + question_factor f)
  /\ (0 <= base_score f <= 8 # 10)
  /\ (0 <= length_factor f <= 2 # 10)
  /\ (0 <= tech_boost f <= 2 # 10)
  /\ (0 <= question_factor f <= 1 # 10).
Proof.
  cbn zeta.
  pose proof (even_milli_round _ (even_milli_tech_boost q)) as Etb.
  pose proof (even_milli_round _ (even_milli_question_factor q)) as Eqf.
  assert (Hb : 0 <= fst (base_of q) <= 8 # 10).
  { destruct (base_cases q) as [E | [E | E]]; rewrite E; cbn [fst]; lra. }
  assert (Hlf : 0 <= round (raw_length_factor q) 3 <= 2 # 10).
  { apply round_within; [reflexivity | reflexivity | apply raw_length_factor_bounds]. }
  assert (Htb : 0 <= raw_tech_boost q <= 2 # 10).
  { destruct (raw_tech_boost_cases q) as [E | [E | E]]; rewrite E; lra. }
  assert (Hqf : 0 <= raw_question_factor q <= 1 # 10).
  { destruct (raw_question_factor_cases q) as [E | [E | E]]; rewrite E; lra. }
  pose proof (score_from_factors q) as Hs.
  cbn [factors classify_complexity base_score length_factor tech_boost question_factor].
  rewrite Etb, Eqf.
  split; [| split; [| tauto]].
  - rewrite Hs. split; [apply Q.min_glb; lra | apply Q.le_min_r].
  - rewrite Hs. apply Q.min_comm.
Qed.

(** *** Substring matching *)

Lemma count_in_none (ws : list string) (s : string) :
  (forall w, In w ws -> contains w s = false) -> count_in ws s = 0%nat.
Proof.
  unfold count_in. induction ws as [| w ws IH]; intros H; [reflexivity |].
  cbn [List.filter]. rewrite (H w) by (left; reflexivity).
  apply IH. intros w' Hw'. apply H. right. exact Hw'.
Qed.

Lemma count_in_some (ws : list string) (s w : string) :
  In w ws -> contains w s = true -> (0 < count_in ws s)%nat.
Proof.
  unfold count_in. induction ws as [| w' ws IH]; intros Hin Hc; [destruct Hin |].
  cbn [List.filter]. destruct Hin as [-> | Hin].
  - rewrite Hc. cbn [List.length]. lia.
  - destruct (contains w' s); cbn [List.length]; [lia | apply IH; assumption].
Qed.

Lemma count_in_ext (ws : list string) (s1 s2 : string) :
  (forall w, In w ws -> contains w s1 = contains w s2) ->
  count_in ws s1 = count_in ws s2.
Proof.
  unfold count_in. induction ws as [| w ws IH]; intros H; [reflexivity |].
  cbn [List.filter]. rewrite (H w) by (left; reflexivity).
  assert (E : List.length (List.filter (fun w => contains w s1) ws)
              = List.length (List.filter (fun w => contains w s2) ws)).
  { apply IH. intros w' Hw'. apply H. right. exact Hw'. }
  destruct (contains w s2); cbn [List.length]; rewrite E; reflexivity.
Qed.

Lemma weight_pos (l : Level) : 0 < weight (complexity_indicators l).
Proof. destruct l; reflexivity. Qed.

Lemma scores_positive (s : string) (l : Level) :
  gtb (scores s l) 0 = true
  <-> (0 < count_in (keywords (complexity_indicators l)) s)%nat.
Proof.
  unfold gtb, scores. rewrite negb_true_iff, <- not_true_iff_false, Qle_bool_iff.
  pose proof (weight_pos l) as Hw.
  set (n := count_in _ s). split.
  - intros H. destruct n; [| lia]. exfalso. apply H.
    change (inject_Z (Z.of_nat 0)) with 0. lra.
  - intros Hn H.
    assert (1 <= inject_Z (Z.of_nat n)).
    { change 1 with (inject_Z 1). rewrite <- Zle_Qle. lia. }
    nra.
Qed.

Lemma base_high (q : string) :
  (0 < count_in (keywords (complexity_indicators high)) (lower q))%nat ->
  base_of q = (8 # 10, high).
Proof.
  intros H. unfold base_of. apply scores_positive in H. rewrite H. reflexivity.
Qed.

Lemma base_medium (q : string) :
  count_in (keywords (complexity_indicators high)) (lower q) = 0%nat ->
  (0 < count_in (keywords (complexity_indicators medium)) (lower q))%nat ->
  base_of q = (5 # 10, medium).
Proof.
  intros H0 H. unfold base_of. apply scores_positive in H. rewrite H.
  destruct (gtb (scores (lower q) high) 0) eqn:E; [| reflexivity].
  apply scores_positive in E. lia.
Qed.

(** Wherever "show" occurs, "how" occurs one character later. *)
Lemma show_contains_how (s : string) :
  contains "show" s = true -> contains "how" s = true.
Proof.
  induction s as [| c s IH]; [discriminate |].
  cbn [contains]. intros H. apply orb_true_iff in H. apply orb_true_iff. right.
  destruct H as [H | H].
  - cbn [String.prefix] in H.
    destruct (ascii_dec "s" c); [| discriminate].
    destruct s as [| c' s']; [discriminate |].
    cbn [contains]. rewrite H. reflexivity.
  - destruct s as [| c' s']; [discriminate |]. apply IH, H.
Qed.

(** C9. Keywords are matched as substrings of the lower-cased query: a
    query that contains "show" and no high-tier keyword is classified
    "medium" with base score 0.5, through the medium-tier keyword "how". *)
Theorem show_is_classified_medium (q : string) :
  contains "show" (lower q) = true ->
  (forall w, In w (keywords (complexity_indicators high)) ->
             contains w (lower q) = false) ->
  level (classify_complexity q) = medium
  /\ base_score (factors (classify_complexity q)) = 5 # 10.
Proof.
  intros Hshow Hhigh.
  assert (E : base_of q = (5 # 10, medium)).
  { apply base_medium.
    - apply count_in_none, Hhigh.
    - apply (count_in_some _ _ "how"); [| apply show_contains_how, Hshow].
      cbn. tauto. }
  cbn [level base_score factors classify_complexity]. rewrite E. split; reflexivity.
Qed.

Lemma show_is_classified_medium_witness :
  level (classify_complexity "Show me the logs") = medium
  /\ base_score (factors (classify_complexity "Show me the logs")) = 5 # 10.
Proof.
  apply (show_is_classified_medium "Show me the logs").
  - reflexivity.
  - intros w Hw. cbn in Hw.
    repeat (destruct Hw as [<- | Hw]; [reflexivity |]). destruct Hw.
Defined.

(** *** Monotonicity *)

Lemma raw_question_factor_mono (q1 q2 : string) :
  (question_marks q1 <= question_marks q2)%nat ->
  raw_question_factor q1 <= raw_question_factor q2.
Proof.
  intros H. unfold raw_question_factor.
  apply Q.min_le_compat_r, Qmult_le_compat_r; [| lra].
  rewrite <- Zle_Qle. lia.
Qed.

Lemma base_le_high (q : string) : fst (base_of q) <= 8 # 10.
Proof. destruct (base_cases q) as [E | [E | E]]; rewrite E; cbn [fst]; lra. Qed.

(** C7. Take a query in which high-tier keywords are matched and the same
    query with keywords removed: the length and the matched technical
    terms are the same, and the removal adds no question mark.  The score
    of the query with the keywords is at least the score of the query
    without them. *)
Theorem high_keywords_never_decrease_score (q_with q_without : string) :
  (exists w, In w (keywords (complexity_indicators high))
             /\ contains w (lower q_with) = true) ->
  String.length q_with = String.length q_without ->
  (forall t, In t technical_terms ->
             contains (lower t) (lower q_with) = contains (lower t) (lower q_without)) ->
  (question_marks q_without <= question_marks q_with)%nat ->
  score (classify_complexity q_without) <= score (classify_complexity q_with).
Proof.
  intros (w & Hin & Hw) Hlen Htech Hqm.
  cbn [score classify_complexity]. apply round_mono. unfold final_complexity.
  apply Q.min_le_compat_r.
  rewrite (base_high q_with) by (apply (count_in_some _ _ w); assumption).
  cbn [fst].
  pose proof (base_le_high q_without) as Hb.
  pose proof (raw_question_factor_mono _ _ Hqm) as Hq.
  assert (Hl : raw_length_factor q_without == raw_length_factor q_with)
    by (unfold raw_length_factor; rewrite Hlen; reflexivity).
  assert (Ht : raw_tech_boost q_without == raw_tech_boost q_with).
  { unfold raw_tech_boost.
    rewrite (count_in_ext _ (lower q_with) (lower q_without)); [reflexivity |].
    intros t Ht. apply in_map_iff in Ht as (t0 & <- & Ht0). apply Htech, Ht0. }
  rewrite Hl, Ht. lra.
Qed.

Lemma high_keywords_never_decrease_score_witness :
  score (classify_complexity "please check the cache layer")
  <= score (classify_complexity "please debug the cache layer").
Proof.
  apply high_keywords_never_decrease_score.
  - exists "debug". split; [cbn; tauto | reflexivity].
  - reflexivity.
  - intros t Ht. cbn in Ht.
    repeat (destruct Ht as [<- | Ht]; [reflexivity |]). destruct Ht.
  - vm_compute. lia.
Defined.

(** *** Appending text *)

Lemma app_cons (c : ascii) (s t : string) : String c s ++ t = String c (s ++ t).
Proof. reflexivity. Qed.

Lemma app_nil (t : string) : "" ++ t = t.
Proof. reflexivity. Qed.

Lemma prefix_nil (s : string) : String.prefix "" s = true.
Proof. destruct s; reflexivity. Qed.

Lemma prefix_app (w s t : string) :
  String.prefix w s = true -> String.prefix w (s ++ t) = true.
Proof.
  revert w. induction s as [| c s IH]; intros [| a w] H.
  - apply prefix_nil.
  - discriminate H.
  - apply prefix_nil.
  - rewrite app_cons. cbn [String.prefix] in *.
    destruct (ascii_dec a c); [apply IH, H | discriminate H].
Qed.

Lemma contains_app (w s t : string) :
  contains w s = true -> contains w (s ++ t) = true.
Proof.
  induction s as [| c s IH]; intros H.
  - cbn [contains] in H. rewrite orb_false_r in H.
    destruct w; [| discriminate H]. rewrite app_nil.
    destruct t; cbn [contains]; rewrite prefix_nil; reflexivity.
  - rewrite app_cons. cbn [contains] in *.
    apply orb_true_iff in H as [H | H]; apply orb_true_iff.
    + left. rewrite <- app_cons. apply prefix_app, H.
    + right. apply IH, H.
Qed.

Lemma lower_app (s t : string) : lower (s ++ t) = lower s ++ lower t.
Proof.
  induction s as [| c s IH]; [reflexivity |].
  rewrite app_cons. cbn [lower]. rewrite app_cons, IH. reflexivity.
Qed.

Lemma length_app (s t : string) :
  String.length (s ++ t) = (String.length s + String.length t)%nat.
Proof.
  induction s as [| c s IH]; [reflexivity |].
  rewrite app_cons. cbn [String.length]. rewrite IH. reflexivity.
Qed.

Lemma count_char_app (c : ascii) (s t : string) :
  count_char c (s ++ t) = (count_char c s + count_char c t)%nat.
Proof.
  induction s as [| c' s IH]; [reflexivity |].
  rewrite app_cons. cbn [count_char]. rewrite IH. lia.
Qed.

Lemma count_in_mono (ws : list string) (s1 s2 : string) :
  (forall w, contains w s1 = true -> contains w s2 = true) ->
  (count_in ws s1 <= count_in ws s2)%nat.
Proof.
  intros H. unfold count_in. induction ws as [| w ws IH]; [reflexivity |].
  cbn [List.filter]. destruct (contains w s1) eqn:E1.
  - rewrite (H w E1). cbn [List.length]. lia.
  - destruct (contains w s2); cbn [List.length]; lia.
Qed.

Lemma count_in_app (ws : list string) (q t : string) :
  (count_in ws (lower q) <= count_in ws (lower (q ++ t)))%nat.
Proof.
  apply count_in_mono. intros w. rewrite lower_app. apply contains_app.
Qed.

Lemma capped_count_mono (n m : nat) (unit cap : Q) :
  0 <= unit -> (n <= m)%nat ->
  Qmin (inject_Z (Z.of_nat n) * unit) cap <= Qmin (inject_Z (Z.of_nat m) * unit) cap.
Proof.
  intros Hu Hnm. apply Q.min_le_compat_r, Qmult_le_compat_r; [| exact Hu].
  rewrite <- Zle_Qle. lia.
Qed.

Lemma base_app (q t : string) : fst (base_of q) <= fst (base_of (q ++ t)).
Proof.
  pose proof (count_in_app (keywords (complexity_indicators high)) q t) as Hh.
  pose proof (count_in_app (keywords (complexity_indicators medium)) q t) as Hm.
  unfold base_of at 1.
  destruct (gtb (scores (lower q) high) 0) eqn:Eh.
  - apply scores_positive in Eh. rewrite (base_high (q ++ t)) by lia.
    cbn [fst]. lra.
  - destruct (gtb (scores (lower q) medium) 0) eqn:Em; cbn [fst].
    + apply scores_positive in Em.
      destruct (base_cases (q ++ t)) as [E | [E | E]]; rewrite E; cbn [fst]; try lra.
      exfalso. unfold base_of in E.
      destruct (gtb (scores (lower (q ++ t)) high) 0); [discriminate |].
      destruct (gtb (scores (lower (q ++ t)) medium) 0) eqn:Em'; [discriminate |].
      assert (gtb (scores (lower (q ++ t)) medium) 0 = true)
        by (apply scores_positive; lia).
      congruence.
    + destruct (base_cases (q ++ t)) as [E | [E | E]]; rewrite E; cbn [fst]; lra.
Qed.

(** Appending text to a query, keywords included, never decreases its
    score: every factor can only grow. *)
Lemma appending_never_decreases_score (q t : string) :
  score (classify_complexity q) <= score (classify_complexity (q ++ t)).
Proof.
  cbn [score classify_complexity]. apply round_mono. unfold final_complexity.
  apply Q.min_le_compat_r.
  pose proof (base_app q t) as Hb.
  assert (Hl : raw_length_factor q <= raw_length_factor (q ++ t)).
  { unfold raw_length_factor. apply Q.min_le_compat_r.
    unfold Qdiv. apply Qmult_le_compat_r; [| apply Qinv_le_0_compat; lra].
    rewrite <- Zle_Qle, length_app. lia. }
  assert (Ht : raw_tech_boost q <= raw_tech_boost (q ++ t)).
  { unfold raw_tech_boost. apply capped_count_mono; [lra | apply count_in_app]. }
  assert (Hq : raw_question_factor q <= raw_question_factor (q ++ t)).
  { apply raw_question_factor_mono. unfold question_marks.
    rewrite count_char_app. lia. }
  lra.
Qed.

Example appending_design_example :
  score (classify_complexity "a cache for sessions") == 367 # 1000
  /\ score (classify_complexity ("a cache for sessions" ++ " design")) == 89 # 100.
Proof. split; reflexivity. Qed.

End ClassifierProps.

(** ** The router *)

Module RouterProps.
Import Py PyFacts RouteLLM.

Section Facts.

Variable encode : string -> Py.exn + list nat.

Lemma selected_cases (st : Router) (q : string) :
  selected st q = strong_model st \/ selected st q = weak_model st.
Proof. unfold selected, select_model. destruct (geb _ _); auto. Qed.

Lemma count_tokens_accepted text tokens :
  encode text = inr tokens -> count_tokens encode text = inr (List.length tokens).
Proof. intros H. unfold count_tokens. rewrite H. reflexivity. Qed.

(** The [try] block only ever assigns [self.total_cost]. *)
Lemma try_block_frame st client q mt m st' o :
  try_block encode st client q mt m = inr (st', o) ->
  exists c, st' = set_total_cost st c.
Proof.
  unfold try_block.
  destruct (client m q mt) as [e | r]; [discriminate |].
  destruct (choices r) as [| rc rcs]; [discriminate |].
  destruct (count_tokens encode (q ++ system_prompt)) as [e | i]; [discriminate |].
  destruct (if truthy rc then count_tokens encode (default "" rc) else inr 0%nat)
    as [e | o']; [discriminate |].
  destruct (costs st !! m) as [price |]; [| discriminate].
  destruct (usage r) as [u |]; intros [= <- <-]; eexists; reflexivity.
Qed.

(** What one call does to the router when the usage counter of the
    selected model exists: the counters are advanced whether or not the
    call returns, a returned dictionary names the selected model, and the
    only exception that can escape is the encoder's on the query. *)
Lemma route_and_execute_effect st client clock q mt n :
  model_usage st !! selected st q = Some n ->
  exists st' r,
    route_and_execute encode st client clock q mt = (st', r)
    /\ strong_model st' = strong_model st
    /\ weak_model st' = weak_model st
    /\ threshold st' = threshold st
    /\ costs st' = costs st
    /\ total_queries st' = (total_queries st + 1)%nat
    /\ model_usage st' = <[selected st q := (n + 1)%nat]> (model_usage st)
    /\ complexity_stats st'
       = bump_level (complexity_stats st) (level (classify_complexity q))
    /\ (forall d, r = inr d -> d_model d = selected st q /\ d_query d = q)
    /\ (forall e, r = inl e -> encode q = inl e)
    /\ (accepts encode q -> exists d, r = inr d).
Proof.
  intros Hn. unfold route_and_execute. fold (selected st q).
  cbn [model_usage set_total_queries]. rewrite Hn.
  match goal with
  | |- context [try_block encode ?s client q mt ?m] =>
      destruct (try_block encode s client q mt m) as [e | [st1 o]] eqn:Etry
  end.
  - unfold handler, count_tokens. destruct (encode q) as [e' | tokens] eqn:Eq.
    + eexists _, _. split; [reflexivity |]. cbn.
      do 7 (split; [reflexivity |]).
      split; [intros d [=] |].
      split; [intros e0 [= <-]; reflexivity | intros [t Ht]; congruence].
    + eexists _, _. split; [reflexivity |]. cbn.
      do 7 (split; [reflexivity |]).
      split; [intros d [= <-]; split; reflexivity |].
      split; [intros e0 [=] | intros _; eauto].
  - apply try_block_frame in Etry as [c ->].
    eexists _, _. split; [reflexivity |]. cbn.
    do 7 (split; [reflexivity |]).
    split; [intros d [= <-]; split; reflexivity |].
    split; [intros e0 [=] | intros _; eauto].
Qed.

Lemma counted_selected st q :
  counted st -> exists n, model_usage st !! selected st q = Some n.
Proof.
  intros (s & w & Hs & Hw & _).
  destruct (selected_cases st q) as [-> | ->]; eauto.
Qed.

(** What a completed construction has gone through. *)
Lemma init_inv pf env key st :
  init pf env key = inr st ->
  exists c k,
    (if truthy key then key else OPENAI_API_KEY env) = Some (String c k)
    /\ OpenAI pf (String c k) = None
    /\ float pf (default "0.7" (ROUTELLM_THRESHOLD env)) = inr (threshold st)
    /\ encoding_for_model pf "gpt-4" = None
    /\ st = {| api_key := String c k;
               strong_model := default "gpt-4o-mini" (ROUTELLM_STRONG_MODEL env);
               weak_model := default "gpt-4o-nano" (ROUTELLM_WEAK_MODEL env);
               threshold := threshold st;
               costs := price_table;
               total_cost := 0;
               total_queries := 0;
               total_latency := 0;
               model_usage :=
                 <[default "gpt-4o-nano" (ROUTELLM_WEAK_MODEL env) := 0%nat]>
                   (<[default "gpt-4o-mini" (ROUTELLM_STRONG_MODEL env) := 0%nat]> ∅);
               complexity_stats := {| cs_high := 0; cs_medium := 0; cs_low := 0 |} |}.
Proof.
  unfold init.
  destruct (if truthy key then key else OPENAI_API_KEY env) as [[| c k] |] eqn:Ek;
    [discriminate | | discriminate].
  destruct (OpenAI pf (String c k)) as [e |] eqn:Eo; [discriminate |].
  destruct (float pf (default "0.7" (ROUTELLM_THRESHOLD env))) as [e | t] eqn:Et;
    [discriminate |].
  destruct (encoding_for_model pf "gpt-4") as [e |] eqn:Ee; [discriminate |].
  intros [= <-]. exists c, k. cbn [threshold]. repeat split; assumption.
Qed.

Lemma init_ok pf env key st :
  init pf env key = inr st ->
  strong_model st = default "gpt-4o-mini" (ROUTELLM_STRONG_MODEL env)
  /\ weak_model st = default "gpt-4o-nano" (ROUTELLM_WEAK_MODEL env)
  /\ float pf (default "0.7" (ROUTELLM_THRESHOLD env)) = inr (threshold st)
  /\ costs st = price_table
  /\ total_queries st = 0%nat
  /\ counted st.
Proof.
  intros Hinit.
  destruct (init_inv _ _ _ _ Hinit) as (c & k & _ & _ & Et & _ & E).
  split; [rewrite E; reflexivity |]. split; [rewrite E; reflexivity |].
  split; [exact Et |]. split; [rewrite E; reflexivity |].
  split; [rewrite E; reflexivity |].
  rewrite E. clear E Et Hinit.
  set (strong := default "gpt-4o-mini" (ROUTELLM_STRONG_MODEL env)).
  set (weak := default "gpt-4o-nano" (ROUTELLM_WEAK_MODEL env)).
  exists 0%nat, 0%nat.
  cbn [model_usage strong_model weak_model total_queries complexity_stats
       cs_high cs_medium cs_low].
  repeat split.
  - destruct (decide (weak = strong)) as [-> | Hne].
    + apply lookup_insert_eq.
    + rewrite lookup_insert_ne by exact Hne. apply lookup_insert_eq.
  - apply lookup_insert_eq.
Qed.

Lemma init_totals pf env key st :
  init pf env key = inr st -> total_cost st = 0 /\ total_latency st = 0.
Proof.
  intros Hinit.
  destruct (init_inv _ _ _ _ Hinit) as (c & k & _ & _ & _ & _ & E).
  rewrite E. split; reflexivity.
Qed.

Lemma bump_level_sum cs l :
  (cs_high (bump_level cs l) + cs_medium (bump_level cs l)
   + cs_low (bump_level cs l))%nat
  = (cs_high cs + cs_medium cs + cs_low cs + 1)%nat.
Proof. destruct l; cbn; lia. Qed.

Lemma step_counted st c : counted st -> counted (fst (step encode st c)).
Proof.
  intros Hc. destruct (counted_selected st (c_query c) Hc) as [n Hn].
  destruct Hc as (s & w & Hs & Hw & Hsum & Hlev).
  unfold step.
  destruct (route_and_execute_effect st (c_client c) (c_clock c) _ (c_max_tokens c) n Hn)
    as (st' & r & -> & Es & Ew & _ & _ & Eq & Eu & Ecs & _).
  cbn [fst]. unfold counted. rewrite Es, Ew, Eq, Eu, Ecs, bump_level_sum.
  destruct (decide (strong_model st = weak_model st)) as [Esw | Hne].
  - exists (n + 1)%nat, (n + 1)%nat.
    assert (selected st (c_query c) = strong_model st) as ->
      by (destruct (selected_cases st (c_query c)); congruence).
    rewrite <- Esw, lookup_insert_eq. repeat split; [congruence | lia].
  - destruct (selected_cases st (c_query c)) as [E | E]; rewrite E in *.
    + exists (s + 1)%nat, w. rewrite lookup_insert_eq, lookup_insert_ne by exact Hne.
      assert (n = s) as -> by congruence.
      repeat split; [assumption | intros _; specialize (Hsum Hne); lia | lia].
    + exists s, (w + 1)%nat.
      rewrite lookup_insert_eq, lookup_insert_ne by (intros E'; apply Hne; congruence).
      assert (n = w) as -> by congruence.
      repeat split; [assumption | intros _; specialize (Hsum Hne); lia | lia].
Qed.

Lemma step_frame st c :
  counted st ->
  strong_model (fst (step encode st c)) = strong_model st
  /\ weak_model (fst (step encode st c)) = weak_model st
  /\ threshold (fst (step encode st c)) = threshold st
  /\ costs (fst (step encode st c)) = costs st
  /\ total_queries (fst (step encode st c)) = (total_queries st + 1)%nat.
Proof.
  intros Hc. destruct (counted_selected st (c_query c) Hc) as [n Hn].
  unfold step.
  destruct (route_and_execute_effect st (c_client c) (c_clock c) _ (c_max_tokens c) n Hn)
    as (st' & r & -> & Es & Ew & Et & Ec & Eq & _).
  cbn [fst]. tauto.
Qed.

(** The configuration and the counting invariant along any history. *)
Lemma run_ok st calls :
  counted st ->
  counted (run encode st calls)
  /\ strong_model (run encode st calls) = strong_model st
  /\ weak_model (run encode st calls) = weak_model st
  /\ threshold (run encode st calls) = threshold st
  /\ costs (run encode st calls) = costs st
  /\ total_queries (run encode st calls)
     = (total_queries st + List.length calls)%nat.
Proof.
  revert st. induction calls as [| c calls IH]; intros st Hc.
  - cbn. repeat split; try assumption; lia.
  - cbn [run List.length].
    destruct (step_frame st c Hc) as (Es & Ew & Et & Eco & Eq).
    destruct (IH _ (step_counted st c Hc)) as (Hc' & Es' & Ew' & Et' & Eco' & Eq').
    repeat split; try assumption; try congruence. lia.
Qed.

Lemma try_block_raises st client q mt m e :
  client m q mt = inl e -> try_block encode st client q mt m = inl e.
Proof. intros H. unfold try_block. rewrite H. reflexivity. Qed.

Lemma try_block_unpriced st client q mt m :
  costs st !! m = None -> exists e, try_block encode st client q mt m = inl e.
Proof.
  intros H. unfold try_block.
  destruct (client m q mt) as [e | r]; [eauto |].
  destruct (choices r) as [| rc rcs]; [eauto |].
  destruct (count_tokens encode (q ++ system_prompt)) as [e | i]; [eauto |].
  destruct (if truthy rc then count_tokens encode (default "" rc) else inr 0%nat)
    as [e | o']; [eauto |].
  rewrite H. eauto.
Qed.

(** A raise inside the [try] block, for a query the encoder accepts, gives
    a failed decision whose response carries the error. *)
Lemma route_and_execute_failed st client clock q mt n tokens :
  model_usage st !! selected st q = Some n ->
  encode q = inr tokens ->
  (forall st1, costs st1 = costs st ->
               exists e, try_block encode st1 client q mt (selected st q) = inl e) ->
  exists st' d e,
    route_and_execute encode st client clock q mt = (st', inr d)
    /\ d_success d = false
    /\ d_cost d == 0
    /\ tok_input (d_tokens d) = List.length tokens
    /\ tok_output (d_tokens d) = 0%nat
    /\ d_query d = q
    /\ d_model d = selected st q
    /\ d_response d = Some ("Error: " ++ str e)
    /\ total_cost st' = total_cost st.
Proof.
  intros Hn Hq Htry. unfold route_and_execute. fold (selected st q).
  cbn [model_usage set_total_queries]. rewrite Hn.
  match goal with
  | |- context [try_block encode ?s client q mt ?m] =>
      destruct (Htry s eq_refl) as [e He]; rewrite He
  end.
  unfold handler. rewrite (count_tokens_accepted _ _ Hq).
  eexists _, _, e. split; [reflexivity |]. cbn.
  repeat split; reflexivity.
Qed.

(** What a failing chat completion call leads to, by cases on the
    encoder: for a query it accepts the error is absorbed into a failed
    decision, for a query it rejects the encoder's exception leaves
    [route_and_execute]. *)
Lemma chat_error_outcome st client clock q mt n e :
  model_usage st !! selected st q = Some n ->
  client (selected st q) q mt = inl e ->
  match encode q with
  | inr tokens =>
      exists st' d,
        route_and_execute encode st client clock q mt = (st', inr d)
        /\ d_success d = false
        /\ d_cost d == 0
        /\ tok_input (d_tokens d) = List.length tokens
        /\ tok_output (d_tokens d) = 0%nat
        /\ d_query d = q
        /\ d_model d = selected st q
        /\ d_response d = Some ("Error: " ++ str e)
  | inl e' =>
      exists st', route_and_execute encode st client clock q mt = (st', inl e')
  end.
Proof.
  intros Hn Hraise. unfold route_and_execute. fold (selected st q).
  cbn [model_usage set_total_queries]. rewrite Hn.
  rewrite (try_block_raises _ _ _ _ _ _ Hraise).
  unfold handler, count_tokens. destruct (encode q) as [e' | tokens].
  - eexists. reflexivity.
  - eexists _, _. split; [reflexivity |]. cbn. repeat split; reflexivity.
Qed.

(** C3. On a constructed router, after any history, [route_and_execute]
    selects the strong model when the complexity score of the query is at
    least the threshold and the weak model otherwise (so, the two names
    being different, the strong model exactly when the score reaches the
    threshold): the call is counted for the selected model [m], and a
    returned dictionary names it.  A dictionary is returned whenever the
    encoder accepts the query.  The threshold is the number [float] read
    from the setting at construction (["0.7"] by default), and routing
    leaves it as it is. *)
Theorem strong_iff_score_reaches_threshold
    pf env key st0 calls client clock q mt :
  init pf env key = inr st0 ->
  let st := run encode st0 calls in
  let s := score (classify_complexity q) in
  exists st' r m,
    route_and_execute encode st client clock q mt = (st', r)
    /\ (threshold st <= s -> m = strong_model st)
    /\ (s < threshold st -> m = weak_model st)
    /\ (strong_model st <> weak_model st ->
        (m = strong_model st <-> threshold st <= s))
    /\ (exists n, model_usage st !! m = Some n
                  /\ model_usage st' !! m = Some (n + 1)%nat)
    /\ (forall d, r = inr d -> d_model d = m)
    /\ (accepts encode q -> exists d, r = inr d)
    /\ float pf (default "0.7" (ROUTELLM_THRESHOLD env)) = inr (threshold st)
    /\ threshold st' = threshold st.
Proof.
  intros Hinit st s.
  destruct (init_ok _ _ _ _ Hinit) as (_ & _ & Eth & _ & _ & Hc0).
  destruct (run_ok st0 calls Hc0) as (Hc & _ & _ & Eth' & _).
  destruct (counted_selected st q Hc) as [n Hn].
  destruct (route_and_execute_effect st client clock q mt n Hn)
    as (st' & r & E & _ & _ & Et & _ & _ & Eu & _ & Em & _ & Hacc).
  exists st', r, (selected st q). split; [exact E |].
  assert (Hge : threshold st <= s -> selected st q = strong_model st).
  { intros H. unfold selected, select_model, geb. fold s.
    apply Qle_bool_iff in H. rewrite H. reflexivity. }
  assert (Hlt : s < threshold st -> selected st q = weak_model st).
  { intros H. unfold selected, select_model, geb. fold s.
    destruct (Qle_bool (threshold st) s) eqn:Eb; [| reflexivity].
    apply Qle_bool_iff in Eb. exfalso. lra. }
  split; [exact Hge |]. split; [exact Hlt |].
  split.
  { intros Hne. split; [| exact Hge].
    intros Hd. destruct (Qlt_le_dec s (threshold st)) as [Hl | Hl]; [| exact Hl].
    exfalso. apply Hne. rewrite <- Hd. apply Hlt, Hl. }
  split.
  { exists n. split; [exact Hn |]. rewrite Eu. apply lookup_insert_eq. }
  split; [intros d Hd; apply (Em d Hd) |].
  split; [exact Hacc |].
  split; [| exact Et].
  fold st in Eth'. rewrite Eth'. exact Eth.
Qed.

(** C10. On a constructed router whose two model names differ, after
    every sequence of calls, whatever the chat completion calls and the
    encoder did: the usage counters of the two models add up to
    [total_queries], the three complexity-level counters add up to
    [total_queries], and every call has been counted. *)
Theorem usage_counters_add_up pf env key st0 calls :
  init pf env key = inr st0 ->
  strong_model st0 <> weak_model st0 ->
  let st := run encode st0 calls in
  (exists s w : nat,
      model_usage st !! strong_model st = Some s
      /\ model_usage st !! weak_model st = Some w
      /\ (s + w)%nat = total_queries st)
  /\ (cs_high (complexity_stats st) + cs_medium (complexity_stats st)
      + cs_low (complexity_stats st))%nat = total_queries st
  /\ total_queries st = List.length calls.
Proof.
  intros Hinit Hne st.
  destruct (init_ok _ _ _ _ Hinit) as (_ & _ & _ & _ & Eq0 & Hc0).
  destruct (run_ok st0 calls Hc0) as (Hc & Es & Ew & _ & _ & Eq).
  destruct Hc as (s & w & Hs & Hw & Hsum & Hlev).
  fold st in Hs, Hw, Hsum, Hlev, Es, Ew, Eq.
  split; [| split; [exact Hlev | lia]].
  exists s, w. repeat split; try assumption. apply Hsum. congruence.
Qed.

(** The counters are advanced before the external call: a call whose chat
    completion raises is counted like any other. *)
Lemma failed_call_is_counted st client clock q mt n e :
  model_usage st !! selected st q = Some n ->
  client (selected st q) q mt = inl e ->
  let st' := fst (route_and_execute encode st client clock q mt) in
  total_queries st' = (total_queries st + 1)%nat
  /\ model_usage st' !! selected st q = Some (n + 1)%nat
  /\ complexity_stats st'
     = bump_level (complexity_stats st) (level (classify_complexity q)).
Proof.
  intros Hn _.
  destruct (route_and_execute_effect st client clock q mt n Hn)
    as (st' & r & -> & _ & _ & _ & _ & Eq & Eu & Ecs & _).
  cbn [fst]. rewrite Eq, Eu, Ecs, lookup_insert_eq. repeat split; reflexivity.
Qed.

(** When the response carries a usage block, the running total keeps the
    first estimate although the recorded cost is the recomputed one. *)
Lemma total_cost_keeps_estimate
    st client clock q mt n r rc rcs u price input_tokens output_tokens :
  model_usage st !! selected st q = Some n ->
  client (selected st q) q mt = inr r ->
  choices r = rc :: rcs ->
  usage r = Some u ->
  costs st !! selected st q = Some price ->
  count_tokens encode (q ++ system_prompt) = inr input_tokens ->
  (if truthy rc then count_tokens encode (default "" rc) else inr 0%nat)
  = inr output_tokens ->
  exists st' d,
    route_and_execute encode st client clock q mt = (st', inr d)
    /\ d_success d = true
    /\ d_cost d = round (call_cost price (prompt_tokens u) (completion_tokens u)) 6
    /\ total_cost st' == total_cost st + call_cost price input_tokens output_tokens.
Proof.
  intros Hn Hr Hch Hu Hp Hi Ho. unfold route_and_execute. fold (selected st q).
  cbn [model_usage set_total_queries]. rewrite Hn.
  unfold try_block. rewrite Hr, Hch, Hi, Ho, Hu.
  cbn [costs set_complexity_stats set_model_usage set_total_queries].
  rewrite Hp.
  eexists _, _. split; [reflexivity |]. cbn. repeat split; try reflexivity. ring.
Qed.

(** Without a price for the selected model every call on a query the
    encoder accepts fails, whatever the chat completion call does. *)
Lemma unpriced_call_fails st client clock q mt :
  counted st ->
  costs st !! selected st q = None ->
  accepts encode q ->
  exists st' d,
    route_and_execute encode st client clock q mt = (st', inr d)
    /\ d_success d = false
    /\ d_cost d == 0
    /\ tok_output (d_tokens d) = 0%nat.
Proof.
  intros Hc Hp [tokens Hq]. destruct (counted_selected st q Hc) as [n Hn].
  destruct (route_and_execute_failed st client clock q mt n tokens Hn Hq)
    as (st' & d & e & E & Hs & Hcost & _ & Ho & _).
  - intros st1 E1. apply try_block_unpriced. rewrite E1. exact Hp.
  - eauto 6.
Qed.

(** Construction reads the two model names and stores them; nothing in it
    depends on them. *)
Lemma init_ignores_model_names pf env env' key e :
  OPENAI_API_KEY env' = OPENAI_API_KEY env ->
  ROUTELLM_THRESHOLD env' = ROUTELLM_THRESHOLD env ->
  init pf env key = inl e -> init pf env' key = inl e.
Proof.
  intros Ek Et. unfold init. rewrite Ek, Et.
  destruct (if truthy key then key else OPENAI_API_KEY env) as [[| c k] |];
    try (intros H; exact H).
  destruct (OpenAI pf (String c k)) as [e1 |]; [intros H; exact H |].
  destruct (float pf (default "0.7" (ROUTELLM_THRESHOLD env))) as [e1 | t];
    [intros H; exact H |].
  destruct (encoding_for_model pf "gpt-4") as [e1 |]; [intros H; exact H |].
  discriminate.
Qed.

(** C5 (amended). A model name without an entry in the price table is not
    detected at construction: whether [__init__] raises, and what, does
    not depend on the two model names.  On a constructed router, when the
    model selected for a query has no price and the encoder accepts the
    query, [route_and_execute] catches the lookup error: it returns a
    decision with success = false, cost = 0 and 0 output tokens. *)
Theorem missing_price_is_absorbed pf env key :
  (forall env' e,
      OPENAI_API_KEY env' = OPENAI_API_KEY env ->
      ROUTELLM_THRESHOLD env' = ROUTELLM_THRESHOLD env ->
      (init pf env' key = inl e <-> init pf env key = inl e))
  /\ forall st0 calls client clock q mt,
       init pf env key = inr st0 ->
       let st := run encode st0 calls in
       costs st !! selected st q = None ->
       accepts encode q ->
       exists st' d,
         route_and_execute encode st client clock q mt = (st', inr d)
         /\ d_success d = false
         /\ d_cost d == 0
         /\ tok_output (d_tokens d) = 0%nat.
Proof.
  split.
  - intros env' e Ek Et. split; apply init_ignores_model_names; congruence.
  - intros st0 calls client clock q mt Hinit st Hp Hq.
    destruct (init_ok _ _ _ _ Hinit) as (_ & _ & _ & _ & _ & Hc0).
    destruct (run_ok st0 calls Hc0) as (Hc & _).
    apply unpriced_call_fails; assumption.
Qed.

End Facts.

Lemma strong_iff_score_reaches_threshold_witness :
  exists st' d,
    route_and_execute Scenario.one_per_char
      (run Scenario.one_per_char Scenario.router_default
         [Scenario.call "Who created Linux?" (Scenario.failing "quota")])
      (Scenario.answering "ok" None) Scenario.clock0 "Explain recursion" 150
    = (st', inr d)
    /\ d_model d = "gpt-4o-mini".
Proof.
  destruct (strong_iff_score_reaches_threshold Scenario.one_per_char
              Scenario.platform Scenario.env_default None Scenario.router_default
              [Scenario.call "Who created Linux?" (Scenario.failing "quota")]
              (Scenario.answering "ok" None) Scenario.clock0
              "Explain recursion" 150%nat Scenario.init_default)
    as (st' & r & m & E & Hge & _ & _ & _ & Hd & Hacc & _).
  destruct Hacc as [d ->]; [eexists; reflexivity |].
  exists st', d. split; [exact E |].
  rewrite (Hd d eq_refl), Hge; [reflexivity | vm_compute; discriminate].
Defined.

Lemma usage_counters_add_up_witness :
  let st := run Scenario.one_per_char Scenario.router_default
              [Scenario.call "Who created Linux?" (Scenario.failing "quota");
               Scenario.call "Explain recursion" (Scenario.answering "ok" None)] in
  (exists s w : nat,
      model_usage st !! strong_model st = Some s
      /\ model_usage st !! weak_model st = Some w
      /\ (s + w)%nat = total_queries st)
  /\ (cs_high (complexity_stats st) + cs_medium (complexity_stats st)
      + cs_low (complexity_stats st))%nat = total_queries st
  /\ total_queries st = 2%nat.
Proof.
  apply (usage_counters_add_up Scenario.one_per_char Scenario.platform
           Scenario.env_default None Scenario.router_default
           [Scenario.call "Who created Linux?" (Scenario.failing "quota");
            Scenario.call "Explain recursion" (Scenario.answering "ok" None)]
           Scenario.init_default).
  discriminate.
Defined.

Lemma missing_price_is_absorbed_witness :
  exists st' d,
    route_and_execute Scenario.one_per_char Scenario.router_unpriced
      (Scenario.answering "ok" None) Scenario.clock0 "Explain recursion" 150
    = (st', inr d)
    /\ d_success d = false
    /\ d_cost d == 0
    /\ tok_output (d_tokens d) = 0%nat.
Proof.
  apply (proj2 (missing_price_is_absorbed Scenario.one_per_char
                  Scenario.platform Scenario.env_unpriced None)
           Scenario.router_unpriced [] (Scenario.answering "ok" None)
           Scenario.clock0 "Explain recursion" 150%nat Scenario.init_unpriced).
  - reflexivity.
  - eexists. reflexivity.
Defined.

(** C1, at the failing input.  A fresh default router receives "Explain
    recursion"; the encoder counts 82 input and 2 output tokens, the
    response reports 20 prompt and 5 completion tokens.  The recorded cost
    is the recomputed 0.000006, and the running total stays at the
    estimate 0.0000135: the adjustment subtracts the cost after it was
    overwritten with the recomputed one, so it changes nothing. *)
Theorem total_cost_is_not_corrected :
  exists st' d,
    route_and_execute Scenario.one_per_char Scenario.router_default
      (Scenario.answering "ok"
         (Some {| prompt_tokens := 20; completion_tokens := 5 |}))
      Scenario.clock0 "Explain recursion" 150
    = (st', inr d)
    /\ d_success d = true
    /\ tok_input (d_tokens d) = 20%nat
    /\ tok_output (d_tokens d) = 5%nat
    /\ d_cost d == 6 # 1000000
    /\ total_cost st' == 135 # 10000000
    /\ ~ total_cost st' == d_cost d.
Proof.
  eexists _, _. split; [vm_compute; reflexivity |].
  cbn [d_success d_tokens tok_input tok_output d_cost total_cost].
  repeat split; vm_compute; congruence.
Qed.

(** C4, at the failing input.  A default router receives a query that
    contains the special token [<|endoftext|>], which the encoder refuses,
    and the chat completion call fails.  The handler catches the error of
    the call and then tokenizes the query itself, outside every [try]: the
    encoder's [ValueError] leaves [route_and_execute], no dictionary is
    returned, and the query has been counted. *)
Theorem execution_error_escapes_through_the_handler :
  exists st',
    Scenario.failing "rate limit" (selected Scenario.router_default
                                     "What does <|endoftext|> mean?")
      "What does <|endoftext|> mean?" 150%nat
    = inl (APIError "rate limit")
    /\ route_and_execute Scenario.strict Scenario.router_default
         (Scenario.failing "rate limit") Scenario.clock0
         "What does <|endoftext|> mean?" 150
       = (st', inl (ValueError
                      "Encountered text corresponding to disallowed special token '<|endoftext|>'."))
    /\ total_queries st' = 1%nat
    /\ total_latency st' = 0.
Proof.
  eexists. split; [reflexivity |]. split; [vm_compute; reflexivity |].
  split; reflexivity.
Qed.

(** C5, as stated, fails: with the strong model set to a name that has no
    price, construction succeeds, and the query routed to that model comes
    back as a failed decision. *)
Lemma missing_price_passes_construction :
  exists st0 st' d,
    init Scenario.platform Scenario.env_unpriced None = inr st0
    /\ costs st0 !! strong_model st0 = None
    /\ route_and_execute Scenario.one_per_char st0
         (Scenario.answering "ok" None) Scenario.clock0 "Explain recursion" 150
       = (st', inr d)
    /\ d_model d = strong_model st0
    /\ d_success d = false.
Proof.
  exists Scenario.router_unpriced. eexists _, _.
  split; [reflexivity |]. split; [vm_compute; reflexivity |].
  split; [vm_compute; reflexivity |]. split; reflexivity.
Qed.

End RouterProps.

(** ** The metrics collector *)

Module MetricsProps.
Import Py Metrics.

#[local] Instance Qle_total : Total Qle.
Proof.
  intros x y. destruct (Qlt_le_dec x y) as [H | H]; [left | right].
  - apply Qlt_le_weak, H.
  - exact H.
Qed.

Lemma sorted_length (xs : list Q) : List.length (sorted xs) = List.length xs.
Proof. apply Permutation_length, merge_sort_Permutation. Qed.


(** [int(n * p)] for a percentage [p = num/100]. *)
Lemma int_percent (n : nat) (num : positive) :
  int (inject_Z (Z.of_nat n) * (Zpos num # 100)) = (Z.of_nat n * Zpos num / 100)%Z.
Proof. reflexivity. Qed.

Lemma percent_index_in_range (n : nat) (num : positive) :
  (0 < n)%nat -> (Zpos num < 100)%Z ->
  (Z.to_nat (Z.of_nat n * Zpos num / 100) < n)%nat.
Proof.
  intros Hn Hnum.
  assert (0 <= Z.of_nat n * Zpos num / 100 < Z.of_nat n)%Z.
  { split; [apply Z.div_pos; lia |]. apply Z.div_lt_upper_bound; nia. }
  lia.
Qed.

(** The index is always inside the sorted list. *)
Lemma percentile_defined (xs : list Q) (num : positive) :
  xs <> [] -> (Zpos num < 100)%Z ->
  exists x,
    percentile xs (Zpos num # 100) = inr x
    /\ sorted xs !! Z.to_nat (Z.of_nat (List.length xs) * Zpos num / 100) = Some x.
Proof.
  intros Hne Hnum. unfold percentile, index. rewrite int_percent.
  destruct (lookup_lt_is_Some_2 (sorted xs)
              (Z.to_nat (Z.of_nat (List.length xs) * Zpos num / 100))) as [x Hx].
  - rewrite sorted_length. apply percent_index_in_range; [| exact Hnum].
    destruct xs; [congruence | cbn; lia].
  - exists x. rewrite Hx. split; reflexivity.
Qed.



Example one_sample_percentiles :
  exists stats,
    get_statistics Scenario.one_sample = inr (Stats stats)
    /\ p95 (latency stats) = 420 /\ p99 (latency stats) = 420.
Proof. eexists. split; [vm_compute; reflexivity |]. split; reflexivity. Qed.

End MetricsProps.

(** ** The comparison table *)

Module ComparisonProps.
Import Py Comparison.

Lemma ltb_lt (a b : Q) : ltb a b = true <-> a < b.
Proof.
  unfold ltb. rewrite negb_true_iff, <- not_true_iff_false, Qle_bool_iff.
  split; [apply Qnot_le_lt | apply Qlt_not_le].
Qed.

Lemma ltb_ge (a b : Q) : ltb a b = false <-> b <= a.
Proof. unfold ltb. rewrite negb_false_iff. apply Qle_bool_iff. Qed.

Lemma avg_latency_defined (results : list TestResult) :
  results <> [] -> exists a, avg_latency results = inr a.
Proof. destruct results; [congruence | eauto]. Qed.

Lemma success_rate_defined (results : list TestResult) :
  results <> [] -> exists a, success_rate results = inr a.
Proof. destruct results; [congruence | eauto]. Qed.

(** C8 (amended). For non-empty result lists the table is produced; in
    the latency row the semantic router is the winner exactly when its
    average latency is strictly lower, and in the cost row exactly when
    its total cost is strictly lower; in every other case, ties included,
    the winner is RouteLLM. *)
Theorem lower_wins_ties_to_routellm (semantic_results routellm_results : list TestResult) :
  semantic_results <> [] ->
  routellm_results <> [] ->
  exists table sem_avg route_avg,
    comparison_data semantic_results routellm_results = inr table
    /\ avg_latency semantic_results = inr sem_avg
    /\ avg_latency routellm_results = inr route_avg
    /\ (sem_avg < route_avg ->
        winner_of "Average Latency" table = Some semantic_wins)
    /\ (route_avg <= sem_avg ->
        winner_of "Average Latency" table = Some routellm_wins)
    /\ (total_cost semantic_results < total_cost routellm_results ->
        winner_of "Total Cost" table = Some semantic_wins)
    /\ (total_cost routellm_results <= total_cost semantic_results ->
        winner_of "Total Cost" table = Some routellm_wins).
Proof.
  intros Hs Hr.
  destruct (avg_latency_defined _ Hs) as [sa Esa].
  destruct (avg_latency_defined _ Hr) as [ra Era].
  destruct (success_rate_defined _ Hs) as [ss Ess].
  destruct (success_rate_defined _ Hr) as [rs Ers].
  unfold comparison_data. rewrite Esa, Era, Ess, Ers.
  eexists _, sa, ra. split; [reflexivity |].
  split; [reflexivity |]. split; [reflexivity |].
  unfold winner_of. cbn [List.find metric String.eqb Ascii.eqb Bool.eqb fmap option_fmap option_map winner].
  repeat split; intros H.
  - apply ltb_lt in H. rewrite H. reflexivity.
  - apply ltb_ge in H. rewrite H. reflexivity.
  - apply ltb_lt in H. rewrite H. reflexivity.
  - apply ltb_ge in H. rewrite H. reflexivity.
Qed.

Lemma lower_wins_ties_to_routellm_witness :
  exists table,
    comparison_data Scenario.tie_semantic Scenario.slow_routellm = inr table
    /\ winner_of "Average Latency" table = Some semantic_wins
    /\ winner_of "Total Cost" table = Some semantic_wins.
Proof.
  destruct (lower_wins_ties_to_routellm Scenario.tie_semantic Scenario.slow_routellm)
    as (table & sa & ra & E & Esa & Era & Hl & _ & Hc & _);
    [discriminate | discriminate |].
  exists table. split; [exact E |].
  injection Esa as <-. injection Era as <-.
  split; [apply Hl | apply Hc]; reflexivity.
Defined.

(** C8, as stated, fails: the two strategies tie on average latency and on
    total cost, and both rows name RouteLLM as the winner. *)
Lemma tie_is_given_to_routellm :
  exists table,
    comparison_data Scenario.tie_semantic Scenario.tie_routellm = inr table
    /\ avg_latency Scenario.tie_semantic = avg_latency Scenario.tie_routellm
    /\ total_cost Scenario.tie_semantic = total_cost Scenario.tie_routellm
    /\ winner_of "Average Latency" table = Some "RouteLLM ✓"
    /\ winner_of "Total Cost" table = Some "RouteLLM ✓".
Proof. eexists. repeat split. Qed.

End ComparisonProps.

(** ** More on the complexity classifier *)

Module ClassifierExtras.
Import Py PyFacts RouteLLM RouteLLMReport ClassifierProps.

Lemma length_lower (s : string) : String.length (lower s) = String.length s.
Proof. induction s as [| c s IH]; cbn; [| rewrite IH]; reflexivity. Qed.

Lemma question_mark_lower (c : ascii) :
  Ascii.eqb "?" (lower_ascii c) = Ascii.eqb "?" c.
Proof. destruct c as [[] [] [] [] [] [] [] []]; reflexivity. Qed.

Lemma count_question_lower (s : string) :
  count_char "?" (lower s) = count_char "?" s.
Proof.
  induction s as [| c s IH]; [reflexivity |].
  cbn [lower count_char]. rewrite question_mark_lower, IH. reflexivity.
Qed.

(** Queries that differ only in the case of their letters get the same
    classification, field by field. *)
Theorem classification_ignores_case (q1 q2 : string) :
  lower q1 = lower q2 -> classify_complexity q1 = classify_complexity q2.
Proof.
  intros H.
  assert (Hlen : String.length q1 = String.length q2)
    by (rewrite <- (length_lower q1), <- (length_lower q2), H; reflexivity).
  assert (Hq : count_char "?" q1 = count_char "?" q2)
    by (rewrite <- (count_question_lower q1), <- (count_question_lower q2), H;
        reflexivity).
  unfold classify_complexity, final_complexity, base_of, raw_length_factor,
    raw_tech_boost, raw_question_factor, question_marks.
  rewrite H, Hlen, Hq. reflexivity.
Qed.

Lemma classification_ignores_case_witness :
  classify_complexity "Explain REST APIs?" = classify_complexity "eXPLAIN rest apis?".
Proof. apply classification_ignores_case. reflexivity. Defined.

Lemma count_in_positive (ws : list string) (s : string) :
  (0 < count_in ws s)%nat <-> exists w, In w ws /\ contains w s = true.
Proof.
  split.
  - unfold count_in. induction ws as [| w ws IH]; cbn [List.filter List.length]; [lia |].
    destruct (contains w s) eqn:E.
    + intros _. exists w. split; [left; reflexivity | exact E].
    + intros H. destruct (IH H) as (w' & Hin & Hc). exists w'. split; [right |]; assumption.
  - intros (w & Hin & Hc). apply (count_in_some ws s w Hin Hc).
Qed.

Lemma base_by_precedence (q : string) :
  (matched high q /\ base_of q = (8 # 10, high))
  \/ (~ matched high q /\ matched medium q /\ base_of q = (5 # 10, medium))
  \/ (~ matched high q /\ ~ matched medium q /\ base_of q = (3 # 10, low)).
Proof.
  unfold base_of, matched.
  destruct (gtb (scores (lower q) high) 0) eqn:Eh.
  - left. apply scores_positive, count_in_positive in Eh. auto.
  - assert (Hh : ~ exists w, In w (keywords (complexity_indicators high))
                             /\ contains w (lower q) = true).
    { intros H. apply count_in_positive, scores_positive in H. congruence. }
    destruct (gtb (scores (lower q) medium) 0) eqn:Em.
    + right; left. apply scores_positive, count_in_positive in Em. auto.
    + right; right. repeat split; try assumption.
      intros H. apply count_in_positive, scores_positive in H. congruence.
Qed.

(** The level follows the precedence high > medium > low of the matched
    keyword tiers: high exactly when a high-tier keyword occurs; medium
    exactly when none does but a medium-tier keyword occurs; low exactly
    when neither occurs, whether or not a low-tier keyword does. *)
Theorem level_by_precedence (q : string) :
  (level (classify_complexity q) = high <-> matched high q)
  /\ (level (classify_complexity q) = medium
      <-> ~ matched high q /\ matched medium q)
  /\ (level (classify_complexity q) = low
      <-> ~ matched high q /\ ~ matched medium q).
Proof.
  cbn [level classify_complexity].
  destruct (base_by_precedence q) as [(Hh & E) | [(Hh & Hm & E) | (Hh & Hm & E)]];
    rewrite E; cbn [snd]; repeat split;
    solve [ auto | discriminate | tauto | intros []; tauto ].
Qed.

(** The score stays within half a point above the base score of the
    level: in [0.8, 1] for "high", [0.5, 1] for "medium", [0.3, 0.8] for
    "low".  The upper end of the "low" range is reached: a query without
    any high or medium keyword that is long, names technical terms and
    asks twice scores 0.8, above the default threshold 0.7. *)
Theorem score_range_by_level :
  (forall q : string,
      match level (classify_complexity q) with
      | high => 8 # 10 <= score (classify_complexity q) <= 1
      | medium => 5 # 10 <= score (classify_complexity q) <= 1
      | low => 3 # 10 <= score (classify_complexity q) <= 8 # 10
      end)
  /\ (exists q : string,
        level (classify_complexity q) = low
        /\ score (classify_complexity q) == 8 # 10
        /\ 7 # 10 <= score (classify_complexity q)).
Proof.
  split.
  - intros q.
    pose proof (score_from_factors q) as Hs.
    assert (Hlf : 0 <= round (raw_length_factor q) 3 <= 2 # 10).
    { apply round_within; [reflexivity | reflexivity | apply raw_length_factor_bounds]. }
    assert (Htb : 0 <= raw_tech_boost q <= 2 # 10).
    { destruct (raw_tech_boost_cases q) as [E | [E | E]]; rewrite E; lra. }
    assert (Hqf : 0 <= raw_question_factor q <= 1 # 10).
    { destruct (raw_question_factor_cases q) as [E | [E | E]]; rewrite E; lra. }
    cbn [level classify_complexity].
    destruct (base_cases q) as [E | [E | E]]; rewrite E in *; cbn [fst snd] in *;
      rewrite Hs; split;
      try (apply Q.min_glb; lra); try apply Q.le_min_r.
    eapply Qle_trans; [apply Q.le_min_l | lra].
  - exists "What database and API performance numbers are needed here today??".
    split; [vm_compute; reflexivity |].
    split; [vm_compute; reflexivity | vm_compute; discriminate].
Qed.

End ClassifierExtras.

(** ** More on rounding *)

Module RoundingExtras.
Import Py PyFacts PyExtra.

Lemma round_half_even_nearest (y : Q) : nearest_even y (round_half_even y).
Proof.
  unfold nearest_even, round_half_even.
  pose proof (Qfloor_le y) as Hlo. pose proof (Qlt_floor y) as Hhi.
  rewrite inject_Z_plus in Hhi. change (inject_Z 1) with 1 in Hhi.
  destruct (Qcompare_spec (y - inject_Z (Qfloor y)) (1 # 2)) as [H | H | H].
  - destruct (Z.even (Qfloor y)) eqn:Ev.
    + split; [lra | auto].
    + rewrite inject_Z_plus. change (inject_Z 1) with 1. split; [lra |].
      intros _. rewrite Z.even_add, Ev. reflexivity.
  - split; [lra |]. intros [E | E]; exfalso; lra.
  - rewrite inject_Z_plus. change (inject_Z 1) with 1. split; [lra |].
    intros [E | E]; exfalso; lra.
Qed.

Lemma nearest_even_unique (y : Q) (r1 r2 : Z) :
  nearest_even y r1 -> nearest_even y r2 -> r1 = r2.
Proof.
  intros [[L1 U1] E1] [[L2 U2] E2].
  assert (H1 : (r1 <= r2 + 1)%Z).
  { rewrite Zle_Qle, inject_Z_plus. change (inject_Z 1) with 1. lra. }
  assert (H2 : (r2 <= r1 + 1)%Z).
  { rewrite Zle_Qle, inject_Z_plus. change (inject_Z 1) with 1. lra. }
  destruct (Z.eq_dec r1 r2) as [-> | Hne]; [reflexivity | exfalso].
  assert (Hc : r1 = (r2 + 1)%Z \/ r2 = (r1 + 1)%Z) by lia.
  destruct Hc as [-> | ->]; rewrite inject_Z_plus in *;
    change (inject_Z 1) with 1 in *.
  - assert (Ev2 : Z.even r2 = true) by (apply E2; left; lra).
    assert (Ev1 : Z.even (r2 + 1) = true) by (apply E1; right; lra).
    rewrite Z.even_add, Ev2 in Ev1. discriminate.
  - assert (Ev1 : Z.even r1 = true) by (apply E1; left; lra).
    assert (Ev2 : Z.even (r1 + 1) = true) by (apply E2; right; lra).
    rewrite Z.even_add, Ev1 in Ev2. discriminate.
Qed.

Lemma round_half_even_opp (y : Q) : round_half_even (- y) = (- round_half_even y)%Z.
Proof.
  apply (nearest_even_unique (- y)); [apply round_half_even_nearest |].
  destruct (round_half_even_nearest y) as [[L U] E].
  unfold nearest_even. rewrite inject_Z_opp, Z.even_opp. split; [lra |].
  intros [H | H]; apply E; [right | left]; lra.
Qed.

Lemma round_opp (x : Q) (n : nat) : round (- x) n == - round x n.
Proof.
  unfold round. pose proof (pow10_pos n) as Hp.
  assert (E : - x * pow10 n == - (x * pow10 n)) by ring.
  rewrite (round_half_even_comp _ _ E), round_half_even_opp, inject_Z_opp.
  field. lra.
Qed.

(** Two percentages that add up to 100 still do after rounding to two
    decimals. *)
Lemma round_complement (x y : Q) : x + y == 100 -> round x 2 + round y 2 == 100.
Proof.
  intros H.
  assert (Ey : y == inject_Z 10000 / pow10 2 + - x).
  { transitivity (100 + - x); [lra |]. apply Qplus_comp; reflexivity. }
  rewrite (round_comp _ _ Ey 2%nat 2%nat eq_refl), round_add_even by reflexivity.
  rewrite round_opp.
  transitivity (inject_Z 10000 / pow10 2); [ring | reflexivity].
Qed.

(** Rounding is off by at most half a unit in the last place. *)
Lemma round_error (x : Q) (n : nat) :
  Qabs (round x n - x) <= (1 # 2) / pow10 n.
Proof.
  unfold round. pose proof (pow10_pos n) as Hp.
  destruct (round_half_even_nearest (x * pow10 n)) as [[L U] _].
  set (r := inject_Z (round_half_even (x * pow10 n))) in *.
  assert (E : r / pow10 n - x == - ((x * pow10 n - r) / pow10 n)) by (field; lra).
  rewrite E, Qabs_opp. apply Qabs_Qle_condition. split.
  - apply Qle_shift_div_l; [exact Hp |].
    assert (E' : - ((1 # 2) / pow10 n) * pow10 n == - (1 # 2)) by (field; lra).
    rewrite E'. exact L.
  - apply Qle_shift_div_r; [exact Hp |].
    assert (E' : (1 # 2) / pow10 n * pow10 n == 1 # 2) by (field; lra).
    rewrite E'. exact U.
Qed.

End RoundingExtras.

(** ** More on the router *)

Module RouterExtras.
Import Py PyFacts PyExtra RoundingExtras RouteLLM RouteLLMReport RouterProps.

Lemma price_table_nonneg (m : string) (p : Price) :
  price_table !! m = Some p -> 0 < input p /\ 0 < output p.
Proof.
  unfold price_table. intros H.
  repeat (apply lookup_insert_Some in H as [[_ <-] | [_ H]];
          [split; reflexivity |]).
  rewrite lookup_empty in H. discriminate H.
Qed.

Lemma call_cost_nonneg (p : Price) (i o : nat) :
  0 <= input p -> 0 <= output p -> 0 <= call_cost p i o.
Proof.
  intros Hi Ho. unfold call_cost.
  assert (0 <= inject_Z (Z.of_nat i))
    by (change 0 with (inject_Z 0); rewrite <- Zle_Qle; lia).
  assert (0 <= inject_Z (Z.of_nat o))
    by (change 0 with (inject_Z 0); rewrite <- Zle_Qle; lia).
  assert (Hk : 0 <= / 1000) by (apply Qinv_le_0_compat; lra).
  assert (0 <= inject_Z (Z.of_nat i) * input p / 1000)
    by (unfold Qdiv; repeat apply Qmult_le_0_compat; assumption).
  assert (0 <= inject_Z (Z.of_nat o) * output p / 1000)
    by (unfold Qdiv; repeat apply Qmult_le_0_compat; assumption).
  lra.
Qed.

Lemma sum_from (xs : list Q) (a : Q) : fold_left Qplus xs a == a + Py.sum xs.
Proof.
  unfold Py.sum. revert a. induction xs as [| x xs IH]; intros a; cbn [fold_left].
  - ring.
  - rewrite (IH (a + x)), (IH (0 + x)). ring.
Qed.

Lemma sum_cons (x : Q) (xs : list Q) : Py.sum (x :: xs) == x + Py.sum xs.
Proof. unfold Py.sum at 1. cbn [fold_left]. rewrite sum_from. ring. Qed.

Section Facts.

Variable encode : string -> Py.exn + list nat.

(** The count of the output tokens, from the encoder's answer. *)
Lemma output_tokens_accepted (rc : option string) (tokens : list nat) :
  (if truthy rc then encode (default "" rc) else inr []) = inr tokens ->
  (if truthy rc then count_tokens encode (default "" rc) else inr 0%nat)
  = inr (List.length tokens).
Proof.
  destruct (truthy rc).
  - apply count_tokens_accepted.
  - intros [= <-]. reflexivity.
Qed.

(** What a completed [try] block has done. *)
Lemma try_block_done st client q mt m st' o :
  try_block encode st client q mt m = inr (st', o) ->
  exists r rc rcs price input_tokens output_tokens,
    client m q mt = inr r
    /\ choices r = rc :: rcs
    /\ count_tokens encode (q ++ system_prompt) = inr input_tokens
    /\ (if truthy rc then count_tokens encode (default "" rc) else inr 0%nat)
       = inr output_tokens
    /\ costs st !! m = Some price
    /\ st' = set_total_cost st (total_cost st')
    /\ total_cost st' == total_cost st + call_cost price input_tokens output_tokens
    /\ o_response o = rc
    /\ o_cost o = call_cost price (o_input o) (o_output o)
    /\ match usage r with
       | Some u => o_input o = prompt_tokens u /\ o_output o = completion_tokens u
       | None => o_input o = input_tokens /\ o_output o = output_tokens
       end.
Proof.
  unfold try_block.
  destruct (client m q mt) as [e | r] eqn:Er; [discriminate |].
  destruct (choices r) as [| rc rcs] eqn:Ec; [discriminate |].
  destruct (count_tokens encode (q ++ system_prompt)) as [e | i] eqn:Ei;
    [discriminate |].
  destruct (if truthy rc then count_tokens encode (default "" rc) else inr 0%nat)
    as [e | o'] eqn:Eo; [discriminate |].
  destruct (costs st !! m) as [price |] eqn:Ep; [| discriminate].
  destruct (usage r) as [u |] eqn:Eu; intros [= <- <-];
    exists r, rc, rcs, price, i, o'; rewrite Eu; cbn;
    (split; [reflexivity |]); (split; [exact Ec |]); (split; [reflexivity |]);
    (split; [exact Eo |]); (split; [reflexivity |]); (split; [reflexivity |]);
    (split; [ring |]); repeat split; reflexivity.
Qed.

(** The result of one call, by cases on the [try] block and, when it
    raised, on the encoder's answer to the query. *)
Lemma route_and_execute_cases st client clock q mt n :
  model_usage st !! selected st q = Some n ->
  let st1 :=
    set_complexity_stats
      (set_model_usage (set_total_queries st (total_queries st + 1))
         (<[selected st q := (n + 1)%nat]> (model_usage st)))
      (bump_level (complexity_stats st) (level (classify_complexity q))) in
  let latency_ms := (t_end clock - t_start clock) * 1000 in
  exists st' r,
    route_and_execute encode st client clock q mt = (st', r)
    /\ (forall d, r = inr d ->
          total_latency st' = total_latency st + latency_ms
          /\ d_latency_ms d = round latency_ms 2
          /\ d_saved d = String.eqb (selected st q) (weak_model st)
          /\ d_timestamp d = t_stamp clock
          /\ d_complexity d = classify_complexity q
          /\ tok_total (d_tokens d)
             = (tok_input (d_tokens d) + tok_output (d_tokens d))%nat)
    /\ (forall e, r = inl e -> st' = st1)
    /\ match try_block encode st1 client q mt (selected st q) with
       | inl e =>
           match encode q with
           | inl e' => r = inl e'
           | inr tokens =>
               exists d,
                 r = inr d
                 /\ d_success d = false
                 /\ total_cost st' = total_cost st
                 /\ d_cost d = round 0 6
                 /\ d_response d = Some ("Error: " ++ str e)
                 /\ tok_input (d_tokens d) = List.length tokens
                 /\ tok_output (d_tokens d) = 0%nat
           end
       | inr (st2, o) =>
           exists d,
             r = inr d
             /\ d_success d = true
             /\ total_cost st' = total_cost st2
             /\ d_cost d = round (o_cost o) 6
             /\ d_response d = o_response o
             /\ tok_input (d_tokens d) = o_input o
             /\ tok_output (d_tokens d) = o_output o
       end.
Proof.
  intros Hn st1 latency_ms. unfold route_and_execute. fold (selected st q).
  cbn [model_usage set_total_queries]. rewrite Hn.
  match goal with
  | |- context [try_block encode ?s client q mt ?m] => change s with st1
  end.
  destruct (try_block encode st1 client q mt (selected st q)) as [e | [st2 o]] eqn:Etry.
  - unfold handler, count_tokens. destruct (encode q) as [e' | tokens].
    + eexists _, _. split; [reflexivity |].
      split; [intros d [=] |]. split; [intros e0 _; reflexivity | reflexivity].
    + eexists _, _. split; [reflexivity |].
      split; [intros d [= <-]; cbn; repeat split; reflexivity |].
      split; [intros e0 [=] |].
      eexists. split; [reflexivity |]. cbn. repeat split; reflexivity.
  - apply try_block_frame in Etry as [c ->].
    eexists _, _. split; [reflexivity |].
    split; [intros d [= <-]; cbn; repeat split; reflexivity |].
    split; [intros e0 [=] |].
    eexists. split; [reflexivity |]. cbn. repeat split; reflexivity.
Qed.

(** A constructed router, after any history, has the counters and the
    configuration it was built with. *)
Lemma constructed pf env key st0 calls :
  init pf env key = inr st0 ->
  let st := run encode st0 calls in
  counted st
  /\ costs st = price_table
  /\ strong_model st = strong_model st0
  /\ weak_model st = weak_model st0
  /\ float pf (default "0.7" (ROUTELLM_THRESHOLD env)) = inr (threshold st)
  /\ total_queries st = List.length calls.
Proof.
  intros Hinit st.
  destruct (init_ok _ _ _ _ Hinit) as (_ & _ & Et & Ec & Eq & Hc0).
  destruct (run_ok encode st0 calls Hc0) as (Hc & Es & Ew & Et' & Ec' & Eq').
  fold st in Hc, Es, Ew, Et', Ec', Eq'.
  repeat split; try assumption; try congruence. lia.
Qed.

(** A response without a usage block is charged as estimated: when the
    encoder accepts the query with the system prompt and the response
    text, the tokens are its counts, the recorded cost is the estimate
    rounded to six decimals, and the running total grows by the
    estimate. *)
Theorem response_without_usage_is_charged_as_estimated
    pf env key st0 calls client clock q mt r rc rcs price tokens_in tokens_out :
  init pf env key = inr st0 ->
  let st := run encode st0 calls in
  client (selected st q) q mt = inr r ->
  choices r = rc :: rcs ->
  usage r = None ->
  price_table !! selected st q = Some price ->
  encode (q ++ system_prompt) = inr tokens_in ->
  (if truthy rc then encode (default "" rc) else inr []) = inr tokens_out ->
  let input_tokens := List.length tokens_in in
  let output_tokens := List.length tokens_out in
  exists st' d,
    route_and_execute encode st client clock q mt = (st', inr d)
    /\ d_success d = true
    /\ d_response d = rc
    /\ tok_input (d_tokens d) = input_tokens
    /\ tok_output (d_tokens d) = output_tokens
    /\ d_cost d = round (call_cost price input_tokens output_tokens) 6
    /\ total_cost st' == total_cost st + call_cost price input_tokens output_tokens.
Proof.
  intros Hinit st Hr Hch Hu Hp Hin Hout input_tokens output_tokens.
  apply count_tokens_accepted in Hin. apply output_tokens_accepted in Hout.
  destruct (constructed _ _ _ _ calls Hinit) as (Hc & Ec & _). fold st in Hc, Ec.
  destruct (counted_selected st q Hc) as [n Hn].
  destruct (route_and_execute_cases st client clock q mt n Hn)
    as (st' & res & E & _ & _ & Htry).
  destruct (try_block encode _ client q mt (selected st q)) as [e | [st2 o]] eqn:Etry.
  - exfalso. unfold try_block in Etry. rewrite Hr, Hch, Hin, Hout in Etry.
    cbn [costs set_complexity_stats set_model_usage set_total_queries] in Etry.
    rewrite Ec, Hp, Hu in Etry. discriminate Etry.
  - destruct Htry as (d & -> & Hs & Ht & Hcost & Hresp & Hi & Ho).
    exists st', d. split; [exact E |].
    apply try_block_done in Etry
      as (r' & rc' & rcs' & price' & i & o' & Er' & Ech' & Ei' & Eo' & Ep' & _
          & Etot & Eresp & Eoc & Eu).
    rewrite Hr in Er'. injection Er' as <-.
    rewrite Hch in Ech'. injection Ech' as <- <-.
    cbn [costs set_complexity_stats set_model_usage set_total_queries] in Ep'.
    rewrite Ec, Hp in Ep'. injection Ep' as <-.
    rewrite Hin in Ei'. injection Ei' as <-.
    rewrite Hout in Eo'. injection Eo' as <-.
    rewrite Hu in Eu. destruct Eu as [Ei Eo].
    cbn [total_cost set_complexity_stats set_model_usage set_total_queries] in Etot.
    subst input_tokens output_tokens.
    repeat split; congruence.
Qed.

(** A response with no choices is handled like a failed call: the index
    error is caught and, the encoder accepting the query, the decision has
    success = false, cost 0, no output tokens and the error text as
    response, and the running total is left as it was. *)
Theorem empty_choices_give_failed_decision
    pf env key st0 calls client clock q mt r tokens :
  init pf env key = inr st0 ->
  let st := run encode st0 calls in
  client (selected st q) q mt = inr r ->
  choices r = [] ->
  encode q = inr tokens ->
  exists st' d,
    route_and_execute encode st client clock q mt = (st', inr d)
    /\ d_success d = false
    /\ d_response d = Some "Error: list index out of range"
    /\ d_cost d == 0
    /\ tok_input (d_tokens d) = List.length tokens
    /\ tok_output (d_tokens d) = 0%nat
    /\ total_cost st' = total_cost st.
Proof.
  intros Hinit st Hr Hch Hq.
  destruct (constructed _ _ _ _ calls Hinit) as (Hc & _). fold st in Hc.
  destruct (counted_selected st q Hc) as [n Hn].
  destruct (route_and_execute_cases st client clock q mt n Hn)
    as (st' & res & E & _ & _ & Htry).
  unfold try_block in Htry. rewrite Hr, Hch, Hq in Htry.
  destruct Htry as (d & -> & Hs & Ht & Hcost & Hresp & Hin & Hout).
  exists st', d. split; [exact E |].
  repeat split; try assumption. rewrite Hcost. reflexivity.
Qed.

(** One call never lowers the running total, and the recorded cost is
    never negative. *)
Lemma call_never_lowers_total st client clock q mt :
  counted st -> costs st = price_table ->
  exists st' r,
    route_and_execute encode st client clock q mt = (st', r)
    /\ total_cost st <= total_cost st'
    /\ (forall d, r = inr d -> 0 <= d_cost d)
    /\ (accepts encode q -> exists d, r = inr d).
Proof.
  intros Hc Ec. destruct (counted_selected st q Hc) as [n Hn].
  destruct (route_and_execute_effect encode st client clock q mt n Hn)
    as (st0 & r0 & E0 & _ & _ & _ & _ & _ & _ & _ & _ & _ & Hacc).
  destruct (route_and_execute_cases st client clock q mt n Hn)
    as (st' & r & E & _ & Hraise & Htry).
  rewrite E in E0. injection E0 as <- <-.
  exists st', r. split; [exact E |].
  destruct (try_block encode _ client q mt (selected st q)) as [e | [st2 o]] eqn:Etry.
  - destruct (encode q) as [e' | tokens].
    + rewrite (Hraise e' Htry). cbn [total_cost set_complexity_stats set_model_usage
                                     set_total_queries].
      split; [apply Qle_refl |]. split; [| exact Hacc].
      intros d Hd. congruence.
    + destruct Htry as (d & -> & _ & Ht & Hcost & _).
      split; [rewrite Ht; apply Qle_refl |]. split; [| exact Hacc].
      intros d' [= <-]. rewrite Hcost. discriminate.
  - destruct Htry as (d & -> & _ & Ht & Hcost & _).
    apply try_block_done in Etry
      as (r & rc & rcs & price & i & o' & _ & _ & _ & _ & Ep & _ & Etot & _ & Eoc & _).
    cbn [costs total_cost set_complexity_stats set_model_usage set_total_queries]
      in Ep, Etot.
    rewrite Ec in Ep. apply price_table_nonneg in Ep as [Hi Ho].
    apply Qlt_le_weak in Hi, Ho.
    split; [| split; [| exact Hacc]].
    + rewrite Ht, Etot.
      pose proof (call_cost_nonneg price i o' Hi Ho).
      lra.
    + intros d' [= <-]. rewrite Hcost, Eoc.
      assert (H0 : round 0 6 == 0) by reflexivity.
      rewrite <- H0. apply round_mono, call_cost_nonneg; assumption.
Qed.

Lemma total_cost_nonneg pf env key st0 calls :
  init pf env key = inr st0 -> 0 <= total_cost (run encode st0 calls).
Proof.
  intros Hinit. destruct (init_ok _ _ _ _ Hinit) as (_ & _ & _ & Ec0 & _ & Hc0).
  assert (H0 : 0 <= total_cost st0).
  { destruct (init_totals _ _ _ _ Hinit) as [-> _]. apply Qle_refl. }
  clear Hinit. revert st0 Ec0 Hc0 H0.
  induction calls as [| c calls IH]; intros st0 Ec0 Hc0 H0; [exact H0 |].
  cbn [run]. apply IH.
  - destruct (step_frame encode st0 c Hc0) as (_ & _ & _ & Ec & _). congruence.
  - apply step_counted, Hc0.
  - unfold step.
    destruct (call_never_lowers_total st0 (c_client c) (c_clock c) (c_query c)
                (c_max_tokens c) Hc0 Ec0) as (st' & r & -> & Hle & _).
    cbn [fst]. lra.
Qed.

(** On a constructed router the running total is never negative, no call
    lowers it, whether it returns or raises, and no recorded cost is
    negative.  A call on a query the encoder accepts returns. *)
Theorem total_cost_never_decreases pf env key st0 calls client clock q mt :
  init pf env key = inr st0 ->
  let st := run encode st0 calls in
  exists st' r,
    route_and_execute encode st client clock q mt = (st', r)
    /\ 0 <= total_cost st
    /\ total_cost st <= total_cost st'
    /\ (forall d, r = inr d -> 0 <= d_cost d)
    /\ (accepts encode q -> exists d, r = inr d).
Proof.
  intros Hinit st.
  pose proof (total_cost_nonneg _ _ _ _ calls Hinit) as Hpos. fold st in Hpos.
  destruct (constructed _ _ _ _ calls Hinit) as (Hc & Ec & _). fold st in Hc, Ec.
  destruct (call_never_lowers_total st client clock q mt Hc Ec)
    as (st' & r & E & Hle & Hd & Hacc).
  exists st', r. repeat split; assumption.
Qed.

(** *** Latency *)

Lemma step_latency st c :
  counted st ->
  match step encode st c with
  | (st', inr _) =>
      total_latency st'
      = total_latency st + (t_end (c_clock c) - t_start (c_clock c)) * 1000
  | (st', inl _) => total_latency st' = total_latency st
  end.
Proof.
  intros Hc. destruct (counted_selected st (c_query c) Hc) as [n Hn]. unfold step.
  destruct (route_and_execute_cases st (c_client c) (c_clock c) (c_query c)
              (c_max_tokens c) n Hn) as (st' & r & -> & Hd & He & _).
  destruct r as [e | d].
  - rewrite (He e eq_refl). reflexivity.
  - apply (Hd d eq_refl).
Qed.

Lemma run_latency st calls :
  counted st ->
  total_latency (run encode st calls)
  == total_latency st
     + Py.sum (List.map (fun c => (t_end (c_clock c) - t_start (c_clock c)) * 1000)
                 (completed encode st calls)).
Proof.
  revert st. induction calls as [| c calls IH]; intros st Hc.
  - cbn. ring.
  - cbn [run completed]. rewrite (IH _ (step_counted encode st c Hc)).
    pose proof (step_latency st c Hc) as Hl.
    destruct (step encode st c) as [st' [e | d]]; cbn [fst].
    + rewrite Hl. reflexivity.
    + cbn [List.map]. rewrite Hl, sum_cons. ring.
Qed.

Lemma completed_all st calls :
  counted st ->
  Forall (fun c => accepts encode (c_query c)) calls ->
  completed encode st calls = calls.
Proof.
  intros Hc Hall. revert st Hc.
  induction Hall as [| c calls Hq _ IH]; intros st Hc; [reflexivity |].
  cbn [completed].
  pose proof (step_counted encode st c Hc) as Hc'.
  destruct (counted_selected st (c_query c) Hc) as [n Hn].
  unfold step in *.
  destruct (route_and_execute_effect encode st (c_client c) (c_clock c) (c_query c)
              (c_max_tokens c) n Hn)
    as (st' & r & E & _ & _ & _ & _ & _ & _ & _ & _ & _ & Hacc).
  rewrite E in Hc' |- *. cbn [fst] in Hc'.
  destruct (Hacc Hq) as [d ->]. rewrite (IH st' Hc'). reflexivity.
Qed.

(** The accumulated latency is the sum of the latencies of the calls that
    returned a dictionary, failed ones included; a call that raised adds
    nothing.  When the encoder accepts every query of the history, these
    are all the calls made. *)
Theorem total_latency_is_sum_of_latencies pf env key st0 calls :
  init pf env key = inr st0 ->
  total_latency (run encode st0 calls)
  == Py.sum (List.map (fun c => (t_end (c_clock c) - t_start (c_clock c)) * 1000)
               (completed encode st0 calls))
  /\ (Forall (fun c => accepts encode (c_query c)) calls ->
      completed encode st0 calls = calls).
Proof.
  intros Hinit. destruct (init_ok _ _ _ _ Hinit) as (_ & _ & _ & _ & _ & Hc0).
  split; [| apply completed_all, Hc0].
  rewrite (run_latency st0 calls Hc0).
  destruct (init_totals _ _ _ _ Hinit) as [_ ->]. ring.
Qed.

(** *** Which calls raise *)

Lemma results_from st calls :
  counted st ->
  Forall2 (fun c r =>
             (exists d, r = inr d /\ d_query d = c_query c)
             \/ (exists e, r = inl e /\ encode (c_query c) = inl e))
          calls (results encode st calls)
  /\ (Forall (fun c => accepts encode (c_query c)) calls ->
      Forall (fun r => exists d, r = inr d) (results encode st calls)).
Proof.
  revert st. induction calls as [| c calls IH]; intros st Hc; cbn [results].
  - split; [constructor | intros _; constructor].
  - destruct (IH _ (step_counted encode st c Hc)) as [IH1 IH2].
    destruct (counted_selected st (c_query c) Hc) as [n Hn].
    unfold step in *.
    destruct (route_and_execute_effect encode st (c_client c) (c_clock c) (c_query c)
                (c_max_tokens c) n Hn)
      as (st' & r & E & _ & _ & _ & _ & _ & _ & _ & Hd & He & Hacc).
    rewrite E in IH1, IH2 |- *. cbn [fst snd] in IH1, IH2 |- *.
    split.
    + constructor; [| exact IH1].
      destruct r as [e | d].
      * right. exists e. split; [reflexivity | apply He; reflexivity].
      * left. exists d. split; [reflexivity | apply (Hd d eq_refl)].
    + intros Hall. inversion Hall as [| c' calls' Hq Hrest]; subst.
      constructor; [apply Hacc, Hq | apply IH2, Hrest].
Qed.

(** On a constructed router no error of the chat completion call, and no
    other error met inside the [try] block, leaves [route_and_execute]:
    every call of a history either returns a dictionary for its query or
    raises the exception with which the encoder refused that query.  When
    the encoder accepts every query of the history, every call returns. *)
Theorem only_a_refused_query_makes_a_call_raise pf env key st0 calls :
  init pf env key = inr st0 ->
  Forall2 (fun c r =>
             (exists d, r = inr d /\ d_query d = c_query c)
             \/ (exists e, r = inl e /\ encode (c_query c) = inl e))
          calls (results encode st0 calls)
  /\ (Forall (fun c => accepts encode (c_query c)) calls ->
      Forall (fun r => exists d, r = inr d) (results encode st0 calls)).
Proof.
  intros Hinit. destruct (init_ok _ _ _ _ Hinit) as (_ & _ & _ & _ & _ & Hc).
  apply results_from, Hc.
Qed.

(** *** Thresholds *)

Lemma score_above_base (q : string) :
  fst (base_of q) <= score (classify_complexity q) <= 1.
Proof.
  rewrite (ClassifierProps.score_from_factors q).
  assert (Hlf : 0 <= round (raw_length_factor q) 3 <= 2 # 10).
  { apply ClassifierProps.round_within;
      [reflexivity | reflexivity | apply ClassifierProps.raw_length_factor_bounds]. }
  assert (Htb : 0 <= raw_tech_boost q)
    by (destruct (ClassifierProps.raw_tech_boost_cases q) as [E | [E | E]];
        rewrite E; lra).
  assert (Hqf : 0 <= raw_question_factor q)
    by (destruct (ClassifierProps.raw_question_factor_cases q) as [E | [E | E]];
        rewrite E; lra).
  pose proof (ClassifierProps.base_le_high q).
  split; [apply Q.min_glb; lra | apply Q.le_min_r].
Qed.

Lemma selected_strong st q :
  threshold st <= score (classify_complexity q) -> selected st q = strong_model st.
Proof.
  intros H. unfold selected, select_model, geb.
  apply Qle_bool_iff in H. rewrite H. reflexivity.
Qed.

Lemma selected_weak st q :
  score (classify_complexity q) < threshold st -> selected st q = weak_model st.
Proof.
  intros H. unfold selected, select_model, geb.
  destruct (Qle_bool (threshold st) (score (classify_complexity q))) eqn:E;
    [| reflexivity].
  apply Qle_bool_iff in E. exfalso. lra.
Qed.

(** What the threshold alone decides: at 0.3 or below every query goes to
    the strong model, above 1 every query goes to the weak model, and at
    0.8 or below (the default 0.7 included) every query that matches a
    high-tier keyword goes to the strong model.  The call is counted for
    the model [m] so decided, and a returned dictionary names it; a call
    on a query the encoder accepts returns. *)
Theorem routing_fixed_by_threshold pf env key st0 calls client clock q mt :
  init pf env key = inr st0 ->
  let st := run encode st0 calls in
  exists st' r m,
    route_and_execute encode st client clock q mt = (st', r)
    /\ (threshold st <= 3 # 10 -> m = strong_model st)
    /\ (1 < threshold st -> m = weak_model st)
    /\ (matched high q -> threshold st <= 8 # 10 -> m = strong_model st)
    /\ (exists n, model_usage st !! m = Some n
                  /\ model_usage st' !! m = Some (n + 1)%nat)
    /\ (forall d, r = inr d -> d_model d = m)
    /\ (accepts encode q -> exists d, r = inr d).
Proof.
  intros Hinit st.
  destruct (constructed _ _ _ _ calls Hinit) as (Hc & _). fold st in Hc.
  destruct (counted_selected st q Hc) as [n Hn].
  destruct (route_and_execute_effect encode st client clock q mt n Hn)
    as (st' & r & E & _ & _ & _ & _ & _ & Eu & _ & Em & _ & Hacc).
  exists st', r, (selected st q). split; [exact E |].
  pose proof (score_above_base q) as [Hlo Hhi].
  split; [| split; [| split; [| split; [| split]]]].
  - intros Ht. apply selected_strong.
    pose proof (ClassifierProps.base_cases q) as [B | [B | B]];
      rewrite B in Hlo; cbn [fst] in Hlo; lra.
  - intros Ht. apply selected_weak. lra.
  - intros (w & Hin & Hw) Ht. apply selected_strong.
    rewrite (ClassifierProps.base_high q) in Hlo
      by (apply (ClassifierProps.count_in_some _ _ w); assumption).
    cbn [fst] in Hlo. lra.
  - exists n. split; [exact Hn |]. rewrite Eu. apply lookup_insert_eq.
  - intros d Hd. apply (Em d Hd).
  - exact Hacc.
Qed.

(** *** Performance statistics *)

Lemma inject_nat_pos (n : nat) : (0 < n)%nat -> 0 < inject_Z (Z.of_nat n).
Proof. intros H. change 0 with (inject_Z 0). rewrite <- Zlt_Qlt. lia. Qed.

Lemma get_performance_stats_counted st s w :
  (0 < total_queries st)%nat ->
  model_usage st !! strong_model st = Some s ->
  model_usage st !! weak_model st = Some w ->
  exists stats,
    get_performance_stats st = inr (Performance stats)
    /\ ps_total_queries stats = total_queries st
    /\ ps_model_usage stats = model_usage st
    /\ complexity_distribution stats = complexity_stats st
    /\ ps_total_cost stats = round (total_cost st) 6
    /\ actual_cost (cost_analysis stats) = round (total_cost st) 6
    /\ average_latency_ms stats
       = round (total_latency st / inject_Z (Z.of_nat (total_queries st))) 2
    /\ savings_percent (cost_analysis stats)
       = round ((inject_Z (Z.of_nat (total_queries st)) * (2 # 1000) - total_cost st)
                / (inject_Z (Z.of_nat (total_queries st)) * (2 # 1000)) * 100) 2
    /\ weak_model_usage_percent (efficiency stats)
       = round (inject_Z (Z.of_nat w) / inject_Z (Z.of_nat (total_queries st)) * 100) 2
    /\ strong_model_usage_percent (efficiency stats)
       = round (inject_Z (Z.of_nat s) / inject_Z (Z.of_nat (total_queries st)) * 100) 2.
Proof.
  intros Hn Hs Hw. unfold get_performance_stats.
  destruct (Nat.eqb_spec (total_queries st) 0) as [E | _]; [lia |].
  rewrite Hw, Hs.
  assert (Hg : gtb (inject_Z (Z.of_nat (total_queries st)) * (2 # 1000)) 0 = true).
  { unfold gtb. rewrite negb_true_iff, <- not_true_iff_false, Qle_bool_iff.
    pose proof (inject_nat_pos _ Hn). intros H'. nra. }
  rewrite Hg. eexists. split; [reflexivity |]. cbn. repeat split; reflexivity.
Qed.

(** Before any query [get_performance_stats] returns the error
    dictionary; after at least one call, failed or not, it returns the
    statistics, with the number of calls as [total_queries] and the
    router's counters as distributions.  It never raises. *)
Theorem performance_stats_after_calls pf env key st0 calls :
  init pf env key = inr st0 ->
  let st := run encode st0 calls in
  match calls with
  | [] => get_performance_stats st = inr (NoQueries "No queries processed yet")
  | _ :: _ =>
      exists stats,
        get_performance_stats st = inr (Performance stats)
        /\ ps_total_queries stats = List.length calls
        /\ ps_model_usage stats = model_usage st
        /\ complexity_distribution stats = complexity_stats st
  end.
Proof.
  intros Hinit st.
  destruct (constructed _ _ _ _ calls Hinit) as (Hc & _ & _ & _ & _ & Eq).
  fold st in Hc, Eq.
  destruct calls as [| c calls].
  - unfold get_performance_stats. rewrite Eq. reflexivity.
  - destruct Hc as (s & w & Hs & Hw & _).
    destruct (get_performance_stats_counted st s w) as (stats & E & En & Eu & Ec & _);
      [rewrite Eq; cbn; lia | assumption | assumption |].
    exists stats. repeat split; congruence.
Qed.

(** The reported cost figures stay in range: the actual cost is never
    negative and the savings percentage never exceeds 100. *)
Theorem reported_savings_at_most_100 pf env key st0 calls :
  init pf env key = inr st0 ->
  calls <> [] ->
  exists stats,
    get_performance_stats (run encode st0 calls) = inr (Performance stats)
    /\ 0 <= actual_cost (cost_analysis stats)
    /\ savings_percent (cost_analysis stats) <= 100.
Proof.
  intros Hinit Hcalls. set (st := run encode st0 calls).
  pose proof (total_cost_nonneg _ _ _ _ calls Hinit) as Hpos. fold st in Hpos.
  destruct (constructed _ _ _ _ calls Hinit) as (Hc & _ & _ & _ & _ & Eq).
  fold st in Hc, Eq.
  assert (Hn : (0 < total_queries st)%nat).
  { rewrite Eq. destruct calls; [congruence | cbn; lia]. }
  destruct Hc as (s & w & Hs & Hw & _).
  destruct (get_performance_stats_counted st s w Hn Hs Hw)
    as (stats & E & _ & _ & _ & _ & Pa & _ & Psv & _).
  exists stats. split; [exact E |]. rewrite Pa, Psv.
  pose proof (inject_nat_pos _ Hn) as Hq.
  set (n := inject_Z (Z.of_nat (total_queries st))) in *.
  split.
  - assert (H0 : round 0 6 == 0) by reflexivity.
    rewrite <- H0. apply round_mono, Hpos.
  - assert (H100 : round 100 2 == 100) by reflexivity.
    rewrite <- H100 at 2. apply round_mono.
    assert (Hh : 0 < n * (2 # 1000)) by nra.
    assert (E' : (n * (2 # 1000) - total_cost st) / (n * (2 # 1000)) * 100
                 == 100 - total_cost st * (100 / (n * (2 # 1000))))
      by (field; lra).
    rewrite E'.
    assert (0 < 100 / (n * (2 # 1000))).
    { apply Qlt_shift_div_l; [exact Hh | lra]. }
    nra.
Qed.

(** *** Batches *)

Lemma batch_loop_counted st queries :
  counted st ->
  exists st' r,
    batch_loop encode st queries = (st', r)
    /\ (forall results, r = inr results ->
          List.map d_query results = List.map b_query queries
          /\ total_queries st' = (total_queries st + List.length queries)%nat)
    /\ (forall e, r = inl e ->
          exists item, In item queries /\ encode (b_query item) = inl e)
    /\ (Forall (fun item => accepts encode (b_query item)) queries ->
        exists results, r = inr results).
Proof.
  revert st. induction queries as [| item rest IH]; intros st Hc.
  - exists st, (inr []). cbn. split; [reflexivity |].
    split; [intros results [= <-]; split; [reflexivity | lia] |].
    split; [intros e [=] | intros _; eauto].
  - cbn [batch_loop].
    destruct (counted_selected st (b_query item) Hc) as [n Hn].
    pose proof (step_counted encode st
                  {| c_query := b_query item; c_max_tokens := 150;
                     c_client := b_client item; c_clock := b_clock item |} Hc) as Hc'.
    unfold step in Hc'. cbn [c_query c_max_tokens c_client c_clock] in Hc'.
    destruct (route_and_execute_effect encode st (b_client item) (b_clock item)
                (b_query item) 150 n Hn)
      as (st1 & r1 & E & _ & _ & _ & _ & Eq & _ & _ & Hd & He & Hacc).
    rewrite E in Hc' |- *. cbn [fst] in Hc'.
    destruct r1 as [e1 | d].
    + exists st1, (inl e1). split; [reflexivity |].
      split; [intros results [=] |].
      split.
      * intros e [= <-]. exists item. split; [left; reflexivity | apply He; reflexivity].
      * intros Hall. inversion Hall as [| i' r' Hq Hrest]; subst.
        destruct (Hacc Hq) as [d Hd']. discriminate Hd'.
    + destruct (IH st1 Hc') as (st2 & r2 & E2 & Hres & Herr & Hall2).
      rewrite E2. destruct r2 as [e2 | results].
      * exists st2, (inl e2). split; [reflexivity |].
        split; [intros results [=] |].
        split.
        -- intros e [= <-]. destruct (Herr e2 eq_refl) as (it & Hin & Hit).
           exists it. split; [right; exact Hin | exact Hit].
        -- intros Hall. inversion Hall as [| i' r' Hq Hrest]; subst.
           destruct (Hall2 Hrest) as [results Hr]. discriminate Hr.
      * exists st2, (inr (d :: results)). split; [reflexivity |].
        destruct (Hres results eq_refl) as [Hq Hn2].
        destruct (Hd d eq_refl) as [_ Hdq].
        split.
        -- intros results' [= <-]. cbn [List.map List.length].
           split; [congruence | lia].
        -- split; [intros e [=] | intros _; eauto].
Qed.

(** A batch on a constructed router: for an empty list of queries the
    call raises [ZeroDivisionError] and leaves the router as it was.
    Otherwise, when it returns, it returns one decision per query, in the
    order of the queries, and every query has been counted; when it
    raises, the exception is the one with which the encoder refused one of
    the queries; and it returns whenever the encoder accepts every
    query. *)
Theorem batch_results_follow_queries pf env key st0 calls queries :
  init pf env key = inr st0 ->
  let st := run encode st0 calls in
  match queries with
  | [] => batch_route_and_execute encode st queries = (st, inl ZeroDivisionError)
  | _ :: _ =>
      exists st' r,
        batch_route_and_execute encode st queries = (st', r)
        /\ (forall results, r = inr results ->
              List.map d_query results = List.map b_query queries
              /\ total_queries st' = (total_queries st + List.length queries)%nat)
        /\ (forall e, r = inl e ->
              exists item, In item queries /\ encode (b_query item) = inl e)
        /\ (Forall (fun item => accepts encode (b_query item)) queries ->
            exists results, r = inr results)
  end.
Proof.
  intros Hinit st.
  destruct (constructed _ _ _ _ calls Hinit) as (Hc & _). fold st in Hc.
  destruct queries as [| item rest]; [reflexivity |].
  destruct (batch_loop_counted st (item :: rest) Hc)
    as (st' & r & E & Hres & Herr & Hall).
  exists st', r. unfold batch_route_and_execute. rewrite E.
  destruct r as [e | results];
    (split; [reflexivity |]); (split; [exact Hres |]); split; assumption.
Qed.

End Facts.

Lemma response_without_usage_is_charged_as_estimated_witness :
  exists st' d,
    route_and_execute Scenario.one_per_char Scenario.router_default
      (Scenario.answering "okay" None) Scenario.clock0 "Explain recursion" 150
    = (st', inr d)
    /\ d_success d = true
    /\ d_cost d == 15 # 1000000
    /\ total_cost st' == 147 # 10000000.
Proof.
  destruct (response_without_usage_is_charged_as_estimated Scenario.one_per_char
              Scenario.platform Scenario.env_default None Scenario.router_default []
              (Scenario.answering "okay" None) Scenario.clock0 "Explain recursion"
              150%nat {| choices := [Some "okay"]; usage := None |} (Some "okay") []
              {| input := 15 # 100000; output := 6 # 10000 |}
              (List.repeat 0%nat 82) (List.repeat 0%nat 4)
              Scenario.init_default eq_refl eq_refl eq_refl)
    as (st' & d & E & Hs & _ & _ & _ & Hc & Ht).
  - vm_compute. reflexivity.
  - reflexivity.
  - reflexivity.
  - exists st', d. split; [exact E |]. split; [exact Hs |].
    rewrite Hc, Ht. split; vm_compute; reflexivity.
Defined.

Lemma empty_choices_give_failed_decision_witness :
  exists st' d,
    route_and_execute Scenario.one_per_char Scenario.router_default
      ScenarioExtra.silent Scenario.clock0 "Explain recursion" 150
    = (st', inr d)
    /\ d_success d = false
    /\ d_response d = Some "Error: list index out of range".
Proof.
  destruct (empty_choices_give_failed_decision Scenario.one_per_char
              Scenario.platform Scenario.env_default None Scenario.router_default []
              ScenarioExtra.silent Scenario.clock0 "Explain recursion" 150%nat
              {| choices := []; usage := None |} (List.repeat 0%nat 17)
              Scenario.init_default eq_refl eq_refl eq_refl)
    as (st' & d & E & Hs & Hr & _).
  exists st', d. repeat split; assumption.
Defined.

Lemma total_cost_never_decreases_witness :
  exists st' d,
    route_and_execute Scenario.one_per_char
      (run Scenario.one_per_char Scenario.router_default ScenarioExtra.two_calls)
      (Scenario.answering "ok" None) Scenario.clock0 "Explain recursion" 150
    = (st', inr d)
    /\ 0 <= d_cost d.
Proof.
  destruct (total_cost_never_decreases Scenario.one_per_char Scenario.platform
              Scenario.env_default None Scenario.router_default
              ScenarioExtra.two_calls (Scenario.answering "ok" None)
              Scenario.clock0 "Explain recursion" 150%nat Scenario.init_default)
    as (st' & r & E & _ & _ & Hd & Hacc).
  destruct Hacc as [d ->]; [eexists; reflexivity |].
  exists st', d. split; [exact E | apply Hd; reflexivity].
Defined.

Lemma total_latency_is_sum_of_latencies_witness :
  total_latency
    (run Scenario.strict Scenario.router_default ScenarioExtra.three_calls)
  == 1000.
Proof.
  rewrite (proj1 (total_latency_is_sum_of_latencies Scenario.strict
                    Scenario.platform Scenario.env_default None
                    Scenario.router_default ScenarioExtra.three_calls
                    Scenario.init_default)).
  vm_compute. reflexivity.
Defined.

Lemma only_a_refused_query_makes_a_call_raise_witness :
  Forall (fun r => exists d, r = inr d)
    (results Scenario.one_per_char Scenario.router_default ScenarioExtra.two_calls).
Proof.
  apply (proj2 (only_a_refused_query_makes_a_call_raise Scenario.one_per_char
                  Scenario.platform Scenario.env_default None
                  Scenario.router_default ScenarioExtra.two_calls
                  Scenario.init_default)).
  repeat constructor; eexists; reflexivity.
Defined.

Lemma routing_fixed_by_threshold_witness :
  exists st' d,
    route_and_execute Scenario.one_per_char Scenario.router_default
      (Scenario.failing "quota") Scenario.clock0 "Explain recursion" 150
    = (st', inr d)
    /\ d_model d = "gpt-4o-mini".
Proof.
  destruct (routing_fixed_by_threshold Scenario.one_per_char Scenario.platform
              Scenario.env_default None Scenario.router_default []
              (Scenario.failing "quota") Scenario.clock0 "Explain recursion"
              150%nat Scenario.init_default)
    as (st' & r & m & E & _ & _ & Hh & _ & Hd & Hacc).
  destruct Hacc as [d ->]; [eexists; reflexivity |].
  exists st', d. split; [exact E |]. rewrite (Hd d eq_refl). apply Hh.
  - exists "explain". split; [cbn; tauto | reflexivity].
  - vm_compute. discriminate.
Defined.

Lemma performance_stats_after_calls_witness :
  exists stats,
    get_performance_stats
      (run Scenario.one_per_char Scenario.router_default ScenarioExtra.two_calls)
    = inr (Performance stats)
    /\ ps_total_queries stats = 2%nat.
Proof.
  destruct (performance_stats_after_calls Scenario.one_per_char Scenario.platform
              Scenario.env_default None Scenario.router_default
              ScenarioExtra.two_calls Scenario.init_default)
    as (stats & E & En & _).
  exists stats. split; assumption.
Defined.

Lemma reported_savings_at_most_100_witness :
  exists stats,
    get_performance_stats
      (run Scenario.one_per_char Scenario.router_default ScenarioExtra.two_calls)
    = inr (Performance stats)
    /\ 0 <= actual_cost (cost_analysis stats)
    /\ savings_percent (cost_analysis stats) <= 100.
Proof.
  apply (reported_savings_at_most_100 Scenario.one_per_char Scenario.platform
           Scenario.env_default None Scenario.router_default
           ScenarioExtra.two_calls Scenario.init_default).
  discriminate.
Defined.

Lemma batch_results_follow_queries_witness :
  exists st' results,
    batch_route_and_execute Scenario.one_per_char Scenario.router_default
      [ScenarioExtra.item "Who created Linux?" (Scenario.failing "quota");
       ScenarioExtra.item "Explain recursion" (Scenario.answering "ok" None)]
    = (st', inr results)
    /\ List.map d_query results = ["Who created Linux?"; "Explain recursion"]
    /\ total_queries st' = 2%nat.
Proof.
  destruct (batch_results_follow_queries Scenario.one_per_char Scenario.platform
              Scenario.env_default None Scenario.router_default []
              [ScenarioExtra.item "Who created Linux?" (Scenario.failing "quota");
               ScenarioExtra.item "Explain recursion" (Scenario.answering "ok" None)]
              Scenario.init_default)
    as (st' & r & E & Hres & _ & Hall).
  destruct Hall as [results ->]; [repeat constructor; eexists; reflexivity |].
  exists st', results. split; [exact E |]. apply (Hres results eq_refl).
Defined.

End RouterExtras.

(** ** More on the metrics collector *)

Module MetricsExtras.
Import Py Metrics MetricsRun MetricsProps.

(** *** The three dictionaries *)

Lemma record_routes mc s r :
  default 0%nat (routes (record mc s) !! r)
  = (default 0%nat (routes mc !! r) + (if String.eqb (route s) r then 1 else 0))%nat.
Proof.
  unfold record, record_routing. cbn [routes].
  destruct (String.eqb_spec (route s) r) as [-> | Hne].
  - rewrite lookup_insert_eq. reflexivity.
  - rewrite lookup_insert_ne by exact Hne. lia.
Qed.

Lemma record_costs mc s r :
  default 0 (costs (record mc s) !! r)
  == default 0 (costs mc !! r) + (if String.eqb (route s) r then cost s else 0).
Proof.
  unfold record, record_routing. cbn [costs].
  destruct (String.eqb_spec (route s) r) as [-> | Hne].
  - rewrite lookup_insert_eq. reflexivity.
  - rewrite lookup_insert_ne by exact Hne. ring.
Qed.

Lemma record_metrics mc s r :
  r <> "all" ->
  default [] (metrics (record mc s) !! r)
  = (default [] (metrics mc !! r) ++ (if String.eqb (route s) r then [s] else []))%list.
Proof.
  intros Hr. unfold record, record_routing. cbn [metrics].
  destruct s as [ts q rt l c]. cbn [route timestamp query latency_ms cost].
  destruct (String.eqb_spec rt r) as [-> | Hne].
  - rewrite lookup_insert_eq. cbn [default from_option id].
    rewrite lookup_insert_ne by (intros E; apply Hr; symmetry; exact E).
    reflexivity.
  - rewrite lookup_insert_ne by exact Hne.
    rewrite lookup_insert_ne by (intros E; apply Hr; symmetry; exact E).
    rewrite app_nil_r. reflexivity.
Qed.


Lemma record_all_cons mc s ss : record_all mc (s :: ss) = record_all (record mc s) ss.
Proof. reflexivity. Qed.

Lemma routed_to_cons r s ss :
  routed_to r (s :: ss)
  = if String.eqb (route s) r then s :: routed_to r ss else routed_to r ss.
Proof. reflexivity. Qed.

Lemma by_route_from mc ss r :
  default 0%nat (routes (record_all mc ss) !! r)
  = (default 0%nat (routes mc !! r) + List.length (routed_to r ss))%nat
  /\ default 0 (costs (record_all mc ss) !! r)
     == default 0 (costs mc !! r) + Py.sum (List.map cost (routed_to r ss))
  /\ (r <> "all" ->
      default [] (metrics (record_all mc ss) !! r)
      = (default [] (metrics mc !! r) ++ routed_to r ss)%list).
Proof.
  revert mc. induction ss as [| s ss IH]; intros mc.
  - cbn. repeat split; [lia | ring | intros _; rewrite app_nil_r; reflexivity].
  - rewrite record_all_cons, routed_to_cons.
    destruct (IH (record mc s)) as (Hr & Hc & Hm).
    rewrite Hr, Hc, record_routes, record_costs.
    split; [| split].
    + destruct (String.eqb (route s) r); cbn [List.length]; lia.
    + destruct (String.eqb (route s) r); cbn [List.map];
        [rewrite RouterExtras.sum_cons |]; ring.
    + intros Hne. rewrite (Hm Hne), (record_metrics mc s r Hne).
      destruct (String.eqb (route s) r); rewrite <- app_assoc; reflexivity.
Qed.

(** After any recordings on a fresh collector, for every route name: the
    route counter is the number of recordings made for the route, the
    route's cost is the sum of their costs, and (for a route not named
    "all") the route's list holds exactly those recordings, oldest
    first. *)
Theorem bookkeeping_by_route (now : Q) (ss : list Sample) (r : string) :
  let mc := record_all (init now) ss in
  default 0%nat (routes mc !! r) = List.length (routed_to r ss)
  /\ default 0 (costs mc !! r) == Py.sum (List.map cost (routed_to r ss))
  /\ (r <> "all" -> default [] (metrics mc !! r) = routed_to r ss).
Proof.
  cbn zeta. destruct (by_route_from (init now) ss r) as (Hr & Hc & Hm).
  rewrite Hr, Hc. cbn [init routes costs]. rewrite !lookup_empty. cbn [default from_option id].
  split; [reflexivity |]. split; [ring |].
  intros Hne. rewrite (Hm Hne). cbn [init metrics]. rewrite lookup_empty. reflexivity.
Qed.



Lemma all_entries_plain ss :
  routed_to "all" ss = [] -> all_entries ss = ss.
Proof.
  unfold all_entries. induction ss as [| s ss IH]; [reflexivity |].
  rewrite routed_to_cons. cbn [List.flat_map].
  destruct (String.eqb (route s) "all"); [discriminate |].
  intros H. rewrite (IH H). reflexivity.
Qed.

(** *** The total of the costs *)





(** *** Reading the statistics *)

Lemma get_statistics_fields (mc : MetricsCollector) :
  all_latencies mc <> [] ->
  let xs := all_latencies mc in
  let n := Z.of_nat (List.length xs) in
  exists stats,
    get_statistics mc = inr (Stats stats)
    /\ total_queries stats = List.length (default [] (metrics mc !! "all"))
    /\ costs_total stats = cost_sum (costs mc)
    /\ costs_by_route stats = costs mc
    /\ routes_distribution stats = routes mc
    /\ l_mean (latency stats) = mean xs
    /\ l_median (latency stats) = median xs
    /\ l_min (latency stats) = minimum xs
    /\ l_max (latency stats) = maximum xs
    /\ sorted xs !! Z.to_nat (n * 95 / 100) = Some (p95 (latency stats))
    /\ sorted xs !! Z.to_nat (n * 99 / 100) = Some (p99 (latency stats)).
Proof.
  intros Hne. cbn zeta. unfold get_statistics.
  generalize dependent (all_latencies mc). intros xs Hne.
  destruct (percentile_defined xs 95 Hne) as (x95 & E95 & L95); [lia |].
  destruct (percentile_defined xs 99 Hne) as (x99 & E99 & L99); [lia |].
  destruct xs as [| x0 xs0] eqn:Exs; [congruence |].
  rewrite E95, E99. eexists. split; [reflexivity |].
  cbn [total_queries costs_total costs_by_route routes_distribution latency
       l_mean l_median l_min l_max p95 p99].
  repeat split; assumption.
Qed.

Lemma get_statistics_some (mc : MetricsCollector) (stats : Statistics) :
  get_statistics mc = inr (Stats stats) -> all_latencies mc <> [].
Proof.
  unfold get_statistics. destruct (all_latencies mc); [discriminate | discriminate].
Qed.


(** *** Order of the latency statistics *)

Lemma fold_min_le (a : Q) (xs : list Q) :
  fold_right Qmin a xs <= a /\ forall x, In x xs -> fold_right Qmin a xs <= x.
Proof.
  induction xs as [| y ys [IHa IHx]]; cbn [fold_right].
  - split; [apply Qle_refl | intros x []].
  - split.
    + eapply Qle_trans; [apply Q.le_min_r | exact IHa].
    + intros x [<- | Hx]; [apply Q.le_min_l |].
      eapply Qle_trans; [apply Q.le_min_r | apply IHx, Hx].
Qed.

Lemma fold_max_ge (a : Q) (xs : list Q) :
  a <= fold_right Qmax a xs /\ forall x, In x xs -> x <= fold_right Qmax a xs.
Proof.
  induction xs as [| y ys [IHa IHx]]; cbn [fold_right].
  - split; [apply Qle_refl | intros x []].
  - split.
    + eapply Qle_trans; [exact IHa | apply Q.le_max_r].
    + intros x [<- | Hx]; [apply Q.le_max_l |].
      eapply Qle_trans; [apply IHx, Hx | apply Q.le_max_r].
Qed.

Lemma within_range (xs : list Q) (x : Q) :
  In x xs -> minimum xs <= x <= maximum xs.
Proof.
  intros Hx. split.
  - apply (fold_min_le (hd 0 xs) xs), Hx.
  - apply (fold_max_ge (hd 0 xs) xs), Hx.
Qed.

Lemma sorted_In (xs : list Q) (x : Q) : In x (sorted xs) <-> In x xs.
Proof.
  unfold sorted. rewrite <- !list_elem_of_In.
  rewrite (merge_sort_Permutation Qle xs). reflexivity.
Qed.

Lemma lookup_sorted_In (xs : list Q) (i : nat) (x : Q) :
  sorted xs !! i = Some x -> In x xs.
Proof.
  intros H. apply sorted_In, list_elem_of_In, list_elem_of_lookup. eauto.
Qed.

Lemma strongly_sorted_lookup (l : list Q) (i j : nat) (a b : Q) :
  StronglySorted Qle l -> (i <= j)%nat ->
  l !! i = Some a -> l !! j = Some b -> a <= b.
Proof.
  intros Hs. revert i j. induction Hs as [| x l Hs IH Hall]; intros i j Hij Hi Hj.
  - discriminate Hi.
  - destruct i as [| i], j as [| j]; cbn in Hi, Hj.
    + injection Hi as <-. injection Hj as <-. apply Qle_refl.
    + injection Hi as <-. rewrite Forall_forall in Hall.
      apply Hall, list_elem_of_lookup. eauto.
    + lia.
    + apply (IH i j); [lia | assumption | assumption].
Qed.

Lemma sorted_strongly (xs : list Q) : StronglySorted Qle (sorted xs).
Proof.
  apply Sorted_StronglySorted.
  - intros x y z. apply Qle_trans.
  - apply Sorted_merge_sort. exact Qle_total.
Qed.

(** The reported percentiles are ordered and lie between the reported
    minimum and maximum: min <= p95 <= p99 <= max; and every recorded
    latency lies between the minimum and the maximum. *)
Theorem percentiles_are_ordered (mc : MetricsCollector) (stats : Statistics) :
  get_statistics mc = inr (Stats stats) ->
  let L := latency stats in
  l_min L <= p95 L
  /\ p95 L <= p99 L
  /\ p99 L <= l_max L
  /\ forall x, In x (all_latencies mc) -> l_min L <= x <= l_max L.
Proof.
  intros Hget. pose proof (get_statistics_some mc stats Hget) as Hne.
  destruct (get_statistics_fields mc Hne)
    as (stats' & E & _ & _ & _ & _ & _ & _ & Emin & Emax & L95 & L99).
  rewrite Hget in E. injection E as <-.
  cbn zeta. rewrite Emin, Emax.
  pose proof (within_range _ _ (lookup_sorted_In _ _ _ L95)) as [H1 _].
  pose proof (within_range _ _ (lookup_sorted_In _ _ _ L99)) as [_ H2].
  repeat split; try assumption.
  - refine (strongly_sorted_lookup _ _ _ _ _ (sorted_strongly _) _ L95 L99).
    apply Z2Nat.inj_le; [apply Z.div_pos; lia | apply Z.div_pos; lia |].
    apply Z.div_le_mono; lia.
  - apply within_range, H.
  - apply within_range, H.
Qed.

Lemma sum_bounds (xs : list Q) (lo hi : Q) :
  (forall x, In x xs -> lo <= x <= hi) ->
  inject_Z (Z.of_nat (List.length xs)) * lo <= Py.sum xs
  /\ Py.sum xs <= inject_Z (Z.of_nat (List.length xs)) * hi.
Proof.
  induction xs as [| x xs IH]; intros H.
  - change (Py.sum []) with 0. change (inject_Z (Z.of_nat (List.length (@nil Q)))) with 0.
    split; lra.
  - destruct IH as [IHlo IHhi]; [intros y Hy; apply H; right; exact Hy |].
    destruct (H x (or_introl eq_refl)) as [Hlo Hhi].
    rewrite RouterExtras.sum_cons. cbn [List.length].
    rewrite Nat2Z.inj_succ. unfold Z.succ. rewrite inject_Z_plus.
    change (inject_Z 1) with 1. split; lra.
Qed.

Lemma nth_sorted_within (xs : list Q) (i : nat) :
  (i < List.length xs)%nat ->
  minimum xs <= nth i (sorted xs) 0 <= maximum xs.
Proof.
  intros Hi. apply within_range, sorted_In, nth_In.
  rewrite sorted_length. exact Hi.
Qed.

(** The reported mean and median lie between the reported minimum and
    maximum. *)
Theorem mean_and_median_within_range (mc : MetricsCollector) (stats : Statistics) :
  get_statistics mc = inr (Stats stats) ->
  let L := latency stats in
  l_min L <= l_mean L <= l_max L /\ l_min L <= l_median L <= l_max L.
Proof.
  intros Hget. pose proof (get_statistics_some mc stats Hget) as Hne.
  destruct (get_statistics_fields mc Hne)
    as (stats' & E & _ & _ & _ & _ & Emean & Emed & Emin & Emax & _).
  rewrite Hget in E. injection E as <-.
  cbn zeta. rewrite Emean, Emed, Emin, Emax.
  generalize dependent (all_latencies mc). intros xs Hne _ _ _ _.
  assert (Hn : (0 < List.length xs)%nat) by (destruct xs; [congruence | cbn; lia]).
  split.
  - unfold mean.
    destruct (sum_bounds xs (minimum xs) (maximum xs) (within_range xs)) as [Hlo Hhi].
    assert (Hpos : 0 < inject_Z (Z.of_nat (List.length xs)))
      by (apply RouterExtras.inject_nat_pos, Hn).
    split.
    + apply Qle_shift_div_l; [exact Hpos |]. rewrite Qmult_comm. exact Hlo.
    + apply Qle_shift_div_r; [exact Hpos |]. rewrite Qmult_comm. exact Hhi.
  - unfold median.
    assert (H2 : (List.length xs / 2 < List.length xs)%nat)
      by (apply Nat.div_lt; lia).
    pose proof (nth_sorted_within xs (List.length xs / 2) H2) as [Ha Hb].
    destruct (Nat.even (List.length xs)); [| split; assumption].
    assert (H1 : (List.length xs / 2 - 1 < List.length xs)%nat) by lia.
    pose proof (nth_sorted_within xs (List.length xs / 2 - 1) H1) as [Hc Hd].
    split.
    + apply Qle_shift_div_l; [reflexivity | lra].
    + apply Qle_shift_div_r; [reflexivity | lra].
Qed.

Lemma percentiles_are_ordered_witness :
  exists stats,
    get_statistics Scenario.three_samples = inr (Stats stats)
    /\ l_min (latency stats) <= p95 (latency stats)
    /\ p95 (latency stats) <= p99 (latency stats)
    /\ p99 (latency stats) <= l_max (latency stats).
Proof.
  destruct (get_statistics_fields Scenario.three_samples) as (stats & E & _);
    [vm_compute; discriminate |].
  exists stats. split; [exact E |].
  destruct (percentiles_are_ordered Scenario.three_samples stats E)
    as (H1 & H2 & H3 & _).
  repeat split; assumption.
Defined.

Lemma mean_and_median_within_range_witness :
  exists stats,
    get_statistics Scenario.three_samples = inr (Stats stats)
    /\ l_min (latency stats) <= l_mean (latency stats) <= l_max (latency stats).
Proof.
  destruct (get_statistics_fields Scenario.three_samples) as (stats & E & _);
    [vm_compute; discriminate |].
  exists stats. split; [exact E |].
  apply (mean_and_median_within_range Scenario.three_samples stats E).
Defined.

End MetricsExtras.

(** ** More on the comparison table *)

Module ComparisonExtras.
Import Py Comparison ComparisonReport ComparisonProps.

Lemma avg_latency_empty : avg_latency [] = inl ZeroDivisionError.
Proof. reflexivity. Qed.

(** The table exists exactly when both result lists are non-empty: with
    an empty list the analysis raises [ZeroDivisionError]; otherwise it has
    the seven rows, in their fixed order. *)
Theorem comparison_needs_results (semantic_results routellm_results : list TestResult) :
  (semantic_results = [] \/ routellm_results = [] ->
   comparison_data semantic_results routellm_results = inl ZeroDivisionError)
  /\ (semantic_results <> [] -> routellm_results <> [] ->
      exists table,
        comparison_data semantic_results routellm_results = inr table
        /\ List.map metric table
           = ["Average Latency"; "Total Cost"; "Success Rate"; "Functionality";
              "Setup Complexity"; "Scalability"; "Response Quality"]).
Proof.
  split.
  - intros [-> | ->]; unfold comparison_data.
    + reflexivity.
    + destruct semantic_results; reflexivity.
  - intros Hs Hr.
    destruct (avg_latency_defined _ Hs) as [sa Esa].
    destruct (avg_latency_defined _ Hr) as [ra Era].
    destruct (success_rate_defined _ Hs) as [ss Ess].
    destruct (success_rate_defined _ Hr) as [rs Ers].
    unfold comparison_data. rewrite Esa, Era, Ess, Ers.
    eexists. split; reflexivity.
Qed.

Lemma filter_length_bound {A} (f : A -> bool) (l : list A) :
  (List.length (List.filter f l) <= List.length l)%nat.
Proof.
  induction l as [| x l IH]; [reflexivity |].
  cbn [List.filter]. destruct (f x); cbn [List.length]; lia.
Qed.

Lemma percentage_range (k n : nat) :
  (0 < n)%nat -> (k <= n)%nat ->
  0 <= inject_Z (Z.of_nat k) / inject_Z (Z.of_nat n) * 100 <= 100.
Proof.
  intros Hn Hk.
  assert (Hpos : 0 < inject_Z (Z.of_nat n)) by (apply RouterExtras.inject_nat_pos, Hn).
  assert (H0 : 0 <= inject_Z (Z.of_nat k))
    by (change 0 with (inject_Z 0); rewrite <- Zle_Qle; lia).
  assert (H1 : inject_Z (Z.of_nat k) <= inject_Z (Z.of_nat n))
    by (rewrite <- Zle_Qle; lia).
  assert (Hq : 0 <= inject_Z (Z.of_nat k) / inject_Z (Z.of_nat n) <= 1).
  { split.
    - apply Qle_shift_div_l; [exact Hpos | lra].
    - apply Qle_shift_div_r; [exact Hpos | lra]. }
  lra.
Qed.

Lemma success_rate_range (results : list TestResult) (rate : Q) :
  success_rate results = inr rate -> 0 <= rate <= 100.
Proof.
  destruct results as [| r results]; [discriminate |].
  unfold success_rate. intros [= <-].
  apply percentage_range;
    [cbn; lia | apply (filter_length_bound success (r :: results))].
Qed.

(** In the success-rate row both rates are percentages between 0 and
    100, and the semantic router is named the winner whenever its rate is
    at least RouteLLM's, ties included; RouteLLM only with a strictly
    higher rate. *)
Theorem success_rate_row (semantic_results routellm_results : list TestResult) :
  semantic_results <> [] ->
  routellm_results <> [] ->
  exists table sem_rate route_rate,
    comparison_data semantic_results routellm_results = inr table
    /\ success_rate semantic_results = inr sem_rate
    /\ success_rate routellm_results = inr route_rate
    /\ 0 <= sem_rate <= 100
    /\ 0 <= route_rate <= 100
    /\ (route_rate <= sem_rate ->
        winner_of "Success Rate" table = Some semantic_wins)
    /\ (sem_rate < route_rate ->
        winner_of "Success Rate" table = Some routellm_wins).
Proof.
  intros Hs Hr.
  destruct (avg_latency_defined _ Hs) as [sa Esa].
  destruct (avg_latency_defined _ Hr) as [ra Era].
  destruct (success_rate_defined _ Hs) as [ss Ess].
  destruct (success_rate_defined _ Hr) as [rs Ers].
  unfold comparison_data. rewrite Esa, Era, Ess, Ers.
  eexists _, ss, rs. split; [reflexivity |].
  split; [reflexivity |]. split; [reflexivity |].
  split; [apply (success_rate_range _ _ Ess) |].
  split; [apply (success_rate_range _ _ Ers) |].
  unfold winner_of.
  cbn [List.find metric String.eqb Ascii.eqb Bool.eqb fmap option_fmap option_map winner].
  split; intros H.
  - unfold geb. apply Qle_bool_iff in H. rewrite H. reflexivity.
  - unfold geb. destruct (Qle_bool rs ss) eqn:E; [| reflexivity].
    apply Qle_bool_iff in E. exfalso. lra.
Qed.

Lemma success_rate_row_witness :
  exists table,
    comparison_data Scenario.tie_semantic Scenario.tie_routellm = inr table
    /\ winner_of "Success Rate" table = Some semantic_wins.
Proof.
  destruct (success_rate_row Scenario.tie_semantic Scenario.tie_routellm)
    as (table & ss & rs & E & Ess & Ers & _ & _ & Hw & _);
    [discriminate | discriminate |].
  exists table. split; [exact E |].
  injection Ess as <-. injection Ers as <-. apply Hw. vm_compute. discriminate.
Defined.

Lemma count_strong_all (results : list TestResult) :
  (forall r, In r results -> contains "gpt-4" (model_used r) = true) ->
  count_strong results = List.length results.
Proof.
  unfold count_strong. induction results as [| r results IH]; intros H; [reflexivity |].
  cbn [List.filter]. rewrite (H r) by (left; reflexivity).
  cbn [List.length]. rewrite IH; [reflexivity |].
  intros r' Hr'. apply H. right. exact Hr'.
Qed.

(** The model usage analysis counts a result as "strong" when the name of
    its model contains "gpt-4".  Both default models, gpt-4o-mini and the
    weak gpt-4o-nano, do: for results of a default router the analysis
    reports every query as strong-model usage and none as weak. *)
Theorem default_models_count_as_strong (routellm_results : list TestResult) :
  routellm_results <> [] ->
  (forall r, In r routellm_results ->
             model_used r = "gpt-4o-mini" \/ model_used r = "gpt-4o-nano") ->
  exists a,
    usage_analysis routellm_results = Some a
    /\ strong_model_usage a = List.length routellm_results
    /\ weak_model_usage a = 0%nat
    /\ strong_percent a == 100
    /\ weak_percent a == 0.
Proof.
  intros Hne Hall.
  assert (Hc : count_strong routellm_results = List.length routellm_results).
  { apply count_strong_all. intros r Hr.
    destruct (Hall r Hr) as [-> | ->]; reflexivity. }
  unfold usage_analysis. rewrite Hc.
  destruct routellm_results as [| r0 rest] eqn:E; [congruence |].
  rewrite <- E in *. eexists. split; [reflexivity |].
  cbn [strong_model_usage weak_model_usage strong_percent weak_percent].
  rewrite Nat.sub_diag.
  assert (Hpos : 0 < inject_Z (Z.of_nat (List.length routellm_results))).
  { apply RouterExtras.inject_nat_pos. rewrite E. cbn. lia. }
  split; [reflexivity |]. split; [reflexivity |]. split.
  - field. lra.
  - change (inject_Z (Z.of_nat 0)) with 0. field. lra.
Qed.

Lemma default_models_count_as_strong_witness :
  exists a,
    usage_analysis ScenarioExtra.default_results = Some a
    /\ strong_model_usage a = 3%nat
    /\ weak_model_usage a = 0%nat.
Proof.
  destruct (default_models_count_as_strong ScenarioExtra.default_results)
    as (a & E & Hs & Hw & _).
  - discriminate.
  - intros r Hr. cbn in Hr.
    destruct Hr as [<- | [<- | [<- | []]]]; cbn; tauto.
  - exists a. repeat split; assumption.
Defined.

End ComparisonExtras.

(** ** The fixed-category router's bookkeeping *)

Module SemanticRouterExtras.
Import Py PyFacts SemanticRouter.

Lemma get_set_eq d k v : get (set d k v) k = Some v.
Proof.
  induction d as [| [k' v'] d IH]; cbn [set get].
  - rewrite decide_True by reflexivity. reflexivity.
  - destruct (decide (k = k')) as [-> | Hne]; cbn [get].
    + rewrite decide_True by reflexivity. reflexivity.
    + rewrite decide_False by exact Hne. exact IH.
Qed.

Lemma get_set_ne d k k' v : k <> k' -> get (set d k v) k' = get d k'.
Proof.
  intros Hne. induction d as [| [k0 v0] d IH]; cbn [set get].
  - rewrite decide_False by (intros E; apply Hne; symmetry; exact E). reflexivity.
  - destruct (decide (k = k0)) as [-> | Hne0]; cbn [get].
    + rewrite !decide_False by (intros E; apply Hne; symmetry; exact E). reflexivity.
    + destruct (decide (k' = k0)); [reflexivity | exact IH].
Qed.

Lemma total_set d k v :
  (total (set d k v) + default 0 (get d k) = total d + v)%nat.
Proof.
  induction d as [| [k' v'] d IH]; cbn [set get total fold_right snd].
  - cbn. lia.
  - destruct (decide (k = k')) as [-> | Hne]; cbn [total fold_right snd default from_option id].
    + fold (total d). lia.
    + fold (total (set d k v)) (total d). lia.
Qed.

Lemma keys_set d k v k0 :
  In k0 (List.map fst (set d k v)) -> k0 = k \/ In k0 (List.map fst d).
Proof.
  induction d as [| [k' v'] d IH]; cbn [set List.map fst].
  - intros [<- | []]. left. reflexivity.
  - destruct (decide (k = k')) as [-> | Hne]; cbn [List.map fst].
    + intros [<- | H]; [left; reflexivity | right; right; exact H].
    + intros [<- | H]; [right; left; reflexivity |].
      destruct (IH H) as [-> | H']; [left; reflexivity | right; right; exact H'].
Qed.

Lemma nodup_set d k v :
  List.NoDup (List.map fst d) -> List.NoDup (List.map fst (set d k v)).
Proof.
  induction d as [| [k' v'] d IH]; cbn [set List.map fst]; intros Hnd.
  - constructor; [intros [] | constructor].
  - destruct (decide (k = k')) as [-> | Hne]; cbn [List.map fst]; [exact Hnd |].
    inversion Hnd as [| k0 l Hnotin Hnd']; subst. constructor; [| apply IH, Hnd'].
    intros H. destruct (keys_set _ _ _ _ H) as [E | H']; [| contradiction].
    apply Hne. symmetry. exact E.
Qed.

Lemma positive_set d k v :
  (1 <= v)%nat ->
  List.Forall (fun kv => (1 <= snd kv)%nat) d ->
  List.Forall (fun kv => (1 <= snd kv)%nat) (set d k v).
Proof.
  intros Hv. induction d as [| [k' v'] d IH]; cbn [set]; intros H.
  - constructor; [exact Hv | constructor].
  - inversion H as [| kv l Hkv Hl]; subst.
    destruct (decide (k = k')); constructor; auto.
Qed.

Lemma get_le_total d k : (default 0 (get d k) <= total d)%nat.
Proof.
  induction d as [| [k' v'] d IH]; cbn [get total fold_right snd]; [cbn; lia |].
  fold (total d). destruct (decide (k = k')); cbn [default from_option id]; lia.
Qed.

Lemma get_In d k v : get d k = Some v -> In (k, v) d.
Proof.
  induction d as [| [k' v'] d IH]; cbn [get]; [discriminate |].
  destruct (decide (k = k')) as [-> | Hne].
  - intros [= ->]. left. reflexivity.
  - intros H. right. apply IH, H.
Qed.

Lemma In_get d k v : List.NoDup (List.map fst d) -> In (k, v) d -> get d k = Some v.
Proof.
  induction d as [| [k' v'] d IH]; cbn [get List.map fst]; intros Hnd; [intros [] |].
  inversion Hnd as [| k0 l Hnotin Hnd']; subst.
  intros [[= -> ->] | Hin].
  - rewrite decide_True by reflexivity. reflexivity.
  - destruct (decide (k = k')) as [-> | Hne]; [| apply IH; assumption].
    exfalso. apply Hnotin. apply (in_map fst) in Hin. exact Hin.
Qed.

Lemma length_le_total d :
  List.Forall (fun kv => (1 <= snd kv)%nat) d -> (List.length d <= total d)%nat.
Proof.
  induction 1 as [| kv d Hkv Hd IH]; cbn [List.length total fold_right]; [lia |].
  fold (total d). lia.
Qed.

Lemma first_max_spec best d :
  In (first_max best d) (best :: d)
  /\ forall kv, In kv (best :: d) -> (snd kv <= snd (first_max best d))%nat.
Proof.
  unfold first_max. revert best. induction d as [| kv d IH]; intros best; cbn [fold_left].
  - split; [left; reflexivity |]. intros kv [<- | []]. lia.
  - destruct (Nat.ltb_spec (snd best) (snd kv)) as [Hlt | Hge].
    + destruct (IH kv) as [Hin Hmax]. split.
      * right. exact Hin.
      * intros kv' [<- | Hin'].
        -- specialize (Hmax kv (or_introl eq_refl)). lia.
        -- apply Hmax, Hin'.
    + destruct (IH best) as [Hin Hmax]. split.
      * destruct Hin as [<- | Hin]; [left; reflexivity | right; right; exact Hin].
      * intros kv' [<- | [<- | Hin']].
        -- apply Hmax. left. reflexivity.
        -- specialize (Hmax best (or_introl eq_refl)). lia.
        -- apply Hmax. right. exact Hin'.
Qed.

(** What one call does to the counters, whatever it returns. *)
Lemma route_query_effect st router clock q ic :
  let name := route_name_of (decision_of router q) in
  let st' := fst (route_query st router clock q ic) in
  total_queries st' = (total_queries st + 1)%nat
  /\ total_latency st'
     = total_latency st + (RouteLLM.t_end clock - RouteLLM.t_start clock) * 1000
  /\ route_usage st'
     = set (route_usage st) name (default 0%nat (get (route_usage st) name) + 1).
Proof.
  cbn zeta. unfold route_query. fold (decision_of router q).
  destruct (ic && truthy (decision_of router q)).
  - destruct (decision_of router q) as [[t na sv ra rp [[sc |] |]] |];
      cbn; repeat split; reflexivity.
  - cbn. repeat split; reflexivity.
Qed.

Lemma step_tallied st c : tallied st -> tallied (fst (step st c)).
Proof.
  intros (Ht & Hnd & Hpos). unfold step.
  destruct (route_query_effect st (c_router c) (c_clock c) (c_query c)
              (c_include_confidence c)) as (Eq & _ & Eu).
  unfold tallied. rewrite Eq, Eu. split; [| split].
  - pose proof (total_set (route_usage st)
                  (route_name_of (decision_of (c_router c) (c_query c)))
                  (default 0%nat (get (route_usage st)
                     (route_name_of (decision_of (c_router c) (c_query c)))) + 1))
      as H.
    revert H. generalize (route_name_of (decision_of (c_router c) (c_query c))).
    intros k. generalize (default 0%nat (get (route_usage st) k)). intros old.
    generalize (total (set (route_usage st) k (old + 1))). intros new H. lia.
  - apply nodup_set, Hnd.
  - apply positive_set; [apply Nat.le_add_l | exact Hpos].
Qed.

Lemma run_tallied st calls :
  tallied st ->
  tallied (run st calls)
  /\ total_queries (run st calls) = (total_queries st + List.length calls)%nat.
Proof.
  revert st. induction calls as [| c calls IH]; intros st Ht.
  - cbn. split; [exact Ht | lia].
  - cbn [run List.length]. destruct (IH _ (step_tallied st c Ht)) as [Ht' Eq].
    split; [exact Ht' |]. rewrite Eq. unfold step.
    destruct (route_query_effect st (c_router c) (c_clock c) (c_query c)
                (c_include_confidence c)) as (Eq1 & _). lia.
Qed.

Lemma fresh_tallied : tallied fresh.
Proof. repeat split; constructor. Qed.

(** After any sequence of [route_query] calls on a new router, raising
    ones included: the counts of [route_usage] add up to [total_queries],
    which is the number of calls, no route name has two entries, and no
    more routes are in use than queries were made. *)
Theorem route_usage_adds_up (calls : list Call) :
  let st := run fresh calls in
  total (route_usage st) = total_queries st
  /\ total_queries st = List.length calls
  /\ List.NoDup (List.map fst (route_usage st))
  /\ (List.length (route_usage st) <= total_queries st)%nat.
Proof.
  cbn zeta. destruct (run_tallied fresh calls fresh_tallied) as [(Ht & Hnd & Hpos) Eq].
  repeat split; try assumption.
  rewrite <- Ht. apply length_le_total, Hpos.
Qed.

(** Called without confidence, [route_query] never raises.  A route layer
    that raises or returns [None] gives the route "no_match" with
    success = false; any other value gives success = true, also a value
    that counts as false, whose route is "no_match" all the same.  The
    count of the returned route goes up by one. *)
Theorem route_query_without_confidence st router clock q :
  exists st' r,
    route_query st router clock q false = (st', inr r)
    /\ query r = q
    /\ confidence r = None
    /\ (decision_of router q = None -> route r = Some "no_match" /\ success r = false)
    /\ (forall reply, decision_of router q = Some reply ->
          success r = true
          /\ (truth reply = false -> route r = Some "no_match"))
    /\ get (route_usage st') (route r)
       = Some (default 0%nat (get (route_usage st) (route r)) + 1)%nat.
Proof.
  unfold route_query. fold (decision_of router q).
  cbn [andb]. eexists _, _. split; [reflexivity |].
  cbn [query confidence route success route_usage].
  split; [reflexivity |]. split; [reflexivity |]. split; [| split].
  - intros ->. split; reflexivity.
  - intros reply ->. split; [reflexivity |]. intros Ht. cbn [route_name_of].
    rewrite Ht. reflexivity.
  - apply get_set_eq.
Qed.

(** Called with confidence, [route_query] raises exactly when the
    decision counts as true and has a [score] attribute that is [None]
    ([round(None, 3)]); the query is counted even then. *)
Theorem route_query_raises_on_missing_score st router clock q :
  let st' := fst (route_query st router clock q true) in
  total_queries st' = (total_queries st + 1)%nat
  /\ ((exists e, snd (route_query st router clock q true) = inl e)
      <-> exists reply,
            decision_of router q = Some reply
            /\ truth reply = true /\ score_attr reply = Some None).
Proof.
  cbn zeta. split; [apply route_query_effect |].
  unfold route_query. fold (decision_of router q). cbn [andb].
  destruct (decision_of router q) as [[t na sv ra rp sc] |]; cbn [truthy truth].
  - destruct t.
    + destruct sc as [[x |] |]; cbn [snd]; split.
      * intros [e H]. discriminate H.
      * intros (reply & [= <-] & _ & H). discriminate H.
      * intros _. eexists. split; [reflexivity |]. split; reflexivity.
      * intros _. eexists. reflexivity.
      * intros [e H]. discriminate H.
      * intros (reply & [= <-] & _ & H). discriminate H.
    + cbn [snd]. split.
      * intros [e H]. discriminate H.
      * intros (reply & [= <-] & H & _). discriminate H.
  - cbn [snd]. split.
    + intros [e H]. discriminate H.
    + intros (reply & H & _). discriminate H.
Qed.

Lemma rounded_success_rate_range (nm n : nat) :
  (0 < n)%nat -> (nm <= n)%nat ->
  0 <= round ((1 - inject_Z (Z.of_nat nm) / inject_Z (Z.of_nat n)) * 100) 2 <= 100.
Proof.
  intros Hn Hnm.
  apply ClassifierProps.round_within; [reflexivity | reflexivity |].
  pose proof (ComparisonExtras.percentage_range nm n Hn Hnm) as [H0 H1].
  split; lra.
Qed.

(** [get_performance_stats] after the calls [calls] on a new router:
    the error dictionary when there were none; otherwise statistics whose
    [total_queries] is the number of calls, whose success rate lies
    between 0 and 100, with at most as many routes used as queries made,
    and whose most used route is a route of the distribution with the
    highest count. *)
Theorem semantic_performance_stats (calls : list Call) :
  let st := run fresh calls in
  match calls with
  | [] => get_performance_stats st = NoQueries "No queries processed yet"
  | _ :: _ =>
      exists stats,
        get_performance_stats st = Performance stats
        /\ ps_total_queries stats = List.length calls
        /\ route_distribution stats = route_usage st
        /\ 0 <= success_rate stats <= 100
        /\ (1 <= routes_used stats <= List.length calls)%nat
        /\ exists k v,
             most_used_route stats = Some k
             /\ get (route_usage st) k = Some v
             /\ forall k' v', get (route_usage st) k' = Some v' -> (v' <= v)%nat
  end.
Proof.
  cbn zeta. destruct calls as [| c calls]; [reflexivity |].
  set (st := run fresh (c :: calls)).
  destruct (run_tallied fresh (c :: calls) fresh_tallied) as [(Ht & Hnd & Hpos) Eq].
  fold st in Ht, Hnd, Hpos, Eq. cbn [fresh total_queries] in Eq.
  rewrite Nat.add_0_l in Eq.
  assert (Hn : (0 < total_queries st)%nat) by (rewrite Eq; cbn; lia).
  clearbody st. unfold get_performance_stats.
  destruct (Nat.eqb_spec (total_queries st) 0) as [E0 | _]; [lia |].
  eexists. split; [reflexivity |].
  cbn [ps_total_queries route_distribution success_rate routes_used most_used_route].
  split; [exact Eq |]. split; [reflexivity |]. split; [| split].
  - apply rounded_success_rate_range; [exact Hn |].
    rewrite <- Ht. apply get_le_total.
  - split.
    + destruct (route_usage st) as [| kv d]; [cbn in Ht; lia | cbn; lia].
    + rewrite <- Eq, <- Ht. apply length_le_total, Hpos.
  - destruct (route_usage st) as [| kv d] eqn:Eu; [cbn in Ht; lia |].
    cbn [most_used].
    destruct (first_max_spec kv d) as [Hin Hmax].
    destruct (first_max kv d) as [k v] eqn:Ef. cbn [fst snd] in *.
    exists k, v. split; [reflexivity |]. split.
    + apply In_get; assumption.
    + intros k' v' Hg. apply (Hmax (k', v')), get_In, Hg.
Qed.

End SemanticRouterExtras.

(** ** Running both routers *)

Module HarnessExtras.
Import Py Comparison Harness.

Lemma substring_length (n : nat) (s : string) :
  (String.length (String.substring 0 n s) <= n)%nat.
Proof.
  revert s. induction n as [| n IH]; intros [| c s]; cbn; try lia.
  specialize (IH s). lia.
Qed.

Lemma preview_length (text : string) : (String.length (preview text) <= 103)%nat.
Proof.
  unfold preview. destruct (Nat.ltb_spec 100 (String.length text)) as [H | H].
  - rewrite ClassifierProps.length_app.
    pose proof (substring_length 100 text). cbn. lia.
  - lia.
Qed.

Lemma preview_short (text : string) :
  (String.length text <= 100)%nat -> preview text = text.
Proof.
  intros H. unfold preview.
  destruct (Nat.ltb_spec 100 (String.length text)); [lia | reflexivity].
Qed.

Lemma semantic_route_test_effect st router clock now q :
  exists st' e,
    semantic_route_test st router clock now q = (st', e)
    /\ cost (entry e) = 2 # 100000
    /\ query e = q.
Proof.
  unfold semantic_route_test, SemanticRouter.route_query. cbn [andb].
  eexists _, _. split; [reflexivity |]. split; reflexivity.
Qed.

Lemma comparison_data_defined (semantic_results routellm_results : list TestResult) :
  semantic_results <> [] -> routellm_results <> [] ->
  exists table, comparison_data semantic_results routellm_results = inr table.
Proof.
  intros Hs Hr.
  destruct (ComparisonProps.avg_latency_defined _ Hs) as [sa Esa].
  destruct (ComparisonProps.avg_latency_defined _ Hr) as [ra Era].
  destruct (ComparisonProps.success_rate_defined _ Hs) as [ss Ess].
  destruct (ComparisonProps.success_rate_defined _ Hr) as [rs Ers].
  unfold comparison_data. rewrite Esa, Era, Ess, Ers. eauto.
Qed.

(** [semantic_route_test] always takes the first branch: the entry has
    the flat cost 0.00002 and the embedding model's name also when no
    route was found; success tells whether the route layer returned
    something other than [None]; the query is counted. *)
Theorem semantic_test_has_flat_cost st router clock now q :
  exists st' e,
    semantic_route_test st router clock now q = (st', e)
    /\ cost (entry e) = 2 # 100000
    /\ model_used (entry e) = "text-embedding-3-small"
    /\ response_type e = "Route Classification Only"
    /\ route e = SemanticRouter.route_name_of (SemanticRouter.decision_of router q)
    /\ success (entry e)
       = match SemanticRouter.decision_of router q with
         | Some _ => true
         | None => false
         end
    /\ SemanticRouter.total_queries st' = (SemanticRouter.total_queries st + 1)%nat.
Proof.
  unfold semantic_route_test, SemanticRouter.route_query.
  fold (SemanticRouter.decision_of router q). cbn [andb].
  eexists _, _. split; [reflexivity |]. cbn. repeat split; reflexivity.
Qed.

Section Facts.

Variable encode : string -> Py.exn + list nat.

(** The entry built by [routellm_test] from the outcome of the router.
    From a decision with a response text it copies model, cost, latency
    and success, and its preview is the text, cut to 100 characters plus
    "..." when longer; from a decision with no response text ([None]) it
    is the error entry, with success = false, cost 0 and model "unknown";
    when the router raises, which it does only with the exception of the
    encoder refusing the query, it is the error entry for that exception.
    The test itself never raises. *)
Theorem routellm_test_follows_decision pf env key st0 calls client clock q :
  RouteLLM.init pf env key = inr st0 ->
  let st := RouteLLM.run encode st0 calls in
  exists st' r e,
    RouteLLM.route_and_execute encode st client clock q 100 = (st', r)
    /\ routellm_test encode st client clock q = (st', e)
    /\ method (entry e) = "RouteLLM"
    /\ query e = q
    /\ match r with
       | inr d =>
           match RouteLLM.d_response d with
           | Some text =>
               success (entry e) = RouteLLM.d_success d
               /\ cost (entry e) = RouteLLM.d_cost d
               /\ latency_ms (entry e) = RouteLLM.d_latency_ms d
               /\ model_used (entry e) = RouteLLM.d_model d
               /\ response_preview e = Some (preview text)
               /\ (String.length (preview text) <= 103)%nat
               /\ ((String.length text <= 100)%nat -> preview text = text)
           | None =>
               e = routellm_error q
                     (TypeError "object of type 'NoneType' has no len()")
           end
       | inl x => e = routellm_error q (FromRouteLLM x) /\ encode q = inl x
       end
    /\ (RouteLLM.accepts encode q -> exists d, r = inr d).
Proof.
  intros Hinit st.
  destruct (RouterExtras.constructed encode _ _ _ _ calls Hinit) as (Hc & _).
  fold st in Hc.
  destruct (RouterProps.counted_selected st q Hc) as [n Hn].
  destruct (RouterProps.route_and_execute_effect encode st client clock q 100 n Hn)
    as (st' & r & E & _ & _ & _ & _ & _ & _ & _ & _ & He & Hacc).
  unfold routellm_test. rewrite E.
  destruct r as [x | d].
  - eexists st', (inl x), _. split; [reflexivity |]. split; [reflexivity |].
    split; [reflexivity |]. split; [reflexivity |].
    split; [split; [reflexivity | apply He; reflexivity] | exact Hacc].
  - destruct (RouteLLM.d_response d) as [text |] eqn:Er.
    + eexists st', (inr d), _. split; [reflexivity |]. split; [reflexivity |].
      split; [reflexivity |]. split; [reflexivity |]. split; [| exact Hacc].
      rewrite Er. cbn. repeat split; try reflexivity.
      * apply preview_length.
      * apply preview_short.
    + eexists st', (inr d), _. split; [reflexivity |]. split; [reflexivity |].
      split; [reflexivity |]. split; [reflexivity |]. split; [| exact Hacc].
      rewrite Er. reflexivity.
Qed.

(** A chat response whose message content is [None] is a success for the
    router, which charges it for the input tokens the encoder counts, and
    an error entry for the harness: no success, cost 0, model
    "unknown". *)
Theorem empty_content_is_charged_but_reported_failed
    pf env key st0 calls client clock q r rcs price tokens :
  RouteLLM.init pf env key = inr st0 ->
  let st := RouteLLM.run encode st0 calls in
  client (RouteLLM.selected st q) q 100%nat = inr r ->
  RouteLLM.choices r = None :: rcs ->
  RouteLLM.price_table !! RouteLLM.selected st q = Some price ->
  encode (q ++ RouteLLM.system_prompt) = inr tokens ->
  exists st' d e,
    RouteLLM.route_and_execute encode st client clock q 100 = (st', inr d)
    /\ RouteLLM.d_success d = true
    /\ RouteLLM.total_cost st'
       == RouteLLM.total_cost st + RouteLLM.call_cost price (List.length tokens) 0
    /\ routellm_test encode st client clock q = (st', e)
    /\ success (entry e) = false
    /\ cost (entry e) = 0
    /\ model_used (entry e) = "unknown".
Proof.
  intros Hinit st Hr Hch Hp Hin.
  apply RouterProps.count_tokens_accepted in Hin.
  destruct (RouterExtras.constructed encode _ _ _ _ calls Hinit) as (Hc & Ec & _).
  fold st in Hc, Ec.
  destruct (RouterProps.counted_selected st q Hc) as [n Hn].
  destruct (RouterExtras.route_and_execute_cases encode st client clock q 100 n Hn)
    as (st' & res & E & _ & _ & Htry).
  destruct (RouteLLM.try_block encode _ client q 100 (RouteLLM.selected st q))
    as [e0 | [st2 o]] eqn:Etry.
  - exfalso. unfold RouteLLM.try_block in Etry. rewrite Hr, Hch, Hin in Etry.
    cbn [RouteLLM.truthy RouteLLM.costs RouteLLM.set_complexity_stats
         RouteLLM.set_model_usage RouteLLM.set_total_queries] in Etry.
    rewrite Ec, Hp in Etry. destruct (RouteLLM.usage r); discriminate Etry.
  - destruct Htry as (d & -> & Hs & Ht & _ & Hresp & _).
    apply RouterExtras.try_block_done in Etry
      as (r' & rc' & rcs' & price' & i & o' & Er' & Ech' & Ei' & Eo' & Ep' & _
          & Etot & Eresp & _).
    rewrite Hr in Er'. injection Er' as <-.
    rewrite Hch in Ech'. injection Ech' as <- <-.
    cbn [RouteLLM.costs RouteLLM.total_cost RouteLLM.set_complexity_stats
         RouteLLM.set_model_usage RouteLLM.set_total_queries] in Ep', Etot.
    rewrite Ec, Hp in Ep'. injection Ep' as <-.
    rewrite Hin in Ei'. injection Ei' as <-.
    cbn [RouteLLM.truthy] in Eo'. injection Eo' as <-.
    exists st', d, (routellm_error q (TypeError "object of type 'NoneType' has no len()")).
    split; [exact E |]. split; [exact Hs |]. split; [rewrite Ht; exact Etot |].
    split; [| repeat split; reflexivity].
    unfold routellm_test. rewrite E, Hresp, Eresp. reflexivity.
Qed.

Lemma compare_loop_lists st items :
  exists st' sems rls,
    compare_loop encode st items = (st', (sems, rls))
    /\ List.map query sems = List.map i_query items
    /\ List.map query rls = List.map i_query items
    /\ Forall (fun e => cost (entry e) = 2 # 100000) sems.
Proof.
  revert st. induction items as [| item rest IH]; intros st.
  - exists st, [], []. repeat split; constructor.
  - cbn [compare_loop].
    destruct (semantic_route_test_effect (semantic_router st) (i_router item)
                (i_semantic_clock item) (i_now item) (i_query item))
      as (sem & se & Es & Hcost & Hq).
    rewrite Es.
    destruct (routellm_test encode (routellm st) (i_client item)
                (i_routellm_clock item) (i_query item)) as [rl re] eqn:Er.
    assert (Hq' : query re = i_query item).
    { unfold routellm_test in Er.
      destruct (RouteLLM.route_and_execute encode (routellm st) (i_client item)
                  (i_routellm_clock item) (i_query item) 100) as [st1 [e | d]].
      - injection Er as _ <-. reflexivity.
      - destruct (RouteLLM.d_response d); injection Er as _ <-; reflexivity. }
    destruct (IH {| semantic_router := sem; routellm := rl |})
      as (st' & sems & rls & E & Hs & Hr & Hall).
    rewrite E. exists st', (se :: sems), (re :: rls).
    split; [reflexivity |]. cbn [List.map].
    repeat split; try congruence. constructor; assumption.
Qed.

Lemma flat_cost_sum (sems : list Entry) :
  Forall (fun e => cost (entry e) = 2 # 100000) sems ->
  total_cost (List.map entry sems)
  == inject_Z (Z.of_nat (List.length sems)) * (2 # 100000).
Proof.
  unfold total_cost. induction 1 as [| e sems He Hall IH].
  - reflexivity.
  - cbn [List.map List.length]. rewrite RouterExtras.sum_cons, IH, He.
    rewrite Nat2Z.inj_succ. unfold Z.succ. rewrite inject_Z_plus. ring.
Qed.

(** The comparison of a list of queries: with no query the analysis
    raises [ZeroDivisionError]; otherwise both result lists hold one
    entry per query, in the order of the queries, the table is produced,
    and the semantic router's total cost is 0.00002 per query. *)
Theorem comparison_of_queries st items :
  match items with
  | [] => snd (compare_routers encode st items) = inl ZeroDivisionError
  | _ :: _ =>
      exists st' sems rls table,
        compare_loop encode st items = (st', (sems, rls))
        /\ List.map query sems = List.map i_query items
        /\ List.map query rls = List.map i_query items
        /\ compare_routers encode st items = (st', inr table)
        /\ total_cost (List.map entry sems)
           == inject_Z (Z.of_nat (List.length items)) * (2 # 100000)
  end.
Proof.
  destruct items as [| item rest]; [reflexivity |].
  destruct (compare_loop_lists st (item :: rest))
    as (st' & sems & rls & E & Hs & Hr & Hall).
  assert (Hls : List.length sems = List.length (item :: rest)).
  { rewrite <- (length_map query sems), Hs, length_map. reflexivity. }
  assert (Hlr : List.length rls = List.length (item :: rest)).
  { rewrite <- (length_map query rls), Hr, length_map. reflexivity. }
  destruct (comparison_data_defined (List.map entry sems) (List.map entry rls))
    as (table & Et).
  { destruct sems; [discriminate Hls | discriminate]. }
  { destruct rls; [discriminate Hlr | discriminate]. }
  exists st', sems, rls, table. unfold compare_routers. rewrite E, Et.
  repeat split; try assumption.
  rewrite <- Hls. apply flat_cost_sum, Hall.
Qed.

End Facts.

Lemma routellm_test_follows_decision_witness :
  exists st' e,
    routellm_test Scenario.one_per_char Scenario.router_default
      (Scenario.answering "ok" None) Scenario.clock0 "Explain recursion"
    = (st', e)
    /\ method (entry e) = "RouteLLM".
Proof.
  destruct (routellm_test_follows_decision Scenario.one_per_char
              Scenario.platform Scenario.env_default None Scenario.router_default []
              (Scenario.answering "ok" None) Scenario.clock0 "Explain recursion"
              Scenario.init_default)
    as (st' & r & e & _ & E & Hm & _).
  exists st', e. split; assumption.
Defined.

Lemma empty_content_is_charged_but_reported_failed_witness :
  exists st' e,
    routellm_test Scenario.one_per_char Scenario.router_default
      ScenarioExtra.empty_content Scenario.clock0 "Explain recursion"
    = (st', e)
    /\ success (entry e) = false
    /\ RouteLLM.total_cost st' == 123 # 10000000.
Proof.
  destruct (empty_content_is_charged_but_reported_failed Scenario.one_per_char
              Scenario.platform Scenario.env_default None Scenario.router_default []
              ScenarioExtra.empty_content Scenario.clock0 "Explain recursion"
              {| RouteLLM.choices := [None]; RouteLLM.usage := None |} []
              {| RouteLLM.input := 15 # 100000; RouteLLM.output := 6 # 10000 |}
              (List.repeat 0%nat 82)
              Scenario.init_default eq_refl eq_refl)
    as (st' & d & e & _ & _ & Ht & E & Hs & _).
  - vm_compute. reflexivity.
  - reflexivity.
  - exists st', e. split; [exact E |]. split; [exact Hs |].
    rewrite Ht. vm_compute. reflexivity.
Defined.

End HarnessExtras.
